(** * Zen-Slice: the game core of [GameCanvas] and the feedback service

    A shallow embedding of the simulation code of the repository
    (components/GameCanvas.tsx, services/geminiService.ts, types.ts and
    constants.ts) together with the properties of its collision detector,
    combo machine, session life-cycle and particle system.

    Modelling conventions.
    - A JavaScript [number] that holds a coordinate, a speed, an intensity
      or a duration is a real number ([R]); a [number] that only ever holds
      an integer (score, lives, counters, [Date.now()] milliseconds) is a
      [Z], injected with [IZR] where the code mixes the two.
    - [useRef] cells and [useState] cells are fields of one record [Game];
      a state setter takes effect at once and its updater runs exactly once.
    - [Math.random], [Date.now] and [performance.now] are oracles indexed by
      the number of calls made so far; the counters live in [Game].
    - Calls into [AudioService] are appended to a log. *)

From Stdlib Require Import Reals Lra Lia ZArith List String Ascii Bool.
From Stdlib Require Import DecimalString.
Import ListNotations.

Open Scope string_scope.
Open Scope list_scope.
Open Scope Z_scope.
Open Scope R_scope.

(** ** JavaScript numbers and [Math] *)

Definition Rltb (a b : R) : bool := if Rlt_dec a b then true else false.
Definition Rleb (a b : R) : bool := if Rle_dec a b then true else false.
Definition Rgtb (a b : R) : bool := Rltb b a.
Definition Reqb (a b : R) : bool := if Req_dec_T a b then true else false.

Module Math.

Definition hypot (a b : R) : R := sqrt (a * a + b * b).

Definition max (a b : R) : R := Rmax a b.
Definition min (a b : R) : R := Rmin a b.

Definition floor (a : R) : Z := Int_part a.

Definition pow (base e : R) : R := Rpower base e.

(** [Math.atan2(y, x)]: the angle of the vector (x, y), in (-PI, PI]. *)
Definition atan2 (b a : R) : R :=
  if Rlt_dec 0 a then atan (b / a)
  else if Rlt_dec a 0 then
    (if Rle_dec 0 b then atan (b / a) + PI else atan (b / a) - PI)
  else if Rlt_dec 0 b then PI / 2
  else if Rlt_dec b 0 then - (PI / 2)
  else 0.

End Math.

(** Template literals print an integer in decimal. *)
Definition string_of_Z (n : Z) : string :=
  NilZero.string_of_int (Z.to_int n).

(** ** types.ts *)

Inductive FruitType :=
  | APPLE | PEAR | ORANGE | LEMON | BANANA | WATERMELON | GRAPE | STRAWBERRY
  | PINEAPPLE | MANGO | PEACH | CHERRY | KIWI | COCONUT | MELON | AVOCADO
  | BOMB.

Definition FruitType_eqb (a b : FruitType) : bool :=
  match a, b with
  | APPLE, APPLE | PEAR, PEAR | ORANGE, ORANGE | LEMON, LEMON
  | BANANA, BANANA | WATERMELON, WATERMELON | GRAPE, GRAPE
  | STRAWBERRY, STRAWBERRY | PINEAPPLE, PINEAPPLE | MANGO, MANGO
  | PEACH, PEACH | CHERRY, CHERRY | KIWI, KIWI | COCONUT, COCONUT
  | MELON, MELON | AVOCADO, AVOCADO | BOMB, BOMB => true
  | _, _ => false
  end.

Record TrailPoint := mkTrailPoint {
  tp_x : R;
  tp_y : R;
  tp_timestamp : Z
}.

Record Entity := mkEntity {
  e_id : string;
  e_type : FruitType;
  e_x : R;
  e_y : R;
  e_vx : R;
  e_vy : R;
  e_rotation : R;
  e_rotationSpeed : R;
  e_radius : R;
  e_isSliced : bool;
  e_scale : R;
  e_opacity : R;
  e_flash : R;
  e_isFragment : option bool;
  e_sliceAngleRelative : option R;
  e_sliceSide : option Z
}.

Inductive ParticleType := JUICE | SPARK | CORE.

Record Particle := mkParticle {
  p_id : string;
  p_type : ParticleType;
  p_x : R;
  p_y : R;
  p_vx : R;
  p_vy : R;
  p_color : string;
  p_life : R;
  p_decay : R;
  p_size : R;
  p_gravity : R;
  p_rotation : R;
  p_rotationSpeed : R;
  p_stuck : bool;
  p_scale : R
}.

Record FloatingText := mkFloatingText {
  ft_id : string;
  ft_text : string;
  ft_x : R;
  ft_y : R;
  ft_vx : R;
  ft_vy : R;
  ft_life : R;
  ft_color : string;
  ft_scale : R
}.

Record GameStats := mkGameStats {
  score : Z;
  highScore : Z;
  combos : Z;
  fruitsSliced : Z;
  bombsHit : Z;
  accuracy : Z;
  maxCombo : Z
}.

Record DifficultyConfig := mkDifficultyConfig {
  gravity : R;
  minSpeed : R;
  maxSpeed : R;
  spawnRate : R;
  bombChance : R
}.

(** ** services/geminiService.ts *)

Module GeminiService.

(** What an awaited call does: it yields a value or it throws. *)
Inductive Completion (A : Type) :=
  | Returns (a : A)
  | Throws (error : string).
Arguments Returns {A} a.
Arguments Throws {A} error.

(** What the promise of an [async] function settles to. *)
Inductive Promise (A : Type) :=
  | Resolved (a : A)
  | Rejected (error : string).
Arguments Resolved {A} a.
Arguments Rejected {A} error.

Record GoogleGenAI := mkGoogleGenAI { apiKey : string }.

Record GenerateContentRequest := mkRequest {
  model : string;
  contents : string
}.

(** [response.text] is a string or [undefined]. *)
Record GenerateContentResponse := mkResponse { text : option string }.

(** The text-generation collaborator, [ai.models.generateContent]. *)
Definition Collaborator : Type :=
  GoogleGenAI -> GenerateContentRequest -> Completion GenerateContentResponse.

(** [!process.env.API_KEY] holds for [undefined] and for the empty string. *)
Definition initGenAI (API_KEY : option string) : option GoogleGenAI :=
  match API_KEY with
  | None => None
  | Some EmptyString => None
  | Some key => Some (mkGoogleGenAI key)
  end.

Definition prompt (stats : GameStats) : string :=
  ("
      You are a wise, mystical Fruit Ninja Sensei. A student has just finished training.

      Here are their stats:
      - Score: " ++ string_of_Z (score stats) ++ "
      - Max Combo: " ++ string_of_Z (maxCombo stats) ++ "
      - Fruits Sliced: " ++ string_of_Z (fruitsSliced stats) ++ "
      - Bombs Hit: " ++ string_of_Z (bombsHit stats) ++ "

      Provide a brief, 2-sentence response.
      The first sentence should be a mystical observation about their performance style.
      The second sentence should be a specific, actionable tip or a funny remark about fruit.
      Don't use markdown. Keep it plain text.
    ")%string.

Definition MSG_KEY_MISSING : string := "The Dojo is silent (API Key missing).".
Definition MSG_EMPTY : string :=
  "Focus your mind, and the fruit will reveal its path.".
Definition MSG_ERROR : string := "Even masters stumble. Try again.".

(** [a || b] on a possibly undefined string. *)
Definition or_else (a : option string) (b : string) : string :=
  match a with
  | None => b
  | Some EmptyString => b
  | Some s => s
  end.

Definition generateSenseiFeedback
    (API_KEY : option string) (generateContent : Collaborator)
    (stats : GameStats) : Promise string :=
  match initGenAI API_KEY with
  | None => Resolved MSG_KEY_MISSING
  | Some ai =>
      (* try { ... } catch (error) { ... } *)
      match generateContent ai
              (mkRequest "gemini-3-flash-preview" (prompt stats)) with
      | Returns response => Resolved (or_else (text response) MSG_EMPTY)
      | Throws _ => Resolved MSG_ERROR
      end
  end.

End GeminiService.

(** ** constants.ts *)

Definition FRUIT_TYPES : list FruitType :=
  [APPLE; PEAR; ORANGE; LEMON; BANANA; WATERMELON; GRAPE; STRAWBERRY;
   PINEAPPLE; MANGO; PEACH; CHERRY; KIWI; COCONUT; MELON; AVOCADO].

Definition BOMB_TYPE : FruitType := BOMB.

Definition FRUIT_RADIUS : R := 35.
Definition SLICE_LIFETIME : Z := 250.

Definition FRUIT_COLORS (t : FruitType) : string :=
  match t with
  | APPLE => "#ff4d4d"
  | PEAR => "#99cc00"
  | ORANGE => "#ffad33"
  | LEMON => "#ffff66"
  | BANANA => "#ffe135"
  | WATERMELON => "#ff6666"
  | GRAPE => "#9933ff"
  | STRAWBERRY => "#ff0066"
  | PINEAPPLE => "#ffff00"
  | MANGO => "#ffcc00"
  | PEACH => "#ff9966"
  | CHERRY => "#cc0000"
  | KIWI => "#66cc00"
  | COCONUT => "#e6e6e6"
  | MELON => "#99ff99"
  | AVOCADO => "#ccff66"
  | BOMB => "#333333"
  end.

Definition INITIAL_DIFFICULTY : DifficultyConfig :=
  mkDifficultyConfig 0.15 14 19 1400 0.1.

Definition HARD_DIFFICULTY : DifficultyConfig :=
  mkDifficultyConfig 0.22 18 24 900 0.2.

Definition WINNING_QUOTES : list string :=
  ["Sharp blade, sharper mind!";
   "A glorious harvest!";
   "Your reflexes are legendary!";
   "The fruits fear your name!";
   "Precision and power in perfect harmony!";
   "True mastery achieved!";
   "You flow like water, slice like steel."].

Definition LOSING_QUOTES : list string :=
  ["Mind the explosives, young grasshopper.";
   "Chaos is the enemy of the ninja.";
   "Focus on the fruit, ignore the distractions.";
   "A dull blade cuts nothing but hope. Try again.";
   "Victory requires patience, not just speed.";
   "The bomb is not a fruit. Remember this.";
   "Fall down seven times, stand up eight."].

(** ** components/GameCanvas.tsx: the state *)

Inductive GamePhase := LOADING | MENU | PLAYING | GAMEOVER.

Record HudStats := mkHudStats {
  hud_score : Z;
  hud_fruits : Z;
  hud_maxCombo : Z
}.

Record Point := mkPoint { pt_x : R; pt_y : R }.

Inductive AudioEvent :=
  | AudioInit
  | PlayStart
  | PlaySlice
  | PlaySplat
  | PlayBomb
  | PlayCombo (count : Z).

(** The world outside the component: the three clocks and dice of the
    browser, and the two number printers used to make identifiers. *)
Record Env := mkEnv {
  mathRandom : nat -> R;
  dateNow : nat -> Z;
  performanceNow : nat -> R;
  numberToString : R -> string;
  numberToString36 : R -> string
}.

Record Game := mkGame {
  gameState : GamePhase;
  finalStats : option GameStats;
  gameOverQuote : string;
  currentCombo : Z;
  hudStats : HudStats;
  scoreRef : Z;
  livesRef : Z;
  lastTimeRef : R;
  spawnTimerRef : R;
  entitiesRef : list Entity;
  particlesRef : list Particle;
  floatingTextsRef : list FloatingText;
  trailRef : list TrailPoint;
  lastHandPosRef : option Point;
  lastSliceSoundTime : R;
  shakeIntensityRef : R;
  statsRef : GameStats;
  comboTimerRef : Z;
  randomCalls : nat;
  dateCalls : nat;
  perfCalls : nat;
  audioLog : list AudioEvent
}.

(** Assignment to one cell; every other cell keeps its value. *)

Definition set_gameState (v : GamePhase) (g : Game) : Game :=
  mkGame v (finalStats g) (gameOverQuote g) (currentCombo g) (hudStats g)
    (scoreRef g) (livesRef g) (lastTimeRef g) (spawnTimerRef g)
    (entitiesRef g) (particlesRef g) (floatingTextsRef g) (trailRef g)
    (lastHandPosRef g) (lastSliceSoundTime g) (shakeIntensityRef g)
    (statsRef g) (comboTimerRef g) (randomCalls g) (dateCalls g)
    (perfCalls g) (audioLog g).

Definition set_finalStats (v : option GameStats) (g : Game) : Game :=
  mkGame (gameState g) v (gameOverQuote g) (currentCombo g) (hudStats g)
    (scoreRef g) (livesRef g) (lastTimeRef g) (spawnTimerRef g)
    (entitiesRef g) (particlesRef g) (floatingTextsRef g) (trailRef g)
    (lastHandPosRef g) (lastSliceSoundTime g) (shakeIntensityRef g)
    (statsRef g) (comboTimerRef g) (randomCalls g) (dateCalls g)
    (perfCalls g) (audioLog g).

Definition set_gameOverQuote (v : string) (g : Game) : Game :=
  mkGame (gameState g) (finalStats g) v (currentCombo g) (hudStats g)
    (scoreRef g) (livesRef g) (lastTimeRef g) (spawnTimerRef g)
    (entitiesRef g) (particlesRef g) (floatingTextsRef g) (trailRef g)
    (lastHandPosRef g) (lastSliceSoundTime g) (shakeIntensityRef g)
    (statsRef g) (comboTimerRef g) (randomCalls g) (dateCalls g)
    (perfCalls g) (audioLog g).

Definition set_currentCombo (v : Z) (g : Game) : Game :=
  mkGame (gameState g) (finalStats g) (gameOverQuote g) v (hudStats g)
    (scoreRef g) (livesRef g) (lastTimeRef g) (spawnTimerRef g)
    (entitiesRef g) (particlesRef g) (floatingTextsRef g) (trailRef g)
    (lastHandPosRef g) (lastSliceSoundTime g) (shakeIntensityRef g)
    (statsRef g) (comboTimerRef g) (randomCalls g) (dateCalls g)
    (perfCalls g) (audioLog g).

Definition set_hudStats (v : HudStats) (g : Game) : Game :=
  mkGame (gameState g) (finalStats g) (gameOverQuote g) (currentCombo g) v
    (scoreRef g) (livesRef g) (lastTimeRef g) (spawnTimerRef g)
    (entitiesRef g) (particlesRef g) (floatingTextsRef g) (trailRef g)
    (lastHandPosRef g) (lastSliceSoundTime g) (shakeIntensityRef g)
    (statsRef g) (comboTimerRef g) (randomCalls g) (dateCalls g)
    (perfCalls g) (audioLog g).

Definition set_scoreRef (v : Z) (g : Game) : Game :=
  mkGame (gameState g) (finalStats g) (gameOverQuote g) (currentCombo g)
    (hudStats g) v (livesRef g) (lastTimeRef g) (spawnTimerRef g)
    (entitiesRef g) (particlesRef g) (floatingTextsRef g) (trailRef g)
    (lastHandPosRef g) (lastSliceSoundTime g) (shakeIntensityRef g)
    (statsRef g) (comboTimerRef g) (randomCalls g) (dateCalls g)
    (perfCalls g) (audioLog g).

Definition set_livesRef (v : Z) (g : Game) : Game :=
  mkGame (gameState g) (finalStats g) (gameOverQuote g) (currentCombo g)
    (hudStats g) (scoreRef g) v (lastTimeRef g) (spawnTimerRef g)
    (entitiesRef g) (particlesRef g) (floatingTextsRef g) (trailRef g)
    (lastHandPosRef g) (lastSliceSoundTime g) (shakeIntensityRef g)
    (statsRef g) (comboTimerRef g) (randomCalls g) (dateCalls g)
    (perfCalls g) (audioLog g).

Definition set_lastTimeRef (v : R) (g : Game) : Game :=
  mkGame (gameState g) (finalStats g) (gameOverQuote g) (currentCombo g)
    (hudStats g) (scoreRef g) (livesRef g) v (spawnTimerRef g)
    (entitiesRef g) (particlesRef g) (floatingTextsRef g) (trailRef g)
    (lastHandPosRef g) (lastSliceSoundTime g) (shakeIntensityRef g)
    (statsRef g) (comboTimerRef g) (randomCalls g) (dateCalls g)
    (perfCalls g) (audioLog g).

Definition set_spawnTimerRef (v : R) (g : Game) : Game :=
  mkGame (gameState g) (finalStats g) (gameOverQuote g) (currentCombo g)
    (hudStats g) (scoreRef g) (livesRef g) (lastTimeRef g) v (entitiesRef g)
    (particlesRef g) (floatingTextsRef g) (trailRef g) (lastHandPosRef g)
    (lastSliceSoundTime g) (shakeIntensityRef g) (statsRef g)
    (comboTimerRef g) (randomCalls g) (dateCalls g) (perfCalls g)
    (audioLog g).

Definition set_entitiesRef (v : list Entity) (g : Game) : Game :=
  mkGame (gameState g) (finalStats g) (gameOverQuote g) (currentCombo g)
    (hudStats g) (scoreRef g) (livesRef g) (lastTimeRef g) (spawnTimerRef g)
    v (particlesRef g) (floatingTextsRef g) (trailRef g) (lastHandPosRef g)
    (lastSliceSoundTime g) (shakeIntensityRef g) (statsRef g)
    (comboTimerRef g) (randomCalls g) (dateCalls g) (perfCalls g)
    (audioLog g).

Definition set_particlesRef (v : list Particle) (g : Game) : Game :=
  mkGame (gameState g) (finalStats g) (gameOverQuote g) (currentCombo g)
    (hudStats g) (scoreRef g) (livesRef g) (lastTimeRef g) (spawnTimerRef g)
    (entitiesRef g) v (floatingTextsRef g) (trailRef g) (lastHandPosRef g)
    (lastSliceSoundTime g) (shakeIntensityRef g) (statsRef g)
    (comboTimerRef g) (randomCalls g) (dateCalls g) (perfCalls g)
    (audioLog g).

Definition set_floatingTextsRef (v : list FloatingText) (g : Game) : Game :=
  mkGame (gameState g) (finalStats g) (gameOverQuote g) (currentCombo g)
    (hudStats g) (scoreRef g) (livesRef g) (lastTimeRef g) (spawnTimerRef g)
    (entitiesRef g) (particlesRef g) v (trailRef g) (lastHandPosRef g)
    (lastSliceSoundTime g) (shakeIntensityRef g) (statsRef g)
    (comboTimerRef g) (randomCalls g) (dateCalls g) (perfCalls g)
    (audioLog g).

Definition set_trailRef (v : list TrailPoint) (g : Game) : Game :=
  mkGame (gameState g) (finalStats g) (gameOverQuote g) (currentCombo g)
    (hudStats g) (scoreRef g) (livesRef g) (lastTimeRef g) (spawnTimerRef g)
    (entitiesRef g) (particlesRef g) (floatingTextsRef g) v
    (lastHandPosRef g) (lastSliceSoundTime g) (shakeIntensityRef g)
    (statsRef g) (comboTimerRef g) (randomCalls g) (dateCalls g)
    (perfCalls g) (audioLog g).

Definition set_lastHandPosRef (v : option Point) (g : Game) : Game :=
  mkGame (gameState g) (finalStats g) (gameOverQuote g) (currentCombo g)
    (hudStats g) (scoreRef g) (livesRef g) (lastTimeRef g) (spawnTimerRef g)
    (entitiesRef g) (particlesRef g) (floatingTextsRef g) (trailRef g) v
    (lastSliceSoundTime g) (shakeIntensityRef g) (statsRef g)
    (comboTimerRef g) (randomCalls g) (dateCalls g) (perfCalls g)
    (audioLog g).

Definition set_lastSliceSoundTime (v : R) (g : Game) : Game :=
  mkGame (gameState g) (finalStats g) (gameOverQuote g) (currentCombo g)
    (hudStats g) (scoreRef g) (livesRef g) (lastTimeRef g) (spawnTimerRef g)
    (entitiesRef g) (particlesRef g) (floatingTextsRef g) (trailRef g)
    (lastHandPosRef g) v (shakeIntensityRef g) (statsRef g)
    (comboTimerRef g) (randomCalls g) (dateCalls g) (perfCalls g)
    (audioLog g).

Definition set_shakeIntensityRef (v : R) (g : Game) : Game :=
  mkGame (gameState g) (finalStats g) (gameOverQuote g) (currentCombo g)
    (hudStats g) (scoreRef g) (livesRef g) (lastTimeRef g) (spawnTimerRef g)
    (entitiesRef g) (particlesRef g) (floatingTextsRef g) (trailRef g)
    (lastHandPosRef g) (lastSliceSoundTime g) v (statsRef g)
    (comboTimerRef g) (randomCalls g) (dateCalls g) (perfCalls g)
    (audioLog g).

Definition set_statsRef (v : GameStats) (g : Game) : Game :=
  mkGame (gameState g) (finalStats g) (gameOverQuote g) (currentCombo g)
    (hudStats g) (scoreRef g) (livesRef g) (lastTimeRef g) (spawnTimerRef g)
    (entitiesRef g) (particlesRef g) (floatingTextsRef g) (trailRef g)
    (lastHandPosRef g) (lastSliceSoundTime g) (shakeIntensityRef g) v
    (comboTimerRef g) (randomCalls g) (dateCalls g) (perfCalls g)
    (audioLog g).

Definition set_comboTimerRef (v : Z) (g : Game) : Game :=
  mkGame (gameState g) (finalStats g) (gameOverQuote g) (currentCombo g)
    (hudStats g) (scoreRef g) (livesRef g) (lastTimeRef g) (spawnTimerRef g)
    (entitiesRef g) (particlesRef g) (floatingTextsRef g) (trailRef g)
    (lastHandPosRef g) (lastSliceSoundTime g) (shakeIntensityRef g)
    (statsRef g) v (randomCalls g) (dateCalls g) (perfCalls g) (audioLog g).

Definition set_randomCalls (v : nat) (g : Game) : Game :=
  mkGame (gameState g) (finalStats g) (gameOverQuote g) (currentCombo g)
    (hudStats g) (scoreRef g) (livesRef g) (lastTimeRef g) (spawnTimerRef g)
    (entitiesRef g) (particlesRef g) (floatingTextsRef g) (trailRef g)
    (lastHandPosRef g) (lastSliceSoundTime g) (shakeIntensityRef g)
    (statsRef g) (comboTimerRef g) v (dateCalls g) (perfCalls g)
    (audioLog g).

Definition set_dateCalls (v : nat) (g : Game) : Game :=
  mkGame (gameState g) (finalStats g) (gameOverQuote g) (currentCombo g)
    (hudStats g) (scoreRef g) (livesRef g) (lastTimeRef g) (spawnTimerRef g)
    (entitiesRef g) (particlesRef g) (floatingTextsRef g) (trailRef g)
    (lastHandPosRef g) (lastSliceSoundTime g) (shakeIntensityRef g)
    (statsRef g) (comboTimerRef g) (randomCalls g) v (perfCalls g)
    (audioLog g).

Definition set_perfCalls (v : nat) (g : Game) : Game :=
  mkGame (gameState g) (finalStats g) (gameOverQuote g) (currentCombo g)
    (hudStats g) (scoreRef g) (livesRef g) (lastTimeRef g) (spawnTimerRef g)
    (entitiesRef g) (particlesRef g) (floatingTextsRef g) (trailRef g)
    (lastHandPosRef g) (lastSliceSoundTime g) (shakeIntensityRef g)
    (statsRef g) (comboTimerRef g) (randomCalls g) (dateCalls g) v
    (audioLog g).

Definition set_audioLog (v : list AudioEvent) (g : Game) : Game :=
  mkGame (gameState g) (finalStats g) (gameOverQuote g) (currentCombo g)
    (hudStats g) (scoreRef g) (livesRef g) (lastTimeRef g) (spawnTimerRef g)
    (entitiesRef g) (particlesRef g) (floatingTextsRef g) (trailRef g)
    (lastHandPosRef g) (lastSliceSoundTime g) (shakeIntensityRef g)
    (statsRef g) (comboTimerRef g) (randomCalls g) (dateCalls g)
    (perfCalls g) v.

Definition set_stats_score (v : Z) (s : GameStats) : GameStats :=
  mkGameStats v (highScore s) (combos s) (fruitsSliced s) (bombsHit s)
    (accuracy s) (maxCombo s).

Definition set_stats_fruitsSliced (v : Z) (s : GameStats) : GameStats :=
  mkGameStats (score s) (highScore s) (combos s) v (bombsHit s)
    (accuracy s) (maxCombo s).

Definition set_stats_bombsHit (v : Z) (s : GameStats) : GameStats :=
  mkGameStats (score s) (highScore s) (combos s) (fruitsSliced s) v
    (accuracy s) (maxCombo s).

Definition set_stats_maxCombo (v : Z) (s : GameStats) : GameStats :=
  mkGameStats (score s) (highScore s) (combos s) (fruitsSliced s)
    (bombsHit s) (accuracy s) v.

Definition audio (ev : AudioEvent) (g : Game) : Game :=
  set_audioLog (audioLog g ++ [ev]) g.

Definition initialStats : GameStats := mkGameStats 0 0 0 0 0 0 0.

(** The cells as [useRef] and [useState] initialise them. *)
Definition initialGame : Game :=
  mkGame LOADING None "" 0 (mkHudStats 0 0 0) 0 1 0 0 [] [] [] [] None 0 0
    initialStats 0 0 0 0 [].

(** ** components/GameCanvas.tsx: the logic helpers *)

Section GameCanvas.

Variable env : Env.

(** The value of the [n]-th call of [Math.random]. *)
Definition rand (n : nat) : R := mathRandom env n.

(** The entity [spawnEntity] pushes, and the number of [Math.random]
    calls made once it is built; [n] is the number made before. *)
Definition newEntity (width height : R) (difficulty : DifficultyConfig)
    (n : nat) : Entity * nat :=
  let isBomb := Rltb (rand n) (bombChance difficulty) in
  let n := S n in
  let '(type, n) :=
    if isBomb then (BOMB_TYPE, n)
    else (nth (Z.to_nat (Math.floor (rand n * INR (List.length FRUIT_TYPES))))
              FRUIT_TYPES APPLE, S n) in
  let x := rand n * (width - 200) + 100 in
  let n := S n in
  let y := height + 50 in
  (* Scale physics relative to screen height (baseline 1080p) *)
  let scaleFactor := height / 1080 in
  let targetX := width / 2 + (rand n * 300 - 150) in
  let n := S n in
  let flightTime := 200 + rand n * 60 in
  let n := S n in
  let vx := ((targetX - x) / flightTime) * (1 + rand n * 0.2) in
  let n := S n in
  let vy :=
    - (rand n * (maxSpeed difficulty - minSpeed difficulty)
       + minSpeed difficulty) * scaleFactor in
  let n := S n in
  let id := substring 2 9 (numberToString36 env (rand n)) in
  let n := S n in
  let rotationSpeed := (rand n - 0.5) * 0.15 in
  let n := S n in
  (mkEntity id type x y vx vy 0 rotationSpeed
     (FRUIT_RADIUS * scaleFactor) false 1 1 0 None None None,
   n).

Definition spawnEntity (width height : R) (difficulty : DifficultyConfig)
    (g : Game) : Game :=
  let '(e, n) := newEntity width height difficulty (randomCalls g) in
  set_randomCalls n (set_entitiesRef (entitiesRef g ++ [e]) g).

Definition spawnFloatingText (x y : R) (text color : string) (g : Game)
    : Game :=
  let n := randomCalls g in
  let id := numberToString env (rand n) in
  let vx := (rand (S n) - 0.5) * 2 in
  let vy := -3 - rand (S (S n)) * 2 in
  set_randomCalls (S (S (S n)))
    (set_floatingTextsRef
       (floatingTextsRef g ++ [mkFloatingText id text x y vx vy 1 color 1])
       g).

(** One turn of the loop of [createExplosion]: the particle it pushes and
    the number of [Math.random] calls made once it is built. *)
Definition explosionParticle (x y : R) (color : string) (isBomb : bool)
    (directionAngle forceMagnitude : option R) (n : nat) : Particle * nat :=
  (* Directional bias if slice info is provided *)
  let angle :=
    match isBomb, directionAngle with
    | false, Some d => d + (rand n - 0.5) * 0.8
    | _, _ => rand n * PI * 2
    end in
  let n := S n in
  (* Base speed + force influence *)
  let baseSpeed := if isBomb then 30 else 15 in
  let extraSpeed :=
    match forceMagnitude with
    | Some f => if Reqb f 0 then 0 else Math.min f 40 * 0.4
    | None => 0
    end in
  let speed := rand n * (baseSpeed + extraSpeed) in
  let n := S n in
  let '(isStuck, n) :=
    if isBomb then (false, n) else (Rltb (rand n) 0.2, S n) in
  let id := numberToString env (rand n) in
  let n := S n in
  let '(decay, n) :=
    if isStuck then (0.005, n) else (0.02 + rand n * 0.03, S n) in
  let size := rand n * (if isBomb then 10 else 8) + 3 in
  let n := S n in
  let rotation := rand n * PI in
  let n := S n in
  let rotationSpeed := (rand n - 0.5) * 0.2 in
  let n := S n in
  (mkParticle id (if isBomb then SPARK else JUICE) x y
     (if isStuck then 0 else cos angle * speed)
     (if isStuck then 0 else sin angle * speed)
     (if isBomb then "#ffaa00" else color)
     (if isStuck then 2 else 1)
     decay size
     (if isStuck then 0.05 else if isBomb then 0.2 else 0.5)
     rotation rotationSpeed isStuck 1,
   n).

Fixpoint explosionLoop (x y : R) (color : string) (isBomb : bool)
    (directionAngle forceMagnitude : option R)
    (count : nat) (ps : list Particle) (n : nat) : list Particle * nat :=
  match count with
  | O => (ps, n)
  | S count' =>
      let '(p, n') :=
        explosionParticle x y color isBomb directionAngle forceMagnitude n in
      explosionLoop x y color isBomb directionAngle forceMagnitude
        count' (ps ++ [p]) n'
  end.

Definition coreParticle (x y : R) (n : nat) : Particle :=
  mkParticle ("core-" ++ numberToString env (rand n))%string CORE x y 0 0
    "#ffffff" 1 0.15 80 0 0 0 false 1.

Definition createExplosion (x y : R) (color : string) (isBomb : bool)
    (directionAngle forceMagnitude : option R) (g : Game) : Game :=
  let particleCount := if isBomb then 50%nat else 25%nat in
  let '(ps, n) :=
    explosionLoop x y color isBomb directionAngle forceMagnitude
      particleCount (particlesRef g) (randomCalls g) in
  (* Add core flash particle *)
  set_randomCalls (S n) (set_particlesRef (ps ++ [coreParticle x y n]) g).

(** *** checkCollisions *)

(** The local variables of one call of [checkCollisions] that the loop body
    writes, next to the cells.  [divisors] is not in the source: it records
    every divisor of the projection division [.../ l2] the body executes,
    in order. *)
Record Pass := mkPass {
  game : Game;
  entitiesToRemove : list string;
  entitiesToAdd : list Entity;
  scoreChanged : bool;
  divisors : list R
}.

Definition set_game (v : Game) (a : Pass) : Pass :=
  mkPass v (entitiesToRemove a) (entitiesToAdd a) (scoreChanged a)
    (divisors a).

Definition includes (ids : list string) (i : string) : bool :=
  existsb (String.eqb i) ids.

(** The two most recent trail points, when the trail has two. *)
Definition lastTwo (trail : list TrailPoint)
    : option (TrailPoint * TrailPoint) :=
  match rev trail with
  | p2 :: p1 :: _ => Some (p1, p2)
  | _ => None
  end.

(** [createFragment(side)], with the variables it closes over. *)
Definition createFragment (entity : Entity) (dx dy dist : R)
    (sliceAngle offsetFactor : R) (side : Z) : Entity :=
  let sepVelocity := 1.5 in
  let forwardImpulse := 0.2 in
  (* Calculate perpendicular vector for separation *)
  let perpAngle := sliceAngle + PI / 2 in
  let vxSep := cos perpAngle * sepVelocity * IZR side in
  let vySep := sin perpAngle * sepVelocity * IZR side in
  let vxImpulse := dx * forwardImpulse in
  let vyImpulse := dy * forwardImpulse in
  let spin := (offsetFactor * dist * 0.002) + (IZR side * 0.05) in
  mkEntity
    (e_id entity ++ (if (side =? 1)%Z then "-A" else "-B"))%string
    (e_type entity) (e_x entity) (e_y entity)
    (e_vx entity + vxImpulse + vxSep)
    (e_vy entity + vyImpulse + vySep)
    (e_rotation entity)
    (e_rotationSpeed entity + spin)
    (e_radius entity)
    true
    (e_scale entity) (e_opacity entity)
    1
    (Some true)
    (Some (sliceAngle - e_rotation entity))
    (Some side).

(** The bomb branch of the loop body. *)
Definition bombHit (entity : Entity) (g : Game) : Entity * Game :=
  let g := audio PlayBomb g in
  let g := createExplosion (e_x entity) (e_y entity) "#fff" true None None g in
  let g := set_shakeIntensityRef 45 g in
  let g := set_livesRef 0%Z g in
  let g :=
    set_statsRef
      (set_stats_bombsHit (bombsHit (statsRef g) + 1)%Z (statsRef g)) g in
  (mkEntity (e_id entity) (e_type entity) (e_x entity) (e_y entity)
     (e_vx entity) (e_vy entity) (e_rotation entity)
     (e_rotationSpeed entity) (e_radius entity)
     true
     (e_scale entity) (e_opacity entity)
     1
     (e_isFragment entity) (e_sliceAngleRelative entity)
     (e_sliceSide entity),
   g).

(** The updater passed to [setCurrentCombo] when the chain continues. *)
Definition comboContinues (entity : Entity) (g : Game) : Game :=
  let newCombo := (currentCombo g + 1)%Z in
  let g :=
    set_statsRef
      (set_stats_maxCombo (Z.max (maxCombo (statsRef g)) newCombo)
         (statsRef g)) g in
  let g :=
    if (1 <? newCombo)%Z then
      let g := audio (PlayCombo newCombo) g in
      let bonus := (newCombo * 5)%Z in
      let g := set_scoreRef (scoreRef g + bonus)%Z g in
      let g :=
        set_statsRef
          (set_stats_score (score (statsRef g) + bonus)%Z (statsRef g)) g in
      let g :=
        set_shakeIntensityRef (Math.min (IZR (newCombo * 3)) 15) g in
      spawnFloatingText (e_x entity) (e_y entity - 100)
        (string_of_Z newCombo ++ "x COMBO!")%string "#ffff00" g
    else g in
  set_currentCombo newCombo g.

(** The "Combo System" block of the fruit branch. *)
Definition comboSystem (entity : Entity) (g : Game) : Game :=
  let now := dateNow env (dateCalls g) in
  let g := set_dateCalls (S (dateCalls g)) g in
  let g :=
    if (now - comboTimerRef g <? 400)%Z then comboContinues entity g
    else set_currentCombo 1%Z g in
  set_comboTimerRef now g.

(** The fruit branch of the loop body. *)
Definition fruitHit (p1 : TrailPoint) (dx dy dist : R) (entity : Entity)
    (a : Pass) : Pass :=
  let g := audio PlaySplat (game a) in
  let color := FRUIT_COLORS (e_type entity) in
  let sliceAngle := Math.atan2 dy dx in
  let v2x := e_x entity - tp_x p1 in
  let v2y := e_y entity - tp_y p1 in
  let crossZ := dx * v2y - dy * v2x in
  let offsetFactor :=
    Math.max (-1) (Math.min 1 (crossZ / (dist * e_radius entity))) in
  let g :=
    createExplosion (e_x entity) (e_y entity) color false
      (Some sliceAngle) (Some dist) g in
  let g := set_scoreRef (scoreRef g + 10)%Z g in
  let g :=
    set_statsRef
      (set_stats_score (score (statsRef g) + 10)%Z (statsRef g)) g in
  let g :=
    set_statsRef
      (set_stats_fruitsSliced (fruitsSliced (statsRef g) + 1)%Z
         (statsRef g)) g in
  let g := spawnFloatingText (e_x entity) (e_y entity - 50) "+10" "#fff" g in
  let frag := createFragment entity dx dy dist sliceAngle offsetFactor in
  let g := comboSystem entity g in
  mkPass g
    (entitiesToRemove a ++ [e_id entity])
    (entitiesToAdd a ++ [frag 1%Z; frag (-1)%Z])
    true
    (divisors a).

(** The distance the loop body compares with the radius. *)
Definition distToSegment (p1 : TrailPoint) (dx dy l2 : R) (entity : Entity)
    : R :=
  let t := ((e_x entity - tp_x p1) * dx + (e_y entity - tp_y p1) * dy) / l2 in
  let t := Math.max 0 (Math.min 1 t) in
  let projX := tp_x p1 + t * dx in
  let projY := tp_y p1 + t * dy in
  Math.hypot (e_x entity - projX) (e_y entity - projY).

(** The callback of [entitiesRef.current.forEach]: the entity as the
    callback leaves it, and the variables it has written. *)
Definition entityBody (p1 : TrailPoint) (dx dy dist : R) (entity : Entity)
    (a : Pass) : Entity * Pass :=
  if e_isSliced entity then (entity, a)
  else
    let l2 := dist * dist in
    if Reqb l2 0 then (entity, a)
    else
      let a :=
        mkPass (game a) (entitiesToRemove a) (entitiesToAdd a)
          (scoreChanged a) (divisors a ++ [l2]) in
      if Rltb (distToSegment p1 dx dy l2 entity) (e_radius entity * 1) then
        if FruitType_eqb (e_type entity) BOMB_TYPE then
          let '(entity', g) := bombHit entity (game a) in
          (entity', set_game g a)
        else
          (entity, fruitHit p1 dx dy dist entity a)
      else (entity, a).

Fixpoint forEachEntity (body : Entity -> Pass -> Entity * Pass)
    (es : list Entity) (a : Pass) : list Entity * Pass :=
  match es with
  | [] => ([], a)
  | e :: rest =>
      let '(e', a') := body e a in
      let '(rest', a'') := forEachEntity body rest a' in
      (e' :: rest', a'')
  end.

(** The scan of [checkCollisions]: [None] when one of the two early
    returns is taken, otherwise the entities and variables after the loop. *)
Definition collisionScan (g : Game) : option (list Entity * Pass) :=
  match lastTwo (trailRef g) with
  | None => None
  | Some (p1, p2) =>
      let dx := tp_x p2 - tp_x p1 in
      let dy := tp_y p2 - tp_y p1 in
      let dist := Math.hypot dx dy in
      (* Don't slice if moving too slow *)
      if Rltb dist 5 then None
      else
        Some (forEachEntity (entityBody p1 dx dy dist) (entitiesRef g)
                (mkPass g [] [] false []))
  end.

(** "Apply batch updates" and the HUD refresh. *)
Definition applyBatch (es : list Entity) (a : Pass) : Game :=
  let g := game a in
  let g :=
    match entitiesToRemove a with
    | [] => set_entitiesRef es g
    | _ :: _ =>
        set_entitiesRef
          (filter (fun e => negb (includes (entitiesToRemove a) (e_id e))) es
           ++ entitiesToAdd a) g
    end in
  if scoreChanged a then
    set_hudStats
      (mkHudStats (scoreRef g) (fruitsSliced (statsRef g))
         (maxCombo (statsRef g))) g
  else g.

Definition checkCollisions (width height dt : R) (g : Game) : Game :=
  match collisionScan g with
  | None => g
  | Some (es, a) => applyBatch es a
  end.

(** *** update *)

Definition GamePhase_eqb (a b : GamePhase) : bool :=
  match a, b with
  | LOADING, LOADING | MENU, MENU | PLAYING, PLAYING
  | GAMEOVER, GAMEOVER => true
  | _, _ => false
  end.

Definition endGame (g : Game) : Game :=
  let g := set_gameState GAMEOVER g in
  let g := set_finalStats (Some (statsRef g)) g in
  let quotes :=
    if (50 <? score (statsRef g))%Z then WINNING_QUOTES else LOSING_QUOTES in
  let randomQuote :=
    nth (Z.to_nat
           (Math.floor (rand (randomCalls g) * INR (List.length quotes))))
        quotes "" in
  set_randomCalls (S (randomCalls g)) (set_gameOverQuote randomQuote g).

Definition isTrue (b : option bool) : bool :=
  match b with
  | Some true => true
  | _ => false
  end.

(** The callback of the entity loop of [update]. *)
Definition stepEntity (difficulty : DifficultyConfig) (timeScale : R)
    (e : Entity) : Entity :=
  let x := e_x e + e_vx e * timeScale in
  let y := e_y e + e_vy e * timeScale in
  let vy := e_vy e + gravity difficulty * timeScale in
  let rotation := e_rotation e + e_rotationSpeed e * timeScale in
  let opacity :=
    if e_isSliced e then
      (* Fragments fade out faster *)
      e_opacity e
      - (if isTrue (e_isFragment e) then 0.03 else 0.02) * timeScale
    else e_opacity e in
  let scale :=
    if e_isSliced e && negb (isTrue (e_isFragment e))
    then e_scale e + 0.01 * timeScale
    else e_scale e in
  let flash :=
    if Rltb 0 (e_flash e) then e_flash e - 0.1 * timeScale else e_flash e in
  mkEntity (e_id e) (e_type e) x y (e_vx e) vy rotation (e_rotationSpeed e)
    (e_radius e) (e_isSliced e) scale opacity flash (e_isFragment e)
    (e_sliceAngleRelative e) (e_sliceSide e).

(** The callback of the particle loop of [update]; [nd] counts the calls
    of [Date.now] (a stuck particle reads the clock for its pulse). *)
Definition stepParticle (timeScale : R) (p : Particle) (nd : nat)
    : Particle * nat :=
  if p_stuck p then
    (* Lens particles drift down slowly *)
    (mkParticle (p_id p) (p_type p) (p_x p)
       (p_y p + p_gravity p * timeScale)
       (p_vx p) (p_vy p) (p_color p)
       (p_life p - p_decay p * timeScale)
       (p_decay p) (p_size p) (p_gravity p) (p_rotation p)
       (p_rotationSpeed p) (p_stuck p)
       (1 + sin (IZR (dateNow env nd) / 100) * 0.1),
     S nd)
  else
    (mkParticle (p_id p) (p_type p)
       (p_x p + p_vx p * timeScale)
       (p_y p + p_vy p * timeScale)
       (p_vx p * 0.95)
       ((p_vy p + p_gravity p * timeScale) * 0.95)
       (p_color p)
       (p_life p - p_decay p * timeScale)
       (p_decay p) (p_size p) (p_gravity p)
       (p_rotation p + p_rotationSpeed p * timeScale)
       (p_rotationSpeed p) (p_stuck p) (p_scale p),
     nd).

Fixpoint stepParticles (timeScale : R) (ps : list Particle) (nd : nat)
    : list Particle * nat :=
  match ps with
  | [] => ([], nd)
  | p :: rest =>
      let '(p', nd') := stepParticle timeScale p nd in
      let '(rest', nd'') := stepParticles timeScale rest nd' in
      (p' :: rest', nd'')
  end.

Definition stepFloatingText (timeScale : R) (ft : FloatingText)
    : FloatingText :=
  mkFloatingText (ft_id ft) (ft_text ft)
    (ft_x ft + ft_vx ft * timeScale)
    (ft_y ft + ft_vy ft * timeScale)
    (ft_vx ft) (ft_vy ft)
    (ft_life ft - 0.02 * timeScale)
    (ft_color ft)
    (ft_scale ft + 0.01 * timeScale).

Definition update (dt width height : R) (g : Game) : Game :=
  let g :=
    if (livesRef g <=? 0)%Z && GamePhase_eqb (gameState g) PLAYING then
      if Rltb (shakeIntensityRef g) 1 then endGame g else g
    else g in
  let g :=
    if Rltb 0 (shakeIntensityRef g) then
      (* Smooth decay dependent on dt *)
      let shake := shakeIntensityRef g * Math.pow 0.9 (dt * 60) in
      set_shakeIntensityRef (if Rltb shake 0.5 then 0 else shake) g
    else g in
  let difficulty :=
    if (250 <? scoreRef g)%Z then HARD_DIFFICULTY else INITIAL_DIFFICULTY in
  let timeScale := dt * 60 in
  let g := set_spawnTimerRef (spawnTimerRef g + dt * 1000) g in
  let g :=
    if Rltb (spawnRate difficulty) (spawnTimerRef g) then
      set_spawnTimerRef 0 (spawnEntity width height difficulty g)
    else g in
  (* Entities *)
  let g :=
    set_entitiesRef
      (filter (fun e => Rltb 0 (e_opacity e) && Rltb (e_y e) (height + 300))
         (map (stepEntity difficulty timeScale) (entitiesRef g))) g in
  (* Particles *)
  let '(ps, nd) := stepParticles timeScale (particlesRef g) (dateCalls g) in
  let g :=
    set_dateCalls nd
      (set_particlesRef (filter (fun p => Rltb 0 (p_life p)) ps) g) in
  (* Floating Text *)
  let g :=
    set_floatingTextsRef
      (filter (fun ft => Rltb 0 (ft_life ft))
         (map (stepFloatingText timeScale) (floatingTextsRef g))) g in
  (* Trail *)
  let now := dateNow env (dateCalls g) in
  set_dateCalls (S (dateCalls g))
    (set_trailRef
       (filter (fun p => (now - tp_timestamp p <? SLICE_LIFETIME)%Z)
          (trailRef g)) g).

(** *** The frame loop *)

(** [draw] only reads the cells; what it leaves behind is the two
    [Math.random] calls of the camera shake. *)
Definition draw (width height : R) (g : Game) : Game :=
  if Rltb 0 (shakeIntensityRef g)
  then set_randomCalls (S (S (randomCalls g))) g
  else g.

(** What the hand tracker has for this frame: nothing to run on, no hand,
    or the index finger tip (normalised) in a video of the given size. *)
Inductive Vision :=
  | NotReady
  | NoHand
  | IndexTip (tipX tipY vWidth vHeight : R).

Definition detectHand (vision : Vision) (width height : R) (g : Game)
    : Game :=
  match vision with
  | NotReady => g
  | NoHand =>
      let g := set_perfCalls (S (perfCalls g)) g in
      match trailRef g with
      | [] => set_lastHandPosRef None g
      | _ :: _ => g
      end
  | IndexTip tipX tipY vWidth vHeight =>
      let now := performanceNow env (perfCalls g) in
      let g := set_perfCalls (S (perfCalls g)) g in
      let scale := Math.max (width / vWidth) (height / vHeight) in
      let scaledW := vWidth * scale in
      let scaledH := vHeight * scale in
      let dx := (width - scaledW) / 2 in
      let rawX := width - (dx + tipX * scaledW) in
      let rawY := (height - scaledH) / 2 + tipY * scaledH in
      let '(newX, newY, g) :=
        match lastHandPosRef g with
        | Some last =>
            let alpha := 0.5 in
            let newX := pt_x last + (rawX - pt_x last) * alpha in
            let newY := pt_y last + (rawY - pt_y last) * alpha in
            let dist := Math.hypot (newX - pt_x last) (newY - pt_y last) in
            if Rltb 10 dist && Rltb 100 (now - lastSliceSoundTime g) then
              (newX, newY, set_lastSliceSoundTime now (audio PlaySlice g))
            else (newX, newY, g)
        | None => (rawX, rawY, g)
        end in
      let g := set_lastHandPosRef (Some (mkPoint newX newY)) g in
      let timestamp := dateNow env (dateCalls g) in
      set_dateCalls (S (dateCalls g))
        (set_trailRef (trailRef g ++ [mkTrailPoint newX newY timestamp]) g)
  end.

Definition startGame (g : Game) : Game :=
  let g := audio AudioInit g in
  let g := audio PlayStart g in
  let g := set_scoreRef 0%Z g in
  let g := set_livesRef 1%Z g in
  let g := set_entitiesRef [] g in
  let g := set_particlesRef [] g in
  let g := set_floatingTextsRef [] g in
  let g := set_trailRef [] g in
  let g := set_lastHandPosRef None g in
  let g := set_statsRef (mkGameStats 0 0 0 0 0 0 0) g in
  let g := set_hudStats (mkHudStats 0 0 0) g in
  let g := set_shakeIntensityRef 0 g in
  let g := set_gameState PLAYING g in
  let g := set_finalStats None g in
  let g := set_gameOverQuote "" g in
  set_perfCalls (S (perfCalls g))
    (set_lastTimeRef (performanceNow env (perfCalls g)) g).

(** One animation frame; [canvas] is the size of the canvas when it and
    its 2D context exist. *)
Definition renderFrame (canvas : option (R * R)) (vision : Vision)
    (g : Game) : Game :=
  let now := performanceNow env (perfCalls g) in
  let g := set_perfCalls (S (perfCalls g)) g in
  (* Calculate True Delta Time in seconds *)
  let dt := Math.min ((now - lastTimeRef g) / 1000) 0.1 in
  let g := set_lastTimeRef now g in
  match canvas with
  | None => g
  | Some (width, height) =>
      let g :=
        match gameState g with
        | PLAYING =>
            let g := detectHand vision width height g in
            let g := checkCollisions width height dt g in
            update dt width height g
        | MENU | GAMEOVER =>
            let g := detectHand vision width height g in
            match particlesRef g, floatingTextsRef g with
            | [], [] => g
            | _, _ => update dt width height g
            end
        | LOADING => g
        end in
      draw width height g
  end.

End GameCanvas.

Arguments explosionLoop : simpl never.
Arguments createExplosion : simpl never.
Arguments comboSystem : simpl never.
Arguments update : simpl never.
Arguments newEntity : simpl never.

(** ** The collision test in the specification's words *)

Definition dot (ax ay bx by' : R) : R := ax * bx + ay * by'.

Definition clamp01 (t : R) : R :=
  if Rlt_dec t 0 then 0 else if Rlt_dec 1 t then 1 else t.

(** Projection parameter of the centre [c] on the line [p1 -> p2]:
    [dot(c - p1, p2 - p1) / |p2 - p1|^2], clamped to [0, 1]. *)
Definition closestParameter (cx cy : R) (p1 p2 : TrailPoint) : R :=
  let dx := tp_x p2 - tp_x p1 in
  let dy := tp_y p2 - tp_y p1 in
  clamp01 (dot (cx - tp_x p1) (cy - tp_y p1) dx dy / (dx * dx + dy * dy)).

(** The point [p1 + s (p2 - p1)] of the segment. *)
Definition segmentPoint (p1 p2 : TrailPoint) (s : R) : R * R :=
  (tp_x p1 + s * (tp_x p2 - tp_x p1), tp_y p1 + s * (tp_y p2 - tp_y p1)).

Definition euclid (ax ay : R) (b : R * R) : R :=
  sqrt ((ax - fst b) * (ax - fst b) + (ay - snd b) * (ay - snd b)).

(** Euclidean distance from the centre to the closest point of the
    segment. *)
Definition segmentDistance (cx cy : R) (p1 p2 : TrailPoint) : R :=
  euclid cx cy (segmentPoint p1 p2 (closestParameter cx cy p1 p2)).

(** ** Observations *)

(** The particles one explosion adds: the burst, then the core flash. *)
Definition burst (env : Env) (x y : R) (color : string) (b : bool)
    (dir f : option R) (n : nat) : list Particle :=
  let r :=
    explosionLoop env x y color b dir f (if b then 50%nat else 25%nat) [] n in
  fst r ++ [coreParticle env x y (snd r)].

(** Hits registered so far: every fruit hit counts in [fruitsSliced], every
    bomb hit in [bombsHit]. *)
Definition hitsRegistered (g : Game) : Z :=
  (fruitsSliced (statsRef g) + bombsHit (statsRef g))%Z.

(** The bonus the combo system adds to the score on a fruit hit in [g]. *)
Definition comboBonus (env : Env) (g : Game) : Z :=
  if (dateNow env (dateCalls g) - comboTimerRef g <? 400)%Z
  then (if (1 <? currentCombo g + 1)%Z then (currentCombo g + 1) * 5 else 0)%Z
  else 0%Z.

(** The loop body takes the hit branch on [e]. *)
Definition isHit (p1 : TrailPoint) (dx dy dist : R) (e : Entity) : bool :=
  negb (e_isSliced e) && negb (Reqb (dist * dist) 0)
  && Rltb (distToSegment p1 dx dy (dist * dist) e) (e_radius e * 1).

Definition isBomb (e : Entity) : bool := FruitType_eqb (e_type e) BOMB_TYPE.

(** The loop body takes the fruit branch on [e]. *)
Definition isFruitHit (p1 : TrailPoint) (dx dy dist : R) (e : Entity)
    : bool :=
  isHit p1 dx dy dist e && negb (isBomb e).

(** A hit bomb as the loop leaves it in the array. *)
Definition markSliced (e : Entity) : Entity :=
  mkEntity (e_id e) (e_type e) (e_x e) (e_y e) (e_vx e) (e_vy e)
    (e_rotation e) (e_rotationSpeed e) (e_radius e) true (e_scale e)
    (e_opacity e) 1 (e_isFragment e) (e_sliceAngleRelative e)
    (e_sliceSide e).

(** The two halves [checkCollisions] makes of a hit fruit. *)
Definition fragmentsOf (p1 : TrailPoint) (dx dy dist : R) (e : Entity)
    : list Entity :=
  let sliceAngle := Math.atan2 dy dx in
  let crossZ := dx * (e_y e - tp_y p1) - dy * (e_x e - tp_x p1) in
  let offsetFactor :=
    Math.max (-1) (Math.min 1 (crossZ / (dist * e_radius e))) in
  [createFragment e dx dy dist sliceAngle offsetFactor 1%Z;
   createFragment e dx dy dist sliceAngle offsetFactor (-1)%Z].

(** A particle of a bomb burst: a free SPARK at the bomb's centre, thrown
    at an angle drawn from the whole circle. *)
Definition isBombSpark (env : Env) (x y : R) (p : Particle) : Prop :=
  p_type p = SPARK /\ p_stuck p = false /\ p_color p = "#ffaa00"
  /\ p_x p = x /\ p_y p = y /\ p_life p = 1
  /\ exists k : nat,
       let angle := mathRandom env k * PI * 2 in
       let speed := mathRandom env (S k) * (30 + 0) in
       p_vx p = cos angle * speed /\ p_vy p = sin angle * speed.

(** [Math.random] returns a number of [0, 1). *)
Definition fairDice (env : Env) : Prop :=
  forall n, 0 <= mathRandom env n < 1.

(** Every particle of the array has a positive decay rate. *)
Definition decaysPositive (g : Game) : Prop :=
  Forall (fun p => 0 < p_decay p) (particlesRef g).

(** ** Sample inputs *)

(** A world whose dice always show one half and whose clocks stand still. *)
Definition env0 : Env :=
  mkEnv (fun _ => 0.5) (fun _ => 1000000%Z) (fun _ => 1000)
    (fun _ => "0.5") (fun _ => "0.i").


(** A running session after a bomb hit, the shake decayed to 0.9. *)
Definition playingShake09 : Game :=
  set_gameState PLAYING
    (set_shakeIntensityRef 0.9 (set_livesRef 0%Z initialGame)).

(** An unsliced entity of the standard radius, at rest. *)
Definition sampleEntity (id : string) (t : FruitType) (x y : R) : Entity :=
  mkEntity id t x y 0 0 0 0 FRUIT_RADIUS false 1 1 0 None None None.

Definition sampleApple : Entity := sampleEntity "abc123xyz" APPLE 50 0.
Definition sampleBomb : Entity := sampleEntity "bomb00001" BOMB 50 0.

Definition pointA : TrailPoint := mkTrailPoint 0 0 999984.
Definition pointB : TrailPoint := mkTrailPoint 100 0 1000000.
Definition pointSlowA : TrailPoint := mkTrailPoint 49 0 999984.
Definition pointSlowB : TrailPoint := mkTrailPoint 52 0 1000000.

(** A running session: one fruit at (50, 0), swipe (0,0) -> (100,0). *)
Definition fastSwipe : Game :=
  set_gameState PLAYING
    (set_trailRef [pointA; pointB]
       (set_entitiesRef [sampleApple] initialGame)).

(** The same fruit under a swipe (49,0) -> (52,0), too slow to slice. *)
Definition slowSwipe : Game :=
  set_gameState PLAYING
    (set_trailRef [pointSlowA; pointSlowB]
       (set_entitiesRef [sampleApple] initialGame)).

(** A running session whose pointer has been seen once only. *)
Definition firstSample : Game :=
  set_gameState PLAYING
    (set_trailRef [pointA] (set_entitiesRef [sampleApple] initialGame)).

(** A running session: one bomb at (50, 0), swipe (0,0) -> (100,0). *)
Definition bombSwipe : Game :=
  set_gameState PLAYING
    (set_trailRef [pointA; pointB]
       (set_entitiesRef [sampleBomb] initialGame)).


(** The variables of [checkCollisions] when the loop starts. *)
Definition startPass (g : Game) : Pass := mkPass g [] [] false [].

(** A lens droplet left on the screen by an earlier slice. *)
Definition droplet : Particle :=
  mkParticle "0.5" JUICE 400 300 0 0 "#ff4d4d" 1.5 0.005 7 0.05 0 0 true 1.

(** A finished session, 16 ms after its last frame: nothing is falling,
    one droplet is still fading, and the spawn timer stands at 1399 ms. *)
Definition gameOverWithDroplet : Game :=
  set_gameState GAMEOVER
    (set_lastTimeRef 984
       (set_spawnTimerRef 1399
          (set_particlesRef [droplet] (set_livesRef 0%Z initialGame)))).

(** The entities [update] keeps. *)
Definition onStage (height : R) (e : Entity) : bool :=
  Rltb 0 (e_opacity e) && Rltb (e_y e) (height + 300).

(** A running session at the moment a bomb has been hit. *)
Definition afterBomb : Game :=
  set_gameState PLAYING
    (set_shakeIntensityRef 45 (set_livesRef 0%Z initialGame)).

(** [n] frames of 1/60 s on a 1920 x 1080 canvas. *)
Definition frames (n : nat) (g : Game) : Game :=
  Nat.iter n (update env0 (1 / 60) 1920 1080) g.

(** ** More of the frame: what [draw] computes for a fragment *)

(** The clip path [draw] sets for a fragment: the radius, start angle and
    end angle of the arc, in the entity's own (rotated) frame; [None] for
    an entity that is drawn whole. *)
Definition clipArc (entity : Entity) : option (R * R * R) :=
  match isTrue (e_isFragment entity), e_sliceAngleRelative entity,
        e_sliceSide entity with
  | true, Some sliceAngleRelative, Some sliceSide =>
      let startAngle :=
        sliceAngleRelative + (if (sliceSide =? 1)%Z then 0 else PI) in
      Some (e_radius entity + 5, startAngle, startAngle + PI)
  | _, _, _ => None
  end.

(** [n] physics steps of one entity. *)
Definition stepsEntity (d : DifficultyConfig) (timeScale : R) (n : nat)
    (e : Entity) : Entity :=
  Nat.iter n (stepEntity d timeScale) e.

(** One half of the sample fruit, as the swipe (0,0) -> (100,0) makes it. *)
Definition sampleFragment : Entity :=
  createFragment sampleApple 100 0 100 0 0 1%Z.

(** A particle of a fruit burst at (x, y) along the angle [a] with force
    [f]: either a lens droplet stuck to the screen, or a free drop thrown
    within 0.4 rad of [a] at less than [15 + 0.4 * min(f, 40)] per tick. *)
Definition isJuiceDrop (color : string) (x y a f : R) (p : Particle) : Prop :=
  p_type p = JUICE /\ p_color p = color /\ p_x p = x /\ p_y p = y
  /\ p_scale p = 1 /\ 3 <= p_size p < 11
  /\ ((p_stuck p = true /\ p_vx p = 0 /\ p_vy p = 0 /\ p_life p = 2
       /\ p_decay p = 0.005 /\ p_gravity p = 0.05)
      \/ (p_stuck p = false /\ p_life p = 1 /\ p_gravity p = 0.5
          /\ 0.02 <= p_decay p < 0.05
          /\ exists angle speed,
               a - 0.4 <= angle < a + 0.4
               /\ 0 <= speed < 15 + 0.4 * Math.min f 40
               /\ p_vx p = cos angle * speed
               /\ p_vy p = sin angle * speed)).

(** Score and statistics agree. *)
Definition scoreInSync (g : Game) : Prop :=
  score (statsRef g) = scoreRef g.

(** What the detector may do to lives, phase, trail and bomb count. *)
Definition detectorStep (g g' : Game) : Prop :=
  gameState g' = gameState g /\ trailRef g' = trailRef g
  /\ (bombsHit (statsRef g) <= bombsHit (statsRef g'))%Z
  /\ (livesRef g' = livesRef g
      \/ (livesRef g' = 0%Z
          /\ (bombsHit (statsRef g) < bombsHit (statsRef g'))%Z)).

(** The score cell has not dropped and the statistics' score has moved by
    the same amount. *)
Definition scoreStep (g g' : Game) : Prop :=
  (scoreRef g <= scoreRef g')%Z
  /\ (score (statsRef g') - score (statsRef g)
      = scoreRef g' - scoreRef g)%Z.

(** One particle through successive ticks; [nds] are the clock indices the
    ticks hand to it. *)
Definition stepsParticle (env : Env) (timeScale : R) (nds : list nat)
    (p : Particle) : Particle :=
  fold_left (fun q nd => fst (stepParticle env timeScale q nd)) nds p.

(** Decide the comparisons of a goal over concrete numbers. *)
Ltac rdec :=
  repeat match goal with
  | |- context [Rlt_dec ?a ?b] =>
      destruct (Rlt_dec a b); try (exfalso; lra)
  | |- context [Rle_dec ?a ?b] =>
      destruct (Rle_dec a b); try (exfalso; lra)
  | |- context [Req_dec_T ?a ?b] =>
      destruct (Req_dec_T a b); try (exfalso; lra)
  end.

(** * Properties *)

(** ** Real-number helpers *)

Lemma Rltb_true (a b : R) : Rltb a b = true <-> a < b.
Proof.
  unfold Rltb. destruct (Rlt_dec a b); split; intros; try easy.
Qed.

Lemma Rltb_false (a b : R) : Rltb a b = false <-> b <= a.
Proof.
  unfold Rltb. destruct (Rlt_dec a b); split; intros; try easy; lra.
Qed.

Lemma Reqb_true (a b : R) : Reqb a b = true <-> a = b.
Proof.
  unfold Reqb. destruct (Req_dec_T a b); split; intros; easy.
Qed.

Lemma Reqb_false (a b : R) : Reqb a b = false <-> a <> b.
Proof.
  unfold Reqb. destruct (Req_dec_T a b); split; intros; easy.
Qed.

Lemma hypot_nonneg (a b : R) : 0 <= Math.hypot a b.
Proof. apply sqrt_pos. Qed.

Lemma hypot_sqr (a b : R) : Math.hypot a b * Math.hypot a b = a * a + b * b.
Proof. unfold Math.hypot. apply sqrt_sqrt. nra. Qed.

Lemma hypot_axis (a : R) : 0 <= a -> Math.hypot a 0 = a.
Proof.
  intros Ha. unfold Math.hypot.
  replace (a * a + 0 * 0) with (a * a) by ring. now apply sqrt_square.
Qed.

Lemma hypot_lt (a b c : R) :
  0 < c -> a * a + b * b < c * c -> Math.hypot a b < c.
Proof.
  intros Hc H. unfold Math.hypot.
  rewrite <- (sqrt_square c) by lra. apply sqrt_lt_1; nra.
Qed.

Lemma hypot_ge (a b c : R) :
  0 <= c -> c * c <= a * a + b * b -> c <= Math.hypot a b.
Proof.
  intros Hc H. unfold Math.hypot.
  rewrite <- (sqrt_square c) at 1 by lra. apply sqrt_le_1; nra.
Qed.

(** ** The feedback request *)

(** C9. For every stats snapshot, credential and behaviour of the
    text-generation call, the promise of [generateSenseiFeedback] resolves
    (it never rejects): with the key-missing fallback when the credential is
    absent or empty, with the error fallback when the call throws, and with
    the empty-result fallback when the response has no text. *)
Theorem C9_feedback_never_throws :
  forall (API_KEY : option string) (gen : GeminiService.Collaborator)
         (stats : GameStats),
    (exists s, GeminiService.generateSenseiFeedback API_KEY gen stats
               = GeminiService.Resolved s)
    /\ (GeminiService.initGenAI API_KEY = None ->
        GeminiService.generateSenseiFeedback API_KEY gen stats
        = GeminiService.Resolved GeminiService.MSG_KEY_MISSING)
    /\ (forall ai err,
          GeminiService.initGenAI API_KEY = Some ai ->
          gen ai (GeminiService.mkRequest "gemini-3-flash-preview"
                    (GeminiService.prompt stats))
          = GeminiService.Throws err ->
          GeminiService.generateSenseiFeedback API_KEY gen stats
          = GeminiService.Resolved GeminiService.MSG_ERROR)
    /\ (forall ai r,
          GeminiService.initGenAI API_KEY = Some ai ->
          gen ai (GeminiService.mkRequest "gemini-3-flash-preview"
                    (GeminiService.prompt stats))
          = GeminiService.Returns r ->
          GeminiService.text r = None \/ GeminiService.text r = Some "" ->
          GeminiService.generateSenseiFeedback API_KEY gen stats
          = GeminiService.Resolved GeminiService.MSG_EMPTY).
Proof.
  intros API_KEY gen stats. unfold GeminiService.generateSenseiFeedback.
  repeat split.
  - destruct (GeminiService.initGenAI API_KEY) as [ai|]; [|eauto].
    destruct (gen ai _); eauto.
  - intros ->. reflexivity.
  - intros ai err -> ->. reflexivity.
  - intros ai r -> -> [E|E]; rewrite E; reflexivity.
Qed.

(** ** Shapes of the helpers: which cells they write *)

Lemma newEntity_fresh env w h d n :
  let e := fst (newEntity env w h d n) in
  e_isSliced e = false /\ e_isFragment e = None /\ e_opacity e = 1
  /\ e_y e = h + 50
  /\ e_vy e
     = - (mathRandom env (pred (pred (pred (snd (newEntity env w h d n)))))
          * (maxSpeed d - minSpeed d) + minSpeed d) * (h / 1080).
Proof.
  unfold newEntity.
  destruct (Rltb (rand env n) (bombChance d)); simpl; auto.
Qed.

Lemma spawnEntity_shape env w h d g :
  spawnEntity env w h d g
  = set_randomCalls (snd (newEntity env w h d (randomCalls g)))
      (set_entitiesRef
         (entitiesRef g ++ [fst (newEntity env w h d (randomCalls g))]) g).
Proof.
  unfold spawnEntity. destruct (newEntity env w h d (randomCalls g)).
  reflexivity.
Qed.

Lemma explosionLoop_S env x y c b dir f k ps n :
  explosionLoop env x y c b dir f (S k) ps n
  = explosionLoop env x y c b dir f k
      (ps ++ [fst (explosionParticle env x y c b dir f n)])
      (snd (explosionParticle env x y c b dir f n)).
Proof.
  unfold explosionLoop at 1.
  destruct (explosionParticle env x y c b dir f n). reflexivity.
Qed.

Lemma explosionLoop_app env x y c b dir f count :
  forall ps n,
    fst (explosionLoop env x y c b dir f count ps n)
    = ps ++ fst (explosionLoop env x y c b dir f count [] n)
    /\ snd (explosionLoop env x y c b dir f count ps n)
       = snd (explosionLoop env x y c b dir f count [] n).
Proof.
  induction count as [|k IH]; intros ps n.
  - unfold explosionLoop. simpl. now rewrite app_nil_r.
  - rewrite !explosionLoop_S.
    destruct (explosionParticle env x y c b dir f n) as [p n']. simpl.
    destruct (IH (ps ++ [p]) n') as [E1 E2].
    destruct (IH [p] n') as [E3 E4].
    rewrite E1, E2, E3, E4. now rewrite <- app_assoc.
Qed.

Lemma createExplosion_shape env x y c b dir f g :
  createExplosion env x y c b dir f g
  = set_randomCalls
      (S (snd (explosionLoop env x y c b dir f
                 (if b then 50%nat else 25%nat) [] (randomCalls g))))
      (set_particlesRef
         (particlesRef g ++ burst env x y c b dir f (randomCalls g)) g).
Proof.
  unfold createExplosion, burst.
  pose proof (explosionLoop_app env x y c b dir f
                (if b then 50%nat else 25%nat) (particlesRef g)
                (randomCalls g)) as [E1 E2].
  destruct (explosionLoop env x y c b dir f _ (particlesRef g) _)
    as [ps n] eqn:E.
  simpl in E1, E2. subst ps n. now rewrite <- app_assoc.
Qed.

(** ** The session life-cycle *)



Lemma update_gameState env dt w h g :
  gameState (update env dt w h g)
  = if (livesRef g <=? 0)%Z && GamePhase_eqb (gameState g) PLAYING
    then (if Rltb (shakeIntensityRef g) 1 then GAMEOVER else gameState g)
    else gameState g.
Proof.
  unfold update.
  set (g1 := if (livesRef g <=? 0)%Z && GamePhase_eqb (gameState g) PLAYING
             then _ else g).
  assert (E1 : gameState g1
               = if (livesRef g <=? 0)%Z
                    && GamePhase_eqb (gameState g) PLAYING
                 then (if Rltb (shakeIntensityRef g) 1
                       then GAMEOVER else gameState g)
                 else gameState g).
  { unfold g1. destruct ((livesRef g <=? 0)%Z && _); [|reflexivity].
    destruct (Rltb (shakeIntensityRef g) 1); reflexivity. }
  rewrite <- E1. clearbody g1.
  set (g2 := if Rltb 0 (shakeIntensityRef g1) then _ else g1).
  assert (E2 : gameState g2 = gameState g1).
  { unfold g2. destruct (Rltb 0 (shakeIntensityRef g1)); reflexivity. }
  rewrite <- E2. clearbody g2.
  set (d := if (250 <? scoreRef g2)%Z then _ else _).
  set (g3 := set_spawnTimerRef _ g2).
  assert (E3 : gameState g3 = gameState g2) by reflexivity.
  rewrite <- E3. clearbody g3.
  set (g4 := if Rltb (spawnRate d) (spawnTimerRef g3) then _ else g3).
  assert (E4 : gameState g4 = gameState g3).
  { unfold g4. destruct (Rltb (spawnRate d) (spawnTimerRef g3)); [|easy].
    rewrite spawnEntity_shape.
    reflexivity. }
  rewrite <- E4. clearbody g4.
  simpl.
  destruct (stepParticles env (dt * 60) (particlesRef g4) (dateCalls g4)).
  reflexivity.
Qed.

(** C6 (as the code has it). From PLAYING, one [update] moves the session
    to GAMEOVER exactly when the lives are at most 0 and the screen shake
    is below 1 when the update starts; otherwise the session stays in
    PLAYING. *)
Theorem C6_gameover_iff_dead_and_shake_below_one :
  forall env dt w h g,
    gameState g = PLAYING ->
    (gameState (update env dt w h g) = GAMEOVER
     <-> (livesRef g <= 0)%Z /\ shakeIntensityRef g < 1)
    /\ (~ ((livesRef g <= 0)%Z /\ shakeIntensityRef g < 1) ->
        gameState (update env dt w h g) = PLAYING).
Proof.
  intros env dt w h g HP. rewrite update_gameState, HP. simpl.
  rewrite andb_true_r.
  destruct (Z.leb_spec (livesRef g) 0) as [Hl|Hl];
    destruct (Rltb (shakeIntensityRef g) 1) eqn:Hs;
    try apply Rltb_true in Hs; try apply Rltb_false in Hs;
    (split; [split|]); try easy; try (intros [? ?]; lia || lra);
    try (intros Hn; exfalso; apply Hn; split; assumption).
Qed.

(** The threshold below which [update] snaps the shake to 0 is 0.5: the
    decayed value is kept when it is at least 0.5 and zeroed below. *)
Lemma update_shake_snap env dt w h g :
  0 < shakeIntensityRef g ->
  let decayed := shakeIntensityRef g * Math.pow 0.9 (dt * 60) in
  (decayed < 0.5 -> shakeIntensityRef (update env dt w h g) = 0)
  /\ (0.5 <= decayed -> shakeIntensityRef (update env dt w h g) = decayed).
Proof.
  intros Hpos decayed. unfold update.
  set (g1 := if (livesRef g <=? 0)%Z && GamePhase_eqb (gameState g) PLAYING
             then _ else g).
  assert (E1 : shakeIntensityRef g1 = shakeIntensityRef g).
  { unfold g1. destruct ((livesRef g <=? 0)%Z && _); [|reflexivity].
    destruct (Rltb (shakeIntensityRef g) 1); reflexivity. }
  clearbody g1.
  apply Rltb_true in Hpos. rewrite E1, Hpos.
  fold decayed.
  set (g2 := set_shakeIntensityRef _ g1).
  assert (E2 : shakeIntensityRef g2
               = if Rltb decayed 0.5 then 0 else decayed) by reflexivity.
  clearbody g2.
  set (d := if (250 <? scoreRef g2)%Z then _ else _).
  set (g3 := set_spawnTimerRef _ g2).
  assert (E3 : shakeIntensityRef g3 = shakeIntensityRef g2) by reflexivity.
  clearbody g3.
  set (g4 := if Rltb (spawnRate d) (spawnTimerRef g3) then _ else g3).
  assert (E4 : shakeIntensityRef g4 = shakeIntensityRef g3).
  { unfold g4. destruct (Rltb (spawnRate d) (spawnTimerRef g3)); [|easy].
    rewrite spawnEntity_shape.
    reflexivity. }
  clearbody g4. simpl.
  destruct (stepParticles env (dt * 60) (particlesRef g4) (dateCalls g4)).
  simpl. rewrite E4, E3, E2.
  split; intros H.
  - apply Rltb_true in H. now rewrite H.
  - apply Rltb_false in H. now rewrite H.
Qed.

(** C6 as stated fails: with no lives left and the shake at 0.9, which is
    not below the snap threshold 0.5, the session leaves PLAYING. *)
Lemma C6_counterexample_ends_above_snap_threshold :
  gameState playingShake09 = PLAYING
  /\ livesRef playingShake09 = 0%Z
  /\ 0.5 <= shakeIntensityRef playingShake09
  /\ gameState (update env0 (1 / 60) 1920 1080 playingShake09) = GAMEOVER.
Proof.
  repeat split; try (simpl; lra).
  rewrite update_gameState. simpl.
  assert (H : Rltb 0.9 1 = true) by (apply Rltb_true; lra).
  now rewrite H.
Qed.

(** ** The collision detector *)

Lemma lastTwo_short (trail : list TrailPoint) :
  (List.length trail < 2)%nat -> lastTwo trail = None.
Proof.
  intros H. unfold lastTwo. rewrite <- length_rev in H.
  destruct (rev trail) as [|a [|b l]]; simpl in H; try reflexivity; lia.
Qed.

Lemma lastTwo_app (trail : list TrailPoint) (p1 p2 : TrailPoint) :
  lastTwo (trail ++ [p1; p2]) = Some (p1, p2).
Proof.
  unfold lastTwo. rewrite rev_app_distr. reflexivity.
Qed.

Lemma lastTwo_some trail p1 p2 :
  lastTwo trail = Some (p1, p2) -> exists l, trail = l ++ [p1; p2].
Proof.
  unfold lastTwo. intros H.
  destruct (rev trail) as [|a [|b l]] eqn:E; try discriminate.
  injection H as -> ->. exists (rev l).
  rewrite <- (rev_involutive trail), E. simpl. now rewrite <- app_assoc.
Qed.

(** What the combo block does to the cells, whichever branch it takes. *)
Lemma comboSystem_cells env e g :
  let g' := comboSystem env e g in
  let now := dateNow env (dateCalls g) in
  comboTimerRef g' = now
  /\ currentCombo g'
     = (if (now - comboTimerRef g <? 400)%Z
        then currentCombo g + 1 else 1)%Z
  /\ maxCombo (statsRef g')
     = (if (now - comboTimerRef g <? 400)%Z
        then Z.max (maxCombo (statsRef g)) (currentCombo g + 1)
        else maxCombo (statsRef g))
  /\ score (statsRef g') = (score (statsRef g) + comboBonus env g)%Z
  /\ scoreRef g' = (scoreRef g + comboBonus env g)%Z
  /\ fruitsSliced (statsRef g') = fruitsSliced (statsRef g)
  /\ bombsHit (statsRef g') = bombsHit (statsRef g)
  /\ livesRef g' = livesRef g
  /\ particlesRef g' = particlesRef g
  /\ dateCalls g' = S (dateCalls g).
Proof.
  unfold comboSystem, comboContinues, comboBonus. simpl.
  destruct (dateNow env (dateCalls g) - comboTimerRef g <? 400)%Z; simpl.
  - destruct (1 <? currentCombo g + 1)%Z; simpl;
      repeat split; try reflexivity; lia.
  - repeat split; try reflexivity; lia.
Qed.

(** What a fruit hit does to the score, the statistics and the combo. *)
Lemma fruitHit_cells env p1 dx dy dist e a :
  let g := game a in
  let g' := game (fruitHit env p1 dx dy dist e a) in
  let now := dateNow env (dateCalls g) in
  comboTimerRef g' = now
  /\ currentCombo g'
     = (if (now - comboTimerRef g <? 400)%Z
        then currentCombo g + 1 else 1)%Z
  /\ maxCombo (statsRef g')
     = (if (now - comboTimerRef g <? 400)%Z
        then Z.max (maxCombo (statsRef g)) (currentCombo g + 1)
        else maxCombo (statsRef g))
  /\ score (statsRef g') = (score (statsRef g) + 10 + comboBonus env g)%Z
  /\ scoreRef g' = (scoreRef g + 10 + comboBonus env g)%Z
  /\ fruitsSliced (statsRef g') = (fruitsSliced (statsRef g) + 1)%Z
  /\ bombsHit (statsRef g') = bombsHit (statsRef g)
  /\ livesRef g' = livesRef g
  /\ dateCalls g' = S (dateCalls g).
Proof.
  intros g g' now.
  unfold fruitHit in g'. cbv zeta in g'. cbn [game] in g'. fold g in g'.
  match goal with
  | g' := comboSystem _ _ ?x |- _ => set (g1 := x) in g'
  end.
  assert (Hg : g' = comboSystem env e g1) by reflexivity.
  pose proof (comboSystem_cells env e g1) as H. cbv zeta in H.
  rewrite <- Hg in H.
  assert (Hd : dateCalls g1 = dateCalls g).
  { unfold g1. rewrite createExplosion_shape. reflexivity. }
  assert (Ht : comboTimerRef g1 = comboTimerRef g).
  { unfold g1. rewrite createExplosion_shape. reflexivity. }
  assert (Hc : currentCombo g1 = currentCombo g).
  { unfold g1. rewrite createExplosion_shape. reflexivity. }
  assert (Hs : statsRef g1
               = set_stats_fruitsSliced (fruitsSliced (statsRef g) + 1)%Z
                   (set_stats_score (score (statsRef g) + 10)%Z
                      (statsRef g))).
  { unfold g1. rewrite createExplosion_shape. reflexivity. }
  assert (Hr : scoreRef g1 = (scoreRef g + 10)%Z).
  { unfold g1. rewrite createExplosion_shape. reflexivity. }
  assert (Hl : livesRef g1 = livesRef g).
  { unfold g1. rewrite createExplosion_shape. reflexivity. }
  assert (Hb : comboBonus env g1 = comboBonus env g).
  { unfold comboBonus. now rewrite Hd, Ht, Hc. }
  destruct H as (H1 & H2 & H3 & H4 & H5 & H6 & H7 & H8 & _ & H9).
  clearbody g1 g'.
  rewrite Hd, ?Ht, ?Hc, ?Hb, ?Hs, ?Hr, ?Hl in *. simpl in *.
  fold now in H1, H2, H3.
  repeat split; try assumption; try lia.
Qed.

(** What a bomb hit does. *)
Lemma bombHit_cells env e g :
  let g' := snd (bombHit env e g) in
  fst (bombHit env e g) = markSliced e
  /\ livesRef g' = 0%Z
  /\ bombsHit (statsRef g') = (bombsHit (statsRef g) + 1)%Z
  /\ fruitsSliced (statsRef g') = fruitsSliced (statsRef g)
  /\ score (statsRef g') = score (statsRef g)
  /\ maxCombo (statsRef g') = maxCombo (statsRef g)
  /\ scoreRef g' = scoreRef g
  /\ shakeIntensityRef g' = 45
  /\ comboTimerRef g' = comboTimerRef g
  /\ currentCombo g' = currentCombo g
  /\ dateCalls g' = dateCalls g
  /\ particlesRef g'
     = particlesRef g
       ++ burst env (e_x e) (e_y e) "#fff" true None None (randomCalls g).
Proof.
  unfold bombHit. rewrite createExplosion_shape. simpl.
  repeat split; reflexivity.
Qed.

(** The three ways through the loop body. *)
Lemma entityBody_miss env p1 dx dy dist e a :
  isHit p1 dx dy dist e = false ->
  fst (entityBody env p1 dx dy dist e a) = e
  /\ game (snd (entityBody env p1 dx dy dist e a)) = game a
  /\ entitiesToRemove (snd (entityBody env p1 dx dy dist e a))
     = entitiesToRemove a
  /\ entitiesToAdd (snd (entityBody env p1 dx dy dist e a))
     = entitiesToAdd a
  /\ scoreChanged (snd (entityBody env p1 dx dy dist e a))
     = scoreChanged a.
Proof.
  unfold isHit, entityBody. intros H.
  destruct (e_isSliced e); [repeat split; reflexivity|].
  destruct (Reqb (dist * dist) 0); [repeat split; reflexivity|].
  cbn [negb andb] in H. rewrite H. repeat split; reflexivity.
Qed.

Lemma entityBody_bomb env p1 dx dy dist e a :
  isHit p1 dx dy dist e = true -> isBomb e = true ->
  entityBody env p1 dx dy dist e a
  = (markSliced e,
     mkPass (snd (bombHit env e (game a))) (entitiesToRemove a)
       (entitiesToAdd a) (scoreChanged a)
       (divisors a ++ [dist * dist])).
Proof.
  unfold isHit, isBomb, entityBody. intros H Hb.
  destruct (e_isSliced e); [discriminate H|].
  destruct (Reqb (dist * dist) 0); [discriminate H|].
  cbn [negb andb] in H. rewrite H, Hb. reflexivity.
Qed.

Lemma entityBody_fruit env p1 dx dy dist e a :
  isHit p1 dx dy dist e = true -> isBomb e = false ->
  entityBody env p1 dx dy dist e a
  = (e,
     fruitHit env p1 dx dy dist e
       (mkPass (game a) (entitiesToRemove a) (entitiesToAdd a)
          (scoreChanged a) (divisors a ++ [dist * dist]))).
Proof.
  unfold isHit, isBomb, entityBody. intros H Hb.
  destruct (e_isSliced e); [discriminate H|].
  destruct (Reqb (dist * dist) 0); [discriminate H|].
  cbn [negb andb] in H. rewrite H, Hb. reflexivity.
Qed.

(** Every divisor the loop body logs is the [l2] of the call, and the body
    logs it only after the test [l2 === 0] has failed. *)
Lemma entityBody_divisors env p1 dx dy dist e a (P : R -> Prop) :
  (dist * dist <> 0 -> P (dist * dist)) ->
  Forall P (divisors a) ->
  Forall P (divisors (snd (entityBody env p1 dx dy dist e a))).
Proof.
  intros HP Ha. unfold entityBody.
  destruct (e_isSliced e); [exact Ha|].
  destruct (Reqb (dist * dist) 0) eqn:E; [exact Ha|].
  apply Reqb_false in E.
  assert (Forall P (divisors a ++ [dist * dist])) as Hd.
  { apply Forall_app. split; [exact Ha|]. constructor; auto. }
  destruct (Rltb _ _); [|exact Hd].
  destruct (FruitType_eqb _ _); simpl; [|exact Hd].
  destruct (bombHit env e (game a)). exact Hd.
Qed.

Lemma forEachEntity_divisors env p1 dx dy dist (P : R -> Prop) es :
  (dist * dist <> 0 -> P (dist * dist)) ->
  forall a,
    Forall P (divisors a) ->
    Forall P
      (divisors (snd (forEachEntity (entityBody env p1 dx dy dist) es a))).
Proof.
  intros HP. induction es as [|e es IH]; intros a Ha; simpl; [exact Ha|].
  pose proof (entityBody_divisors env p1 dx dy dist e a P HP Ha) as H1.
  destruct (entityBody env p1 dx dy dist e a) as [e' a'].
  specialize (IH a' H1).
  destruct (forEachEntity _ es a') as [rest a'']. exact IH.
Qed.

(** C10. When the trail has fewer than two points, or its two most recent
    points are less than 5 apart, [checkCollisions] returns the state it was
    given (no scan runs); and in every scan that does run, each divisor of
    the projection division is non-zero (it is at least 25). *)
Theorem C10_gates_and_nonzero_divisor :
  forall env w h dt g,
    ((List.length (trailRef g) < 2)%nat ->
     collisionScan env g = None /\ checkCollisions env w h dt g = g)
    /\ (forall p1 p2,
          lastTwo (trailRef g) = Some (p1, p2) ->
          Math.hypot (tp_x p2 - tp_x p1) (tp_y p2 - tp_y p1) < 5 ->
          collisionScan env g = None /\ checkCollisions env w h dt g = g)
    /\ (forall es a,
          collisionScan env g = Some (es, a) ->
          Forall (fun d => d <> 0 /\ 25 <= d) (divisors a)).
Proof.
  intros env w h dt g. unfold checkCollisions, collisionScan.
  split; [|split].
  - intros H. now rewrite (lastTwo_short _ H).
  - intros p1 p2 -> H. apply Rltb_true in H. now rewrite H.
  - intros es a. destruct (lastTwo (trailRef g)) as [[p1 p2]|]; [|easy].
    set (dx := tp_x p2 - tp_x p1). set (dy := tp_y p2 - tp_y p1).
    destruct (Rltb (Math.hypot dx dy) 5) eqn:E; [easy|].
    apply Rltb_false in E. intros H. injection H as H.
    assert (HP : Math.hypot dx dy * Math.hypot dx dy <> 0 ->
                 Math.hypot dx dy * Math.hypot dx dy <> 0
                 /\ 25 <= Math.hypot dx dy * Math.hypot dx dy)
      by (intros _; split; nra).
    pose proof (forEachEntity_divisors env p1 dx dy (Math.hypot dx dy)
                  (fun d => d <> 0 /\ 25 <= d) (entitiesRef g) HP
                  (mkPass g [] [] false []) (Forall_nil _)) as HF.
    rewrite H in HF. exact HF.
Qed.

(** *** The hit test against the specification's distance *)

Lemma clamp01_max_min (t : R) : Math.max 0 (Math.min 1 t) = clamp01 t.
Proof.
  unfold Math.max, Math.min, clamp01, Rmax, Rmin.
  destruct (Rlt_dec t 0), (Rlt_dec 1 t), (Rle_dec 1 t);
    try lra; destruct (Rle_dec 0 _); lra.
Qed.

Lemma clamp01_range (t : R) : 0 <= clamp01 t <= 1.
Proof.
  unfold clamp01. destruct (Rlt_dec t 0), (Rlt_dec 1 t); lra.
Qed.

(** The distance the code compares with the radius is the distance of the
    specification. *)
Lemma distToSegment_spec (p1 p2 : TrailPoint) (e : Entity) :
  let dx := tp_x p2 - tp_x p1 in
  let dy := tp_y p2 - tp_y p1 in
  distToSegment p1 dx dy (Math.hypot dx dy * Math.hypot dx dy) e
  = segmentDistance (e_x e) (e_y e) p1 p2.
Proof.
  intros dx dy. unfold distToSegment, segmentDistance, closestParameter,
    euclid, segmentPoint, dot. fold dx dy.
  rewrite hypot_sqr, clamp01_max_min. reflexivity.
Qed.

(** The specification's closest point is the closest: no point of the
    segment is nearer to the centre. *)
Lemma segmentDistance_minimal (cx cy : R) (p1 p2 : TrailPoint) (s : R) :
  tp_x p1 <> tp_x p2 \/ tp_y p1 <> tp_y p2 ->
  0 <= s <= 1 ->
  segmentDistance cx cy p1 p2 <= euclid cx cy (segmentPoint p1 p2 s).
Proof.
  intros Hne Hs. unfold segmentDistance, euclid, segmentPoint,
    closestParameter, dot. simpl.
  set (dx := tp_x p2 - tp_x p1). set (dy := tp_y p2 - tp_y p1).
  set (ux := cx - tp_x p1). set (uy := cy - tp_y p1).
  assert (HD : 0 < dx * dx + dy * dy).
  { destruct Hne as [H|H].
    - assert (dx <> 0) by (unfold dx; lra). nra.
    - assert (dy <> 0) by (unfold dy; lra). nra. }
  set (D := dx * dx + dy * dy) in *.
  set (t0 := (ux * dx + uy * dy) / D).
  assert (Hq : ux * dx + uy * dy = t0 * D).
  { unfold t0. field. lra. }
  apply sqrt_le_1_alt.
  replace (cx - (tp_x p1 + clamp01 t0 * dx)) with (ux - clamp01 t0 * dx)
    by (unfold ux; ring).
  replace (cy - (tp_y p1 + clamp01 t0 * dy)) with (uy - clamp01 t0 * dy)
    by (unfold uy; ring).
  replace (cx - (tp_x p1 + s * dx)) with (ux - s * dx) by (unfold ux; ring).
  replace (cy - (tp_y p1 + s * dy)) with (uy - s * dy) by (unfold uy; ring).
  set (t := clamp01 t0).
  assert (Hdiff :
    (ux - s * dx) * (ux - s * dx) + (uy - s * dy) * (uy - s * dy)
    - ((ux - t * dx) * (ux - t * dx) + (uy - t * dy) * (uy - t * dy))
    = D * ((s - t) * (s + t - 2 * t0))).
  { unfold D. transitivity
      ((s * s - t * t) * (dx * dx + dy * dy)
       - 2 * (s - t) * (ux * dx + uy * dy)); [ring|].
    rewrite Hq. unfold D. ring. }
  assert (Hprod : 0 <= (s - t) * (s + t - 2 * t0)).
  { unfold t, clamp01.
    destruct (Rlt_dec t0 0).
    - replace ((s - 0) * (s + 0 - 2 * t0)) with (s * (s - 2 * t0)) by ring.
      apply Rmult_le_pos; lra.
    - destruct (Rlt_dec 1 t0).
      + replace ((s - 1) * (s + 1 - 2 * t0))
          with ((1 - s) * (2 * t0 - 1 - s)) by ring.
        apply Rmult_le_pos; lra.
      + replace ((s - t0) * (s + t0 - 2 * t0))
          with ((s - t0) * (s - t0)) by ring.
        apply Rle_0_sqr. }
  nra.
Qed.

(** *** What one scan does to the buffers and to the hit counters *)

Lemma entityBody_hits env p1 dx dy dist e a :
  hitsRegistered (game (snd (entityBody env p1 dx dy dist e a)))
  = (hitsRegistered (game a)
     + (if isHit p1 dx dy dist e then 1 else 0))%Z.
Proof.
  unfold hitsRegistered.
  destruct (isHit p1 dx dy dist e) eqn:H.
  - destruct (isBomb e) eqn:Hb.
    + rewrite (entityBody_bomb env _ _ _ _ _ _ H Hb). cbn [snd game].
      pose proof (bombHit_cells env e (game a)) as HB. cbv zeta in HB.
      destruct HB as (_ & _ & H1 & H2 & _). rewrite H1, H2. lia.
    + rewrite (entityBody_fruit env _ _ _ _ _ _ H Hb). cbn [snd].
      pose proof (fruitHit_cells env p1 dx dy dist e
                    (mkPass (game a) (entitiesToRemove a) (entitiesToAdd a)
                       (scoreChanged a) (divisors a ++ [dist * dist])))
        as HF.
      cbv zeta in HF. cbn [game] in HF.
      destruct HF as (_ & _ & _ & _ & _ & H1 & H2 & _). rewrite H1, H2. lia.
  - destruct (entityBody_miss env _ _ _ _ _ a H) as (_ & -> & _). lia.
Qed.

Lemma entityBody_buffers env p1 dx dy dist e a :
  let r := entityBody env p1 dx dy dist e a in
  fst r = (if isHit p1 dx dy dist e && isBomb e then markSliced e else e)
  /\ entitiesToRemove (snd r)
     = entitiesToRemove a
       ++ (if isFruitHit p1 dx dy dist e then [e_id e] else [])
  /\ entitiesToAdd (snd r)
     = entitiesToAdd a
       ++ (if isFruitHit p1 dx dy dist e
           then fragmentsOf p1 dx dy dist e else [])
  /\ scoreChanged (snd r)
     = scoreChanged a || isFruitHit p1 dx dy dist e.
Proof.
  intros r. subst r. unfold isFruitHit.
  destruct (isHit p1 dx dy dist e) eqn:H.
  - destruct (isBomb e) eqn:Hb.
    + rewrite (entityBody_bomb env _ _ _ _ _ _ H Hb). simpl.
      rewrite !app_nil_r, orb_false_r. auto.
    + rewrite (entityBody_fruit env _ _ _ _ _ _ H Hb). simpl.
      rewrite orb_true_r. auto.
  - destruct (entityBody_miss env _ _ _ _ _ a H) as (-> & _ & -> & -> & ->).
    simpl. rewrite !app_nil_r, orb_false_r. auto.
Qed.

Lemma forEachEntity_hits env p1 dx dy dist es :
  forall a,
    hitsRegistered
      (game (snd (forEachEntity (entityBody env p1 dx dy dist) es a)))
    = (hitsRegistered (game a)
       + Z.of_nat (List.length (filter (isHit p1 dx dy dist) es)))%Z.
Proof.
  induction es as [|e es IH]; intros a; simpl; [lia|].
  pose proof (entityBody_hits env p1 dx dy dist e a) as H1.
  destruct (entityBody env p1 dx dy dist e a) as [e' a'].
  specialize (IH a').
  destruct (forEachEntity _ es a') as [rest a'']. simpl in *.
  rewrite IH, H1. destruct (isHit p1 dx dy dist e); simpl; lia.
Qed.

Lemma forEachEntity_buffers env p1 dx dy dist es :
  forall a,
    let r := forEachEntity (entityBody env p1 dx dy dist) es a in
    fst r
    = map (fun e => if isHit p1 dx dy dist e && isBomb e
                    then markSliced e else e) es
    /\ entitiesToRemove (snd r)
       = entitiesToRemove a
         ++ map e_id (filter (isFruitHit p1 dx dy dist) es)
    /\ entitiesToAdd (snd r)
       = entitiesToAdd a
         ++ flat_map (fragmentsOf p1 dx dy dist)
              (filter (isFruitHit p1 dx dy dist) es)
    /\ scoreChanged (snd r)
       = scoreChanged a || existsb (isFruitHit p1 dx dy dist) es.
Proof.
  induction es as [|e es IH]; intros a; cbv zeta.
  - simpl. rewrite !app_nil_r, orb_false_r. auto.
  - cbn [forEachEntity].
    pose proof (entityBody_buffers env p1 dx dy dist e a) as H1.
    cbv zeta in H1.
    destruct (entityBody env p1 dx dy dist e a) as [e' a'].
    specialize (IH a'). cbv zeta in IH.
    destruct (forEachEntity _ es a') as [rest a''].
    cbn [fst snd] in *.
    destruct H1 as (E1 & E2 & E3 & E4). destruct IH as (I1 & I2 & I3 & I4).
    rewrite I1, I2, I3, I4, E1, E2, E3, E4.
    cbn [map filter existsb].
    destruct (isFruitHit p1 dx dy dist e); cbn [map flat_map];
      rewrite <- ?app_assoc, ?app_nil_r, ?orb_false_r, ?orb_true_r;
      cbn [app orb]; rewrite ?orb_true_r; auto.
Qed.

Lemma applyBatch_stats es a : statsRef (applyBatch es a) = statsRef (game a).
Proof.
  unfold applyBatch.
  destruct (entitiesToRemove a); destruct (scoreChanged a); reflexivity.
Qed.

(** On a swipe that passes the speed gate, the branch the body takes on an
    unsliced entity is decided by the specification's distance. *)
Lemma isHit_spec (p1 p2 : TrailPoint) (e : Entity) :
  let dx := tp_x p2 - tp_x p1 in
  let dy := tp_y p2 - tp_y p1 in
  5 <= Math.hypot dx dy ->
  isHit p1 dx dy (Math.hypot dx dy) e
  = negb (e_isSliced e)
    && Rltb (segmentDistance (e_x e) (e_y e) p1 p2) (e_radius e).
Proof.
  intros dx dy H5. unfold isHit.
  pose proof (distToSegment_spec p1 p2 e) as HS. cbv zeta in HS.
  fold dx dy in HS. rewrite HS, Rmult_1_r.
  assert (E : Reqb (Math.hypot dx dy * Math.hypot dx dy) 0 = false)
    by (apply Reqb_false; nra).
  rewrite E. cbn [negb]. now rewrite andb_true_r.
Qed.

(** C1 (as the code has it). For a swipe segment p1 -> p2 made of the two
    most recent trail points and at least 5 long, the detector registers a
    hit on an unsliced entity exactly when the Euclidean distance from its
    centre to the closest point of the segment is strictly below its
    radius; at a distance equal to the radius (or above) the entity and the
    state are left as they were.  Over a whole pass the hit counters grow by
    the number of unsliced entities within their radius of the segment. *)
Theorem C1_hit_iff_distance_below_radius :
  forall env w h dt g p1 p2,
    lastTwo (trailRef g) = Some (p1, p2) ->
    5 <= Math.hypot (tp_x p2 - tp_x p1) (tp_y p2 - tp_y p1) ->
    let dx := tp_x p2 - tp_x p1 in
    let dy := tp_y p2 - tp_y p1 in
    let dist := Math.hypot dx dy in
    (forall e a,
       e_isSliced e = false ->
       let r := entityBody env p1 dx dy dist e a in
       (hitsRegistered (game (snd r)) = (hitsRegistered (game a) + 1)%Z
        <-> segmentDistance (e_x e) (e_y e) p1 p2 < e_radius e)
       /\ (e_radius e <= segmentDistance (e_x e) (e_y e) p1 p2 ->
           fst r = e /\ game (snd r) = game a
           /\ entitiesToRemove (snd r) = entitiesToRemove a
           /\ entitiesToAdd (snd r) = entitiesToAdd a))
    /\ hitsRegistered (checkCollisions env w h dt g)
       = (hitsRegistered g
          + Z.of_nat
              (List.length
                 (filter
                    (fun e =>
                       negb (e_isSliced e)
                       && Rltb (segmentDistance (e_x e) (e_y e) p1 p2)
                            (e_radius e))
                    (entitiesRef g))))%Z.
Proof.
  intros env w h dt g p1 p2 HT H5 dx dy dist. split.
  - intros e a Hs r. subst r.
    pose proof (entityBody_hits env p1 dx dy dist e a) as HH.
    pose proof (isHit_spec p1 p2 e H5) as HI. fold dx dy dist in HI.
    rewrite Hs in HI. cbn [negb andb] in HI.
    split.
    + rewrite HH, HI.
      destruct (Rltb _ _) eqn:E;
        [apply Rltb_true in E | apply Rltb_false in E]; split; intros;
        try lra; lia.
    + intros Hge. apply Rltb_false in Hge. rewrite Hge in HI.
      destruct (entityBody_miss env _ _ _ _ _ a HI) as (? & ? & ? & ? & _).
      auto.
  - unfold checkCollisions, collisionScan. rewrite HT. fold dx dy dist.
    assert (E : Rltb dist 5 = false) by (apply Rltb_false; exact H5).
    rewrite E.
    pose proof (forEachEntity_hits env p1 dx dy dist (entitiesRef g)
                  (mkPass g [] [] false [])) as HF.
    destruct (forEachEntity _ _ _) as [es a]. cbn [snd game] in HF.
    unfold hitsRegistered in *. rewrite applyBatch_stats, HF.
    do 3 f_equal. apply filter_ext. intros e.
    apply (isHit_spec p1 p2 e H5).
Qed.

(** C1 as stated fails below the speed gate: the swipe (49,0) -> (52,0)
    passes through the centre of the unsliced fruit at (50,0), yet the
    detector registers no hit and returns the state unchanged. *)
Lemma C1_counterexample_slow_swipe :
  lastTwo (trailRef slowSwipe) = Some (pointSlowA, pointSlowB)
  /\ In sampleApple (entitiesRef slowSwipe)
  /\ e_isSliced sampleApple = false
  /\ segmentDistance (e_x sampleApple) (e_y sampleApple)
       pointSlowA pointSlowB
     < e_radius sampleApple
  /\ checkCollisions env0 1920 1080 (1 / 60) slowSwipe = slowSwipe
  /\ hitsRegistered (checkCollisions env0 1920 1080 (1 / 60) slowSwipe)
     = hitsRegistered slowSwipe.
Proof.
  assert (Hs : Math.hypot (52 - 49) (0 - 0) < 5)
    by (apply hypot_lt; lra).
  assert (E : checkCollisions env0 1920 1080 (1 / 60) slowSwipe = slowSwipe).
  { unfold checkCollisions, collisionScan. simpl.
    apply Rltb_true in Hs. now rewrite Hs. }
  repeat split; try reflexivity; try (now left); try exact E.
  - unfold segmentDistance, euclid, segmentPoint, closestParameter, dot.
    simpl. unfold FRUIT_RADIUS.
    replace ((50 - 49) * (52 - 49) + (0 - 0) * (0 - 0)) with 3 by ring.
    replace ((52 - 49) * (52 - 49) + (0 - 0) * (0 - 0)) with 9 by ring.
    replace (3 / 9) with (1 / 3) by field.
    unfold clamp01. rdec.
    match goal with |- sqrt ?x < _ => replace x with 0 by field end.
    rewrite sqrt_0. lra.
  - now rewrite E.
Qed.

(** The swipe (0,0) -> (100,0) over one fruit passes the gate, and the pass
    counts the entities within their radius. *)
Lemma C1_witness_fast_swipe :
  lastTwo (trailRef fastSwipe) = Some (pointA, pointB)
  /\ 5 <= Math.hypot (tp_x pointB - tp_x pointA) (tp_y pointB - tp_y pointA)
  /\ hitsRegistered (checkCollisions env0 1920 1080 (1 / 60) fastSwipe)
     = (hitsRegistered fastSwipe
        + Z.of_nat
            (List.length
               (filter
                  (fun e =>
                     negb (e_isSliced e)
                     && Rltb (segmentDistance (e_x e) (e_y e) pointA pointB)
                          (e_radius e))
                  (entitiesRef fastSwipe))))%Z.
Proof.
  assert (H5 : 5 <= Math.hypot (tp_x pointB - tp_x pointA)
                      (tp_y pointB - tp_y pointA))
    by (apply hypot_ge; simpl; lra).
  split; [reflexivity|]. split; [exact H5|].
  exact (proj2 (C1_hit_iff_distance_below_radius env0 1920 1080 (1 / 60)
                  fastSwipe pointA pointB eq_refl H5)).
Defined.

(** With a life left the session stays in PLAYING. *)
Lemma C6_witness_stays_playing :
  gameState fastSwipe = PLAYING
  /\ gameState (update env0 (1 / 60) 1920 1080 fastSwipe) = PLAYING.
Proof.
  split; [reflexivity|].
  apply (proj2 (C6_gameover_iff_dead_and_shake_below_one env0 (1 / 60)
                  1920 1080 fastSwipe eq_refl)).
  simpl. intros [H _]. lia.
Defined.

(** A collaborator that throws yields the error fallback. *)
Lemma C9_witness_collaborator_throws :
  GeminiService.generateSenseiFeedback (Some "key")
    (fun _ _ => GeminiService.Throws "network down") initialStats
  = GeminiService.Resolved GeminiService.MSG_ERROR.
Proof.
  apply (proj1 (proj2 (proj2
           (C9_feedback_never_throws (Some "key")
              (fun _ _ => GeminiService.Throws "network down")
              initialStats)))
         (GeminiService.mkGoogleGenAI "key") "network down");
    reflexivity.
Defined.

(** With one trail point only the detector does nothing. *)
Lemma C10_witness_first_sample :
  (List.length (trailRef firstSample) < 2)%nat
  /\ checkCollisions env0 1920 1080 (1 / 60) firstSample = firstSample.
Proof.
  assert (H : (List.length (trailRef firstSample) < 2)%nat) by (simpl; lia).
  split; [exact H|].
  exact (proj2 (proj1 (C10_gates_and_nonzero_divisor env0 1920 1080 (1 / 60)
                         firstSample) H)).
Defined.

(** ** Bomb hits *)

Lemma explosionLoop_length env x y c b dir f count :
  forall n,
    List.length (fst (explosionLoop env x y c b dir f count [] n)) = count.
Proof.
  induction count as [|k IH]; intros n; [reflexivity|].
  rewrite explosionLoop_S.
  destruct (explosionLoop_app env x y c b dir f k
              ([] ++ [fst (explosionParticle env x y c b dir f n)])
              (snd (explosionParticle env x y c b dir f n))) as [E _].
  rewrite E, length_app, IH. reflexivity.
Qed.

Lemma explosionLoop_Forall env x y c b dir f (P : Particle -> Prop) :
  (forall n, P (fst (explosionParticle env x y c b dir f n))) ->
  forall count n,
    Forall P (fst (explosionLoop env x y c b dir f count [] n)).
Proof.
  intros HP. induction count as [|k IH]; intros n; [constructor|].
  rewrite explosionLoop_S.
  destruct (explosionLoop_app env x y c b dir f k
              ([] ++ [fst (explosionParticle env x y c b dir f n)])
              (snd (explosionParticle env x y c b dir f n))) as [E _].
  rewrite E. apply Forall_app. split; [|apply IH].
  constructor; [apply HP|constructor].
Qed.

Lemma bomb_particle_is_spark env x y c dir n :
  isBombSpark env x y (fst (explosionParticle env x y c true dir None n)).
Proof.
  unfold isBombSpark, explosionParticle. simpl.
  repeat split; try reflexivity.
  exists n. split; reflexivity.
Qed.

(** A bomb burst does not look at the direction it is given. *)
Lemma bomb_burst_undirected env x y c dir f n :
  burst env x y c true dir f n = burst env x y c true None f n.
Proof.
  unfold burst.
  assert (H : forall count ps m,
            explosionLoop env x y c true dir f count ps m
            = explosionLoop env x y c true None f count ps m).
  { induction count as [|k IH]; intros ps m; [reflexivity|].
    rewrite !explosionLoop_S, IH. reflexivity. }
  now rewrite H.
Qed.

(** C7. On every bomb hit (an unsliced bomb within its radius of a swipe
    that passes the speed gate) the loop body sets the lives to 0, adds one
    to bombsHit, marks the bomb sliced with flash 1, sets the screen shake
    to 45, appends a burst of exactly 50 SPARK particles thrown at angles
    drawn from the whole circle (followed by the core flash particle), and
    leaves the combo timer and the combo counter as they were. *)
Theorem C7_bomb_hit :
  forall env p1 p2 e a,
    e_isSliced e = false ->
    e_type e = BOMB ->
    5 <= Math.hypot (tp_x p2 - tp_x p1) (tp_y p2 - tp_y p1) ->
    segmentDistance (e_x e) (e_y e) p1 p2 < e_radius e ->
    let dx := tp_x p2 - tp_x p1 in
    let dy := tp_y p2 - tp_y p1 in
    let r := entityBody env p1 dx dy (Math.hypot dx dy) e a in
    let g := game a in
    let g' := game (snd r) in
    livesRef g' = 0%Z
    /\ bombsHit (statsRef g') = (bombsHit (statsRef g) + 1)%Z
    /\ e_isSliced (fst r) = true
    /\ e_flash (fst r) = 1
    /\ e_id (fst r) = e_id e
    /\ shakeIntensityRef g' = 45
    /\ comboTimerRef g' = comboTimerRef g
    /\ currentCombo g' = currentCombo g
    /\ exists sparks core,
         particlesRef g' = particlesRef g ++ sparks ++ [core]
         /\ List.length sparks = 50%nat
         /\ Forall (isBombSpark env (e_x e) (e_y e)) sparks
         /\ p_type core = CORE.
Proof.
  intros env p1 p2 e a Hs Ht H5 Hd dx dy r g g'.
  assert (HI : isHit p1 dx dy (Math.hypot dx dy) e = true).
  { unfold dx, dy. rewrite (isHit_spec p1 p2 e H5), Hs.
    apply Rltb_true in Hd. now rewrite Hd. }
  assert (HB : isBomb e = true) by (unfold isBomb; now rewrite Ht).
  unfold g', r. rewrite (entityBody_bomb env _ _ _ _ _ a HI HB).
  cbn [fst snd game].
  pose proof (bombHit_cells env e (game a)) as HC. cbv zeta in HC.
  destruct HC as (_ & B1 & B2 & _ & _ & _ & _ & B3 & B4 & B5 & _ & B6).
  fold g in B1, B2, B3, B4, B5, B6 |- *.
  repeat (split; [first [assumption | reflexivity]|]).
  exists (fst (explosionLoop env (e_x e) (e_y e) "#fff" true None None 50
                 [] (randomCalls g))).
  eexists. split; [|split; [|split]].
  - rewrite B6. unfold burst. reflexivity.
  - apply explosionLoop_length.
  - apply explosionLoop_Forall. intros n. apply bomb_particle_is_spark.
  - reflexivity.
Qed.

Lemma sample_swipe_length :
  5 <= Math.hypot (tp_x pointB - tp_x pointA) (tp_y pointB - tp_y pointA).
Proof. apply hypot_ge; simpl; lra. Qed.

Lemma sample_distance : segmentDistance 50 0 pointA pointB = 0.
Proof.
  unfold segmentDistance, euclid, segmentPoint, closestParameter, dot.
  simpl.
  replace ((50 - 0) * (100 - 0) + (0 - 0) * (0 - 0)) with 5000 by ring.
  replace ((100 - 0) * (100 - 0) + (0 - 0) * (0 - 0)) with 10000 by ring.
  replace (5000 / 10000) with (1 / 2) by field.
  unfold clamp01. rdec.
  match goal with |- sqrt ?x = _ => replace x with 0 by field end.
  apply sqrt_0.
Qed.

(** The swipe (0,0) -> (100,0) over a bomb at (50,0) ends the lives. *)
Lemma C7_witness_bomb_swipe :
  e_isSliced sampleBomb = false
  /\ e_type sampleBomb = BOMB
  /\ 5 <= Math.hypot (tp_x pointB - tp_x pointA) (tp_y pointB - tp_y pointA)
  /\ segmentDistance (e_x sampleBomb) (e_y sampleBomb) pointA pointB
     < e_radius sampleBomb
  /\ livesRef
       (game
          (snd (entityBody env0 pointA
                  (tp_x pointB - tp_x pointA) (tp_y pointB - tp_y pointA)
                  (Math.hypot (tp_x pointB - tp_x pointA)
                     (tp_y pointB - tp_y pointA))
                  sampleBomb (startPass bombSwipe))))
     = 0%Z.
Proof.
  assert (Hd : segmentDistance (e_x sampleBomb) (e_y sampleBomb)
                 pointA pointB < e_radius sampleBomb).
  { simpl. rewrite sample_distance. unfold FRUIT_RADIUS. lra. }
  split; [reflexivity|]. split; [reflexivity|].
  split; [exact sample_swipe_length|]. split; [exact Hd|].
  exact (proj1 (C7_bomb_hit env0 pointA pointB sampleBomb
                  (startPass bombSwipe) eq_refl eq_refl
                  sample_swipe_length Hd)).
Defined.

(** ** The combo machine *)



(** ** Fragmentation *)

Lemma includes_In (ids : list string) (i : string) :
  includes ids i = true <-> In i ids.
Proof.
  unfold includes. rewrite existsb_exists. split.
  - intros (j & Hj & E). apply String.eqb_eq in E. now subst.
  - intros H. exists i. split; [exact H|apply String.eqb_refl].
Qed.

(** The entity array after a scan that ran. *)
Lemma checkCollisions_entities env w h dt g p1 p2 :
  lastTwo (trailRef g) = Some (p1, p2) ->
  5 <= Math.hypot (tp_x p2 - tp_x p1) (tp_y p2 - tp_y p1) ->
  let dx := tp_x p2 - tp_x p1 in
  let dy := tp_y p2 - tp_y p1 in
  let dist := Math.hypot dx dy in
  let marked :=
    map (fun e => if isHit p1 dx dy dist e && isBomb e
                  then markSliced e else e) (entitiesRef g) in
  let hits := filter (isFruitHit p1 dx dy dist) (entitiesRef g) in
  entitiesRef (checkCollisions env w h dt g)
  = match hits with
    | [] => marked
    | _ :: _ =>
        filter (fun x => negb (includes (map e_id hits) (e_id x))) marked
        ++ flat_map (fragmentsOf p1 dx dy dist) hits
    end.
Proof.
  intros HT H5 dx dy dist marked hits.
  unfold checkCollisions, collisionScan. rewrite HT. fold dx dy dist.
  assert (E : Rltb dist 5 = false) by (apply Rltb_false; exact H5).
  rewrite E.
  pose proof (forEachEntity_buffers env p1 dx dy dist (entitiesRef g)
                (mkPass g [] [] false [])) as HB.
  cbv zeta in HB.
  destruct (forEachEntity _ _ _) as [es a]. cbn [fst snd] in HB.
  destruct HB as (B1 & B2 & B3 & _). cbn [entitiesToRemove entitiesToAdd
    app] in B2, B3.
  fold hits in B2, B3. fold marked in B1.
  unfold applyBatch. rewrite B2, B3, B1.
  destruct hits as [|x xs]; cbn [map];
    destruct (scoreChanged a); reflexivity.
Qed.

Lemma fragmentsOf_sliced p1 dx dy dist e f :
  In f (fragmentsOf p1 dx dy dist e) ->
  e_isSliced f = true /\ e_isFragment f = Some true.
Proof.
  unfold fragmentsOf. simpl. intros [<-|[<-|[]]]; split; reflexivity.
Qed.

Lemma append_A_B_differ (s : string) : (s ++ "-A" <> s ++ "-B")%string.
Proof.
  induction s as [|c s IH]; simpl; intros H.
  - discriminate H.
  - injection H as H. exact (IH H).
Qed.

Lemma FruitType_eqb_eq (a b : FruitType) :
  FruitType_eqb a b = true <-> a = b.
Proof.
  destruct a, b; simpl; split; intros H; try reflexivity; discriminate H.
Qed.

Lemma comboBonus_nonneg env g : (0 <= comboBonus env g)%Z.
Proof.
  unfold comboBonus.
  destruct (_ <? 400)%Z; [|lia].
  destruct (Z.ltb_spec 1 (currentCombo g + 1)); lia.
Qed.

Lemma entityBody_score env p1 dx dy dist e a :
  scoreRef (game (snd (entityBody env p1 dx dy dist e a)))
  = (scoreRef (game a)
     + (if isFruitHit p1 dx dy dist e
        then 10 + comboBonus env (game a) else 0))%Z.
Proof.
  unfold isFruitHit.
  destruct (isHit p1 dx dy dist e) eqn:H.
  - destruct (isBomb e) eqn:Hb; cbn [andb negb].
    + rewrite (entityBody_bomb env _ _ _ _ _ _ H Hb). cbn [snd game].
      pose proof (bombHit_cells env e (game a)) as HB. cbv zeta in HB.
      destruct HB as (_ & _ & _ & _ & _ & _ & H1 & _). rewrite H1. lia.
    + rewrite (entityBody_fruit env _ _ _ _ _ _ H Hb). cbn [snd].
      pose proof (fruitHit_cells env p1 dx dy dist e
                    (mkPass (game a) (entitiesToRemove a) (entitiesToAdd a)
                       (scoreChanged a) (divisors a ++ [dist * dist])))
        as HF.
      cbv zeta in HF. cbn [game] in HF.
      destruct HF as (_ & _ & _ & _ & H1 & _). rewrite H1. lia.
  - destruct (entityBody_miss env _ _ _ _ _ a H) as (_ & -> & _).
    cbn [andb]. lia.
Qed.

Lemma forEachEntity_score env p1 dx dy dist es :
  forall a,
    (scoreRef (game a)
     + 10 * Z.of_nat (List.length (filter (isFruitHit p1 dx dy dist) es))
     <= scoreRef
          (game (snd (forEachEntity (entityBody env p1 dx dy dist) es a))))%Z.
Proof.
  induction es as [|e es IH]; intros a; cbn [forEachEntity filter];
    [simpl; lia|].
  pose proof (entityBody_score env p1 dx dy dist e a) as H1.
  pose proof (comboBonus_nonneg env (game a)) as H0.
  destruct (entityBody env p1 dx dy dist e a) as [e' a'].
  specialize (IH a').
  destruct (forEachEntity _ es a') as [rest a'']. cbn [snd] in *.
  destruct (isFruitHit p1 dx dy dist e); cbn [List.length]; lia.
Qed.

Lemma applyBatch_scoreRef es a : scoreRef (applyBatch es a) = scoreRef (game a).
Proof.
  unfold applyBatch.
  destruct (entitiesToRemove a); destruct (scoreChanged a); reflexivity.
Qed.

Lemma applyBatch_currentCombo es a :
  currentCombo (applyBatch es a) = currentCombo (game a).
Proof.
  unfold applyBatch.
  destruct (entitiesToRemove a); destruct (scoreChanged a); reflexivity.
Qed.

(** C2. When a swipe that passes the speed gate hits an unsliced fruit [e]
    of the entity array, then after the pass [e] is no longer in the array
    and its two halves are: the fragments of sides +1 and -1, with ids
    [id-A] and [id-B] (distinct), both with isSliced and isFragment set.
    The array after the pass is the old one without the entities whose id
    is the id of a hit fruit (hit bombs marked), followed by exactly two
    fragments per hit fruit.  Each fruit hit adds 10 to the score plus the
    combo bonus of that hit, so the pass adds at least 10 per hit fruit. *)
Theorem C2_fruit_hit_splits :
  forall env w h dt g p1 p2 e,
    lastTwo (trailRef g) = Some (p1, p2) ->
    5 <= Math.hypot (tp_x p2 - tp_x p1) (tp_y p2 - tp_y p1) ->
    In e (entitiesRef g) ->
    e_isSliced e = false ->
    e_type e <> BOMB ->
    segmentDistance (e_x e) (e_y e) p1 p2 < e_radius e ->
    let dx := tp_x p2 - tp_x p1 in
    let dy := tp_y p2 - tp_y p1 in
    let dist := Math.hypot dx dy in
    let g' := checkCollisions env w h dt g in
    let hits := filter (isFruitHit p1 dx dy dist) (entitiesRef g) in
    let marked :=
      map (fun x => if isHit p1 dx dy dist x && isBomb x
                    then markSliced x else x) (entitiesRef g) in
    ~ In e (entitiesRef g')
    /\ (exists fA fB,
          fragmentsOf p1 dx dy dist e = [fA; fB]
          /\ In fA (entitiesRef g') /\ In fB (entitiesRef g')
          /\ e_id fA = (e_id e ++ "-A")%string
          /\ e_id fB = (e_id e ++ "-B")%string
          /\ e_id fA <> e_id fB
          /\ e_sliceSide fA = Some 1%Z /\ e_sliceSide fB = Some (-1)%Z
          /\ e_isSliced fA = true /\ e_isSliced fB = true
          /\ e_isFragment fA = Some true /\ e_isFragment fB = Some true)
    /\ In e hits
    /\ entitiesRef g'
       = filter (fun x => negb (includes (map e_id hits) (e_id x))) marked
         ++ flat_map (fragmentsOf p1 dx dy dist) hits
    /\ List.length (flat_map (fragmentsOf p1 dx dy dist) hits)
       = (2 * List.length hits)%nat
    /\ (forall a,
          scoreRef (game (fruitHit env p1 dx dy dist e a))
          = (scoreRef (game a) + 10 + comboBonus env (game a))%Z
          /\ score (statsRef (game (fruitHit env p1 dx dy dist e a)))
             = (score (statsRef (game a)) + 10 + comboBonus env (game a))%Z
          /\ (0 <= comboBonus env (game a))%Z)
    /\ (scoreRef g + 10 * Z.of_nat (List.length hits) <= scoreRef g')%Z.
Proof.
  intros env w h dt g p1 p2 e HT H5 Hin Hs Hty Hd dx dy dist g' hits marked.
  assert (HI : isFruitHit p1 dx dy dist e = true).
  { unfold isFruitHit, dist, dx, dy.
    rewrite (isHit_spec p1 p2 e H5), Hs.
    apply Rltb_true in Hd. rewrite Hd. cbn [negb andb].
    unfold isBomb. destruct (FruitType_eqb (e_type e) BOMB_TYPE) eqn:E;
      [|reflexivity].
    apply FruitType_eqb_eq in E. contradiction. }
  assert (Hh : In e hits) by (apply filter_In; split; assumption).
  assert (HE : entitiesRef g'
               = filter (fun x => negb (includes (map e_id hits) (e_id x)))
                   marked
                 ++ flat_map (fragmentsOf p1 dx dy dist) hits).
  { unfold g'.
    rewrite (checkCollisions_entities env w h dt g p1 p2 HT H5).
    fold dx dy dist. fold hits. fold marked.
    destruct hits; [destruct Hh|reflexivity]. }
  assert (HF : forall f, In f (fragmentsOf p1 dx dy dist e) ->
                         In f (entitiesRef g')).
  { intros f Hf. rewrite HE. apply in_or_app. right.
    apply in_flat_map. exists e. split; assumption. }
  split; [|split; [|split; [|split; [|split; [|split]]]]].
  - rewrite HE. intros H. apply in_app_or in H as [H|H].
    + apply filter_In in H as [_ H].
      assert (includes (map e_id hits) (e_id e) = true) as Hc
        by (apply includes_In, in_map, Hh).
      rewrite Hc in H. discriminate H.
    + apply in_flat_map in H as (y & _ & Hy).
      apply fragmentsOf_sliced in Hy as [Hy _]. congruence.
  - unfold fragmentsOf in *. eexists. eexists. split; [reflexivity|].
    split; [apply HF; now left|]. split; [apply HF; right; now left|].
    cbn [createFragment e_id e_sliceSide e_isSliced e_isFragment].
    repeat split; try reflexivity. apply append_A_B_differ.
  - exact Hh.
  - exact HE.
  - clear. induction hits as [|x xs IH]; [reflexivity|].
    cbn [flat_map]. rewrite length_app, IH. simpl. lia.
  - intros a.
    pose proof (fruitHit_cells env p1 dx dy dist e a) as K. cbv zeta in K.
    destruct K as (_ & _ & _ & K4 & K5 & _).
    split; [exact K5|]. split; [exact K4|]. apply comboBonus_nonneg.
  - unfold g', checkCollisions, collisionScan. rewrite HT.
    fold dx dy dist.
    assert (E : Rltb dist 5 = false) by (apply Rltb_false; exact H5).
    rewrite E.
    pose proof (forEachEntity_score env p1 dx dy dist (entitiesRef g)
                  (mkPass g [] [] false [])) as HS.
    destruct (forEachEntity _ _ _) as [es a]. cbn [snd game] in HS.
    rewrite applyBatch_scoreRef. exact HS.
Qed.

Lemma sample_apple_near :
  segmentDistance (e_x sampleApple) (e_y sampleApple) pointA pointB
  < e_radius sampleApple.
Proof. simpl. rewrite sample_distance. unfold FRUIT_RADIUS. lra. Qed.

(** The swipe (0,0) -> (100,0) removes the fruit at (50,0). *)
Lemma C2_witness_single_fruit :
  lastTwo (trailRef fastSwipe) = Some (pointA, pointB)
  /\ 5 <= Math.hypot (tp_x pointB - tp_x pointA) (tp_y pointB - tp_y pointA)
  /\ In sampleApple (entitiesRef fastSwipe)
  /\ e_isSliced sampleApple = false
  /\ e_type sampleApple <> BOMB
  /\ segmentDistance (e_x sampleApple) (e_y sampleApple) pointA pointB
     < e_radius sampleApple
  /\ ~ In sampleApple
         (entitiesRef (checkCollisions env0 1920 1080 (1 / 60) fastSwipe)).
Proof.
  assert (Hin : In sampleApple (entitiesRef fastSwipe)) by now left.
  assert (Hty : e_type sampleApple <> BOMB) by discriminate.
  repeat (split; [first [reflexivity | assumption
                         | exact sample_swipe_length
                         | exact sample_apple_near]|]).
  exact (proj1 (C2_fruit_hit_splits env0 1920 1080 (1 / 60) fastSwipe
                  pointA pointB sampleApple eq_refl sample_swipe_length
                  Hin eq_refl Hty sample_apple_near)).
Defined.

(** The example of the specification: the swipe (0,0) -> (100,0) against
    one fruit at (50,0) of radius 35 leaves exactly the two fragments of
    the fruit in the array and, the combo chain being new, adds 10 to the
    score. *)
Example single_fruit_swipe :
  let g' := checkCollisions env0 1920 1080 (1 / 60) fastSwipe in
  let dx := tp_x pointB - tp_x pointA in
  let dy := tp_y pointB - tp_y pointA in
  entitiesRef g' = fragmentsOf pointA dx dy (Math.hypot dx dy) sampleApple
  /\ map e_id (entitiesRef g') = ["abc123xyz-A"; "abc123xyz-B"]
  /\ scoreRef g' = 10%Z
  /\ score (statsRef g') = 10%Z
  /\ currentCombo g' = 1%Z.
Proof.
  intros g' dx dy.
  assert (HI : isHit pointA dx dy (Math.hypot dx dy) sampleApple = true).
  { unfold dx, dy. rewrite (isHit_spec _ _ _ sample_swipe_length).
    pose proof sample_apple_near as H. apply Rltb_true in H.
    now rewrite H. }
  assert (HF : isFruitHit pointA dx dy (Math.hypot dx dy) sampleApple = true).
  { unfold isFruitHit. now rewrite HI. }
  assert (HE : entitiesRef g'
               = fragmentsOf pointA dx dy (Math.hypot dx dy) sampleApple).
  { unfold g'.
    rewrite (checkCollisions_entities env0 1920 1080 (1 / 60) fastSwipe
               pointA pointB eq_refl sample_swipe_length).
    fold dx dy. cbn [entitiesRef fastSwipe set_gameState set_trailRef
      set_entitiesRef filter map].
    rewrite HF, HI. cbn [andb isBomb map filter flat_map app].
    replace (isBomb sampleApple) with false by reflexivity.
    cbn [includes existsb]. rewrite String.eqb_refl. cbn [orb negb].
    now rewrite app_nil_r. }
  split; [exact HE|]. split; [rewrite HE; reflexivity|].
  unfold g', checkCollisions, collisionScan.
  cbn [trailRef fastSwipe set_gameState set_trailRef set_entitiesRef
    lastTwo rev app entitiesRef].
  fold dx dy.
  assert (E : Rltb (Math.hypot dx dy) 5 = false)
    by (apply Rltb_false; exact sample_swipe_length).
  rewrite E. cbn [forEachEntity].
  rewrite (entityBody_fruit env0 _ _ _ _ _ _ HI eq_refl).
  cbn [game entitiesToRemove entitiesToAdd scoreChanged divisors app].
  set (a := mkPass _ _ _ _ _).
  rewrite applyBatch_scoreRef, applyBatch_stats, applyBatch_currentCombo.
  pose proof (fruitHit_cells env0 pointA dx dy (Math.hypot dx dy)
                sampleApple a) as K. cbv zeta in K.
  destruct K as (_ & K2 & _ & K4 & K5 & _).
  rewrite K2, K4, K5. repeat split; reflexivity.
Qed.

(** ** Particles *)

Lemma stepParticle_life env ts p nd :
  let p' := fst (stepParticle env ts p nd) in
  p_life p' = p_life p - p_decay p * ts
  /\ p_decay p' = p_decay p
  /\ p_id p' = p_id p
  /\ p_stuck p' = p_stuck p.
Proof.
  unfold stepParticle. destruct (p_stuck p) eqn:E; simpl; auto.
Qed.

Lemma stepParticles_In env ts ps :
  forall nd p',
    In p' (fst (stepParticles env ts ps nd)) ->
    exists p nd', In p ps /\ p' = fst (stepParticle env ts p nd').
Proof.
  induction ps as [|p ps IH]; intros nd p' H; simpl in H; [destruct H|].
  destruct (stepParticle env ts p nd) as [q nd1] eqn:E1.
  destruct (stepParticles env ts ps nd1) as [rest nd2] eqn:E2.
  simpl in H. destruct H as [<-|H].
  - exists p, nd. split; [now left|]. now rewrite E1.
  - specialize (IH nd1 p'). rewrite E2 in IH.
    destruct (IH H) as (p0 & nd' & Hin & Hp).
    exists p0, nd'. split; [now right|exact Hp].
Qed.


(** The particle array after one [update]. *)
Lemma update_particles env dt w h g :
  particlesRef (update env dt w h g)
  = filter (fun p => Rltb 0 (p_life p))
      (fst (stepParticles env (dt * 60) (particlesRef g) (dateCalls g))).
Proof.
  unfold update.
  set (g1 := if (livesRef g <=? 0)%Z && GamePhase_eqb (gameState g) PLAYING
             then _ else g).
  assert (E1 : particlesRef g1 = particlesRef g /\ dateCalls g1 = dateCalls g).
  { unfold g1. destruct ((livesRef g <=? 0)%Z && _); [|easy].
    destruct (Rltb (shakeIntensityRef g) 1); easy. }
  destruct E1 as [<- <-]. clearbody g1.
  set (g2 := if Rltb 0 (shakeIntensityRef g1) then _ else g1).
  assert (E2 : particlesRef g2 = particlesRef g1
               /\ dateCalls g2 = dateCalls g1).
  { unfold g2. destruct (Rltb 0 (shakeIntensityRef g1)); easy. }
  destruct E2 as [<- <-]. clearbody g2.
  set (d := if (250 <? scoreRef g2)%Z then _ else _).
  set (g3 := set_spawnTimerRef _ g2).
  assert (E3 : particlesRef g3 = particlesRef g2
               /\ dateCalls g3 = dateCalls g2) by easy.
  destruct E3 as [<- <-]. clearbody g3.
  set (g4 := if Rltb (spawnRate d) (spawnTimerRef g3) then _ else g3).
  assert (E4 : particlesRef g4 = particlesRef g3
               /\ dateCalls g4 = dateCalls g3).
  { unfold g4. destruct (Rltb (spawnRate d) (spawnTimerRef g3)); [|easy].
    rewrite spawnEntity_shape. easy. }
  destruct E4 as [<- <-]. clearbody g4.
  cbn [particlesRef dateCalls set_entitiesRef].
  destruct (stepParticles env (dt * 60) (particlesRef g4) (dateCalls g4)).
  reflexivity.
Qed.


(** ** Outside PLAYING *)

(** The entity array after one [update] of a session that is not PLAYING:
    the spawn timer runs and, once it passes the spawn rate of the tier, a
    new entity is pushed before the physics step. *)
Lemma update_entities_idle env dt w h g :
  gameState g <> PLAYING ->
  let d :=
    if (250 <? scoreRef g)%Z then HARD_DIFFICULTY else INITIAL_DIFFICULTY in
  entitiesRef (update env dt w h g)
  = filter (onStage h)
      (map (stepEntity d (dt * 60))
         (if Rltb (spawnRate d) (spawnTimerRef g + dt * 1000)
          then entitiesRef g ++ [fst (newEntity env w h d (randomCalls g))]
          else entitiesRef g)).
Proof.
  intros HP d. unfold update.
  assert (E0 : (livesRef g <=? 0)%Z && GamePhase_eqb (gameState g) PLAYING
               = false).
  { destruct (gameState g); try (now rewrite andb_false_r). contradiction. }
  rewrite E0.
  set (g2 := if Rltb 0 (shakeIntensityRef g) then _ else g).
  assert (E2 : entitiesRef g2 = entitiesRef g
               /\ randomCalls g2 = randomCalls g
               /\ scoreRef g2 = scoreRef g
               /\ spawnTimerRef g2 = spawnTimerRef g).
  { unfold g2. destruct (Rltb 0 (shakeIntensityRef g)); easy. }
  destruct E2 as (Ea & Eb & Ec & Ed). clearbody g2.
  rewrite Ec. fold d.
  cbn [spawnTimerRef set_spawnTimerRef]. rewrite Ed.
  destruct (Rltb (spawnRate d) (spawnTimerRef g + dt * 1000)).
  - rewrite spawnEntity_shape.
    cbn [entitiesRef randomCalls particlesRef dateCalls set_spawnTimerRef
      set_randomCalls set_entitiesRef].
    rewrite Ea, Eb.
    match goal with
    | |- context [stepParticles ?e ?t ?ps ?n] =>
        destruct (stepParticles e t ps n)
    end.
    reflexivity.
  - cbn [entitiesRef randomCalls particlesRef dateCalls set_spawnTimerRef].
    rewrite Ea.
    match goal with
    | |- context [stepParticles ?e ?t ?ps ?n] =>
        destruct (stepParticles e t ps n)
    end.
    reflexivity.
Qed.

Lemma update_stats env dt w h g :
  statsRef (update env dt w h g) = statsRef g
  /\ scoreRef (update env dt w h g) = scoreRef g
  /\ livesRef (update env dt w h g) = livesRef g.
Proof.
  unfold update.
  set (g1 := if (livesRef g <=? 0)%Z && GamePhase_eqb (gameState g) PLAYING
             then _ else g).
  assert (E1 : statsRef g1 = statsRef g /\ scoreRef g1 = scoreRef g
               /\ livesRef g1 = livesRef g).
  { unfold g1. destruct ((livesRef g <=? 0)%Z && _); [|easy].
    destruct (Rltb (shakeIntensityRef g) 1); easy. }
  destruct E1 as (<- & <- & <-). clearbody g1.
  set (g2 := if Rltb 0 (shakeIntensityRef g1) then _ else g1).
  assert (E2 : statsRef g2 = statsRef g1 /\ scoreRef g2 = scoreRef g1
               /\ livesRef g2 = livesRef g1).
  { unfold g2. destruct (Rltb 0 (shakeIntensityRef g1)); easy. }
  destruct E2 as (<- & <- & <-). clearbody g2.
  set (d := if (250 <? scoreRef g2)%Z then _ else _).
  set (g3 := set_spawnTimerRef _ g2).
  assert (E3 : statsRef g3 = statsRef g2 /\ scoreRef g3 = scoreRef g2
               /\ livesRef g3 = livesRef g2) by easy.
  destruct E3 as (<- & <- & <-). clearbody g3.
  set (g4 := if Rltb (spawnRate d) (spawnTimerRef g3) then _ else g3).
  assert (E4 : statsRef g4 = statsRef g3 /\ scoreRef g4 = scoreRef g3
               /\ livesRef g4 = livesRef g3).
  { unfold g4. destruct (Rltb (spawnRate d) (spawnTimerRef g3)); [|easy].
    rewrite spawnEntity_shape. easy. }
  destruct E4 as (<- & <- & <-). clearbody g4.
  cbn [particlesRef dateCalls set_entitiesRef].
  destruct (stepParticles env (dt * 60) (particlesRef g4) (dateCalls g4)).
  repeat split; reflexivity.
Qed.

Lemma draw_cells w h g :
  entitiesRef (draw w h g) = entitiesRef g
  /\ gameState (draw w h g) = gameState g
  /\ statsRef (draw w h g) = statsRef g
  /\ particlesRef (draw w h g) = particlesRef g.
Proof.
  unfold draw. destruct (Rltb 0 (shakeIntensityRef g)); easy.
Qed.

(** A freshly spawned entity is still on stage after its first step. *)
Lemma newEntity_stays env w h d n ts :
  (forall k, 0 <= mathRandom env k) ->
  0 <= minSpeed d <= maxSpeed d ->
  0 <= h -> 0 <= ts ->
  onStage h (stepEntity d ts (fst (newEntity env w h d n))) = true.
Proof.
  intros Hr Hd Hh Hts.
  pose proof (newEntity_fresh env w h d n) as HF. cbv zeta in HF.
  destruct HF as (F1 & _ & F3 & F4 & F5).
  set (e := fst (newEntity env w h d n)) in *.
  unfold onStage, stepEntity. cbn [e_opacity e_y]. rewrite F1, F3, F4, F5.
  match goal with |- context [mathRandom env ?k] =>
    pose proof (Hr k) as Hk; set (r := mathRandom env k) in * end.
  assert (H1 : Rltb 0 1 = true) by (apply Rltb_true; lra).
  rewrite H1. cbn [andb]. apply Rltb_true.
  assert (0 <= (r * (maxSpeed d - minSpeed d) + minSpeed d) * (h / 1080) * ts).
  { apply Rmult_le_pos; [apply Rmult_le_pos|]; try lra.
    - assert (0 <= r * (maxSpeed d - minSpeed d))
        by (apply Rmult_le_pos; lra). lra. }
  lra.
Qed.

Lemma detectHand_cells env vision w h g :
  let g' := detectHand env vision w h g in
  gameState g' = gameState g /\ particlesRef g' = particlesRef g
  /\ floatingTextsRef g' = floatingTextsRef g
  /\ entitiesRef g' = entitiesRef g /\ scoreRef g' = scoreRef g
  /\ spawnTimerRef g' = spawnTimerRef g
  /\ randomCalls g' = randomCalls g
  /\ statsRef g' = statsRef g.
Proof.
  unfold detectHand. destruct vision as [| |tx ty vw vh].
  - easy.
  - cbn [trailRef set_perfCalls]. destruct (trailRef g); easy.
  - cbn [lastHandPosRef set_perfCalls].
    destruct (lastHandPosRef g) as [last|]; [|easy].
    match goal with |- context [if ?c then _ else _] => destruct c end; easy.
Qed.

(** Outside PLAYING a frame runs no collision test: it is [detectHand],
    then [update] when a particle or a floating text is left, then [draw]. *)
Lemma renderFrame_idle env w h vision g :
  gameState g = MENU \/ gameState g = GAMEOVER ->
  let now := performanceNow env (perfCalls g) in
  let dt := Math.min ((now - lastTimeRef g) / 1000) 0.1 in
  let g1 :=
    detectHand env vision w h
      (set_lastTimeRef now (set_perfCalls (S (perfCalls g)) g)) in
  renderFrame env (Some (w, h)) vision g
  = draw w h
      (match particlesRef g, floatingTextsRef g with
       | [], [] => g1
       | _, _ => update env dt w h g1
       end).
Proof.
  intros HS now dt g1. unfold renderFrame. fold now.
  cbn [lastTimeRef set_perfCalls]. fold dt.
  set (g0 := set_lastTimeRef now (set_perfCalls (S (perfCalls g)) g)).
  assert (G0 : gameState g0 = gameState g) by reflexivity.
  pose proof (detectHand_cells env vision w h g0) as HD. cbv zeta in HD.
  fold g1 in HD. destruct HD as (_ & D2 & D3 & _).
  change (particlesRef g0) with (particlesRef g) in D2.
  change (floatingTextsRef g0) with (floatingTextsRef g) in D3.
  fold g1. rewrite G0, D2, D3.
  destruct HS as [-> | ->]; reflexivity.
Qed.

(** One frame of a session in MENU or GAMEOVER that still shows a particle:
    the spawn timer runs, and when it passes the spawn rate a fresh unsliced
    entity enters the array. *)
Lemma idle_frame_spawns env w h vision g :
  gameState g = MENU \/ gameState g = GAMEOVER ->
  particlesRef g <> [] ->
  (forall k, 0 <= mathRandom env k) ->
  0 <= h ->
  let dt :=
    Math.min ((performanceNow env (perfCalls g) - lastTimeRef g) / 1000) 0.1 in
  let d :=
    if (250 <? scoreRef g)%Z then HARD_DIFFICULTY else INITIAL_DIFFICULTY in
  0 <= dt ->
  spawnRate d < spawnTimerRef g + dt * 1000 ->
  let g' := renderFrame env (Some (w, h)) vision g in
  let born :=
    stepEntity d (dt * 60) (fst (newEntity env w h d (randomCalls g))) in
  gameState g' = gameState g
  /\ statsRef g' = statsRef g
  /\ entitiesRef g'
     = filter (onStage h) (map (stepEntity d (dt * 60)) (entitiesRef g))
       ++ [born]
  /\ e_isSliced born = false
  /\ e_isFragment born = None.
Proof.
  intros HS HP Hr Hh dt d Hdt Hspawn g' born.
  unfold g'. rewrite (renderFrame_idle env w h vision g HS). cbv zeta.
  fold dt.
  set (g1 := detectHand env vision w h _).
  pose proof (detectHand_cells env vision w h
                (set_lastTimeRef (performanceNow env (perfCalls g))
                   (set_perfCalls (S (perfCalls g)) g))) as HD.
  cbv zeta in HD. fold g1 in HD.
  cbn [gameState particlesRef floatingTextsRef entitiesRef scoreRef
    spawnTimerRef randomCalls statsRef set_lastTimeRef set_perfCalls] in HD.
  destruct HD as (G1 & G2 & _ & G3 & G4 & G5 & G6 & G7). clearbody g1.
  assert (Hidle : gameState g1 <> PLAYING)
    by (rewrite G1; destruct HS as [-> | ->]; discriminate).
  destruct (draw_cells w h
              (match particlesRef g, floatingTextsRef g with
               | [], [] => g1
               | _, _ => update env dt w h g1
               end)) as (W1 & W2 & W3 & _).
  rewrite W1, W2, W3.
  assert (HM : (match particlesRef g, floatingTextsRef g with
                | [], [] => g1
                | _, _ => update env dt w h g1
                end) = update env dt w h g1).
  { destruct (particlesRef g); [contradiction|reflexivity]. }
  rewrite HM.
  pose proof (newEntity_fresh env w h d (randomCalls g)) as HF.
  cbv zeta in HF. destruct HF as (F1 & F2 & _).
  split; [|split; [|split; [|split]]].
  - rewrite update_gameState, G1.
    destruct HS as [-> | ->]; now rewrite andb_false_r.
  - destruct (update_stats env dt w h g1) as [-> _]. exact G7.
  - rewrite (update_entities_idle env dt w h g1 Hidle). cbv zeta.
    rewrite G4, G5, G3, G6. fold d.
    apply Rltb_true in Hspawn. rewrite Hspawn.
    rewrite map_app, filter_app. cbn [map filter].
    rewrite (newEntity_stays env w h d (randomCalls g) (dt * 60) Hr);
      [reflexivity| | exact Hh | lra].
    unfold d. destruct (250 <? scoreRef g)%Z; simpl; lra.
  - unfold born. cbn [stepEntity e_isSliced]. exact F1.
  - unfold born. cbn [stepEntity e_isFragment]. exact F2.
Qed.

(** C5 (the code at the failing input). In GAMEOVER, with nothing falling,
    one fading droplet on the screen and the spawn timer at 1399 ms, the
    next frame (16 ms later) runs [update], whose spawn timer passes the
    1400 ms of the tier: a new, unsliced, whole entity is in the entity
    array although the session is, and stays, in GAMEOVER. *)
Theorem C5_gameover_frame_spawns_entity :
  gameState gameOverWithDroplet = GAMEOVER
  /\ entitiesRef gameOverWithDroplet = []
  /\ particlesRef gameOverWithDroplet = [droplet]
  /\ let g' :=
       renderFrame env0 (Some (1920, 1080)) NoHand gameOverWithDroplet in
     gameState g' = GAMEOVER
     /\ statsRef g' = statsRef gameOverWithDroplet
     /\ exists e,
          entitiesRef g' = [e]
          /\ e_isSliced e = false /\ e_isFragment e = None.
Proof.
  split; [reflexivity|]. split; [reflexivity|]. split; [reflexivity|].
  assert (Hdt : Math.min
                  ((performanceNow env0 (perfCalls gameOverWithDroplet)
                    - lastTimeRef gameOverWithDroplet) / 1000) 0.1
                = 0.016).
  { simpl. unfold Math.min, Rmin. rdec. lra. }
  pose proof (idle_frame_spawns env0 1920 1080 NoHand gameOverWithDroplet
                (or_intror eq_refl)) as H.
  cbv zeta in H. rewrite Hdt in H.
  assert (Hp : particlesRef gameOverWithDroplet <> []) by discriminate.
  assert (Hr : forall k, 0 <= mathRandom env0 k) by (intros k; simpl; lra).
  assert (Hh : 0 <= 1080) by lra.
  assert (H0 : 0 <= 0.016) by lra.
  specialize (H Hp Hr Hh H0).
  assert (Hs : spawnRate
                 (if (250 <? scoreRef gameOverWithDroplet)%Z
                  then HARD_DIFFICULTY else INITIAL_DIFFICULTY)
               < spawnTimerRef gameOverWithDroplet + 0.016 * 1000)
    by (simpl; lra).
  destruct (H Hs) as (H1 & H2 & H3 & H4 & H5).
  cbv zeta. split; [exact H1|]. split; [exact H2|].
  eexists. split; [exact H3|]. split; assumption.
Qed.


(** *** Positive decay rates are an invariant of the game *)

Lemma explosionParticle_decay env x y c b dir f n :
  fairDice env -> 0 < p_decay (fst (explosionParticle env x y c b dir f n)).
Proof.
  intros Hr. unfold explosionParticle, rand.
  destruct b; [|destruct (Rltb (mathRandom env _) 0.2)]; simpl; try lra;
    match goal with
    | |- context [mathRandom env ?k] => pose proof (Hr k); lra
    end.
Qed.

Lemma burst_decay env x y c b dir f n :
  fairDice env -> Forall (fun p => 0 < p_decay p) (burst env x y c b dir f n).
Proof.
  intros Hr. unfold burst. apply Forall_app. split.
  - apply explosionLoop_Forall. intros k. now apply explosionParticle_decay.
  - constructor; [simpl; lra|constructor].
Qed.

Lemma fruitHit_particles env p1 dx dy dist e a :
  particlesRef (game (fruitHit env p1 dx dy dist e a))
  = particlesRef (game a)
    ++ burst env (e_x e) (e_y e) (FRUIT_COLORS (e_type e)) false
         (Some (Math.atan2 dy dx)) (Some dist) (randomCalls (game a)).
Proof.
  unfold fruitHit. cbv zeta. cbn [game].
  match goal with
  | |- particlesRef (comboSystem _ _ ?x) = _ =>
      destruct (comboSystem_cells env e x)
        as (_ & _ & _ & _ & _ & _ & _ & _ & -> & _)
  end.
  rewrite createExplosion_shape. reflexivity.
Qed.

Lemma entityBody_decay env p1 dx dy dist e a :
  fairDice env -> decaysPositive (game a) ->
  decaysPositive (game (snd (entityBody env p1 dx dy dist e a))).
Proof.
  intros Hr Ha. unfold decaysPositive in *.
  destruct (isHit p1 dx dy dist e) eqn:H.
  - destruct (isBomb e) eqn:Hb.
    + rewrite (entityBody_bomb env _ _ _ _ _ _ H Hb). cbn [snd game].
      pose proof (bombHit_cells env e (game a)) as HB. cbv zeta in HB.
      destruct HB as (_ & _ & _ & _ & _ & _ & _ & _ & _ & _ & _ & ->).
      apply Forall_app. split; [exact Ha|now apply burst_decay].
    + rewrite (entityBody_fruit env _ _ _ _ _ _ H Hb). cbn [snd].
      rewrite fruitHit_particles. cbn [game].
      apply Forall_app. split; [exact Ha|now apply burst_decay].
  - destruct (entityBody_miss env _ _ _ _ _ a H) as (_ & -> & _). exact Ha.
Qed.

Lemma checkCollisions_decay env w h dt g :
  fairDice env -> decaysPositive g ->
  decaysPositive (checkCollisions env w h dt g).
Proof.
  intros Hr Hg. unfold checkCollisions, collisionScan.
  destruct (lastTwo (trailRef g)) as [[p1 p2]|]; [|exact Hg].
  set (dx := tp_x p2 - tp_x p1). set (dy := tp_y p2 - tp_y p1).
  set (dist := Math.hypot dx dy).
  destruct (Rltb dist 5); [exact Hg|].
  set (body := entityBody env p1 dx dy dist).
  assert (HF : forall es a, decaysPositive (game a) ->
                 decaysPositive (game (snd (forEachEntity body es a)))).
  { induction es as [|e es IH]; intros a Ha; [exact Ha|].
    cbn [forEachEntity].
    pose proof (entityBody_decay env p1 dx dy dist e a Hr Ha) as H1.
    fold body in H1. destruct (body e a) as [e' a'].
    specialize (IH a' H1). destruct (forEachEntity body es a'). exact IH. }
  specialize (HF (entitiesRef g) (mkPass g [] [] false []) Hg).
  destruct (forEachEntity body _ _) as [es a]. cbn [snd] in HF.
  unfold decaysPositive, applyBatch in *.
  destruct (entitiesToRemove a); destruct (scoreChanged a); exact HF.
Qed.

Lemma update_decay env dt w h g :
  decaysPositive g -> decaysPositive (update env dt w h g).
Proof.
  unfold decaysPositive. intros Hg. rewrite update_particles.
  apply Forall_forall. intros p' H. apply filter_In in H as [H _].
  apply stepParticles_In in H as (p & nd' & Hin & ->).
  destruct (stepParticle_life env (dt * 60) p nd') as (_ & -> & _).
  rewrite Forall_forall in Hg. now apply Hg.
Qed.

(** Every state the game reaches has positive decay rates: they hold when
    the component mounts and when a session starts, and a frame keeps
    them. *)
Lemma decaysPositive_invariant env :
  fairDice env ->
  decaysPositive initialGame
  /\ (forall g, decaysPositive (startGame env g))
  /\ (forall canvas vision g,
        decaysPositive g -> decaysPositive (renderFrame env canvas vision g)).
Proof.
  intros Hr. split; [constructor|]. split; [intros g; constructor|].
  intros canvas vision g Hg. unfold renderFrame.
  set (dt := Math.min _ 0.1).
  set (g0 := set_lastTimeRef _ (set_perfCalls _ g)).
  assert (H0 : decaysPositive g0) by exact Hg.
  assert (E0 : gameState g0 = gameState g) by reflexivity.
  clearbody g0.
  destruct canvas as [[w h]|]; [|exact H0].
  assert (HD : decaysPositive (detectHand env vision w h g0)).
  { unfold decaysPositive.
    destruct (detectHand_cells env vision w h g0) as (_ & -> & _).
    exact H0. }
  assert (HW : forall x, decaysPositive x -> decaysPositive (draw w h x)).
  { intros x Hx. unfold decaysPositive.
    destruct (draw_cells w h x) as (_ & _ & _ & ->). exact Hx. }
  apply HW. destruct (gameState g0).
  - exact H0.
  - destruct (particlesRef _); [destruct (floatingTextsRef _)|];
      try exact HD; apply update_decay; exact HD.
  - apply update_decay. now apply checkCollisions_decay.
  - destruct (particlesRef _); [destruct (floatingTextsRef _)|];
      try exact HD; apply update_decay; exact HD.
Qed.

(** *** How a bomb's shake reaches the end of the session *)

Lemma pow09_frame : Math.pow 0.9 (1 / 60 * 60) = 0.9.
Proof.
  replace (1 / 60 * 60) with 1 by field. apply Rpower_1. lra.
Qed.

Lemma pow09_antitone (n m : nat) : (n <= m)%nat -> 0.9 ^ m <= 0.9 ^ n.
Proof.
  intros H. replace m with (n + (m - n))%nat by lia. rewrite pow_add.
  assert (0 < 0.9 ^ n) by (apply pow_lt; lra).
  assert (0.9 ^ (m - n) <= 1).
  { rewrite <- (pow1 (m - n)). apply pow_incr. lra. }
  nra.
Qed.

Lemma pow09_36 : 1 <= 45 * 0.9 ^ 36.
Proof. simpl. lra. Qed.

Lemma pow09_37 : 0.5 <= 45 * 0.9 ^ 37 < 1.
Proof. simpl. lra. Qed.

Lemma frames_S (n : nat) (g : Game) :
  frames (S n) g = update env0 (1 / 60) 1920 1080 (frames n g).
Proof. reflexivity. Qed.

(** For 37 frames after a bomb the session stays in PLAYING while the
    shake decays by 0.9 per frame. *)
Lemma bomb_shake_trajectory (n : nat) :
  (n <= 37)%nat ->
  gameState (frames n afterBomb) = PLAYING
  /\ livesRef (frames n afterBomb) = 0%Z
  /\ shakeIntensityRef (frames n afterBomb) = 45 * 0.9 ^ n.
Proof.
  induction n as [|n IH]; intros Hn.
  - simpl. repeat split; lra.
  - destruct IH as (I1 & I2 & I3); [lia|].
    assert (H1 : 1 <= 45 * 0.9 ^ n).
    { apply Rle_trans with (45 * 0.9 ^ 36); [exact pow09_36|].
      apply Rmult_le_compat_l; [lra|]. apply pow09_antitone. lia. }
    assert (H2 : 0.5 <= 45 * 0.9 ^ S n).
    { apply Rle_trans with (45 * 0.9 ^ 37); [apply pow09_37|].
      apply Rmult_le_compat_l; [lra|]. apply pow09_antitone. lia. }
    rewrite frames_S.
    set (g := frames n afterBomb) in *. clearbody g.
    split; [|split].
    + rewrite update_gameState, I1, I2, I3. simpl.
      assert (E : Rltb (45 * 0.9 ^ n) 1 = false) by (apply Rltb_false; lra).
      now rewrite E.
    + destruct (update_stats env0 (1 / 60) 1920 1080 g) as (_ & _ & ->).
      exact I2.
    + destruct (update_shake_snap env0 (1 / 60) 1920 1080 g) as [_ HS];
        [rewrite I3; lra|].
      rewrite pow09_frame, I3 in HS. rewrite HS; simpl in *; lra.
Qed.

(** After the bomb the session ends on the 38th frame, with the shake
    still at about 0.91: above the snap threshold 0.5, below 1. *)
Lemma bomb_ends_session_above_snap_threshold :
  gameState (frames 37 afterBomb) = PLAYING
  /\ 0.5 <= shakeIntensityRef (frames 37 afterBomb) < 1
  /\ gameState (frames 38 afterBomb) = GAMEOVER.
Proof.
  destruct (bomb_shake_trajectory 37) as (I1 & I2 & I3); [lia|].
  split; [exact I1|]. split; [rewrite I3; exact pow09_37|].
  rewrite (frames_S 37).
  set (g := frames 37 afterBomb) in *. clearbody g.
  rewrite update_gameState, I1, I2, I3.
  change ((0 <=? 0)%Z && GamePhase_eqb PLAYING PLAYING) with true.
  assert (E : Rltb (45 * 0.9 ^ 37) 1 = true)
    by (apply Rltb_true; apply pow09_37).
  now rewrite E.
Qed.

(** * Further properties of the game code *)

(** ** [Math.atan2] gives the direction of the vector *)

Lemma sqrt_one_plus_sqr (a b : R) :
  a <> 0 -> sqrt (1 + (b / a)²) = Math.hypot a b / Rabs a.
Proof.
  intros Ha.
  assert (Hh : 0 < Math.hypot a b).
  { pose proof (hypot_nonneg a b). pose proof (hypot_sqr a b).
    destruct (Req_dec_T (Math.hypot a b) 0) as [E|E]; [|lra].
    rewrite E in H0. nra. }
  assert (Hab : 0 < Rabs a) by now apply Rabs_pos_lt.
  apply sqrt_lem_1.
  - unfold Rsqr. nra.
  - apply Rlt_le, Rdiv_lt_0_compat; assumption.
  - unfold Rsqr.
    transitivity ((Math.hypot a b * Math.hypot a b) / (Rabs a * Rabs a)).
    + field. lra.
    + rewrite hypot_sqr.
      replace (Rabs a * Rabs a) with (a * a)
        by (unfold Rabs; destruct (Rcase_abs a); ring).
      field. exact Ha.
Qed.

Lemma hypot_pos (a b : R) : a <> 0 \/ b <> 0 -> 0 < Math.hypot a b.
Proof.
  intros H. pose proof (hypot_nonneg a b). pose proof (hypot_sqr a b).
  destruct (Req_dec_T (Math.hypot a b) 0) as [E|E]; [|lra].
  rewrite E in H1. destruct H; nra.
Qed.

Lemma atan2_direction (b a : R) :
  a <> 0 \/ b <> 0 ->
  cos (Math.atan2 b a) = a / Math.hypot a b
  /\ sin (Math.atan2 b a) = b / Math.hypot a b.
Proof.
  intros Hne. pose proof (hypot_pos a b Hne) as Hh.
  unfold Math.atan2.
  destruct (Rlt_dec 0 a) as [Hpos|Hnpos].
  - rewrite cos_atan, sin_atan, sqrt_one_plus_sqr by lra.
    rewrite Rabs_right by lra. split; field; lra.
  - destruct (Rlt_dec a 0) as [Hneg|Hnneg].
    + assert (Hs : sqrt (1 + (b / a)²) = Math.hypot a b / - a).
      { rewrite sqrt_one_plus_sqr by lra. now rewrite Rabs_left. }
      destruct (Rle_dec 0 b).
      * rewrite neg_cos, neg_sin, cos_atan, sin_atan, Hs.
        split; field; lra.
      * rewrite cos_minus, sin_minus, cos_PI, sin_PI, cos_atan, sin_atan, Hs.
        split; field; lra.
    + assert (a = 0) by lra. subst a.
      assert (Hb : b <> 0) by (destruct Hne; [contradiction|assumption]).
      assert (Hy : Math.hypot 0 b = Rabs b).
      { unfold Math.hypot. replace (0 * 0 + b * b) with (b²)
          by (unfold Rsqr; ring). apply sqrt_Rsqr_abs. }
      rewrite Hy in *.
      destruct (Rlt_dec 0 b).
      * rewrite cos_PI2, sin_PI2, Rabs_right by lra. split; field; lra.
      * destruct (Rlt_dec b 0); [|lra].
        rewrite cos_neg, sin_neg, cos_PI2, sin_PI2, Rabs_left by lra.
        split; field; lra.
Qed.

(** ** Fragments *)

Lemma perp_angle (t : R) :
  cos (t + PI / 2) = - sin t /\ sin (t + PI / 2) = cos t.
Proof.
  rewrite cos_plus, sin_plus, cos_PI2, sin_PI2. split; ring.
Qed.

(** X1. The two halves of a fruit start at the fruit's position with the
    fruit's velocity plus a fifth of the swipe vector, and are pushed apart
    across the swipe: side +1 gets 1.5 along the left normal
    (-dy, dx)/|swipe|, side -1 the opposite.  So their relative velocity is
    perpendicular to the swipe and has length 3, and their mean velocity is
    the fruit's plus 0.2 * swipe. *)
Theorem X1_fragment_velocities :
  forall p1 dx dy e,
    dx <> 0 \/ dy <> 0 ->
    let dist := Math.hypot dx dy in
    exists fA fB,
      fragmentsOf p1 dx dy dist e = [fA; fB]
      /\ e_x fA = e_x e /\ e_y fA = e_y e
      /\ e_x fB = e_x e /\ e_y fB = e_y e
      /\ e_vx fA = e_vx e + 0.2 * dx - 1.5 * dy / dist
      /\ e_vy fA = e_vy e + 0.2 * dy + 1.5 * dx / dist
      /\ e_vx fB = e_vx e + 0.2 * dx + 1.5 * dy / dist
      /\ e_vy fB = e_vy e + 0.2 * dy - 1.5 * dx / dist
      /\ (e_vx fA - e_vx fB) * dx + (e_vy fA - e_vy fB) * dy = 0
      /\ (e_vx fA - e_vx fB) * (e_vx fA - e_vx fB)
         + (e_vy fA - e_vy fB) * (e_vy fA - e_vy fB) = 9.
Proof.
  intros p1 dx dy e Hne dist.
  pose proof (hypot_pos dx dy Hne) as Hh. fold dist in Hh.
  pose proof (hypot_sqr dx dy) as Hq. fold dist in Hq.
  destruct (atan2_direction dy dx Hne) as [Hc Hs]. fold dist in Hc, Hs.
  destruct (perp_angle (Math.atan2 dy dx)) as [Pc Ps].
  unfold fragmentsOf. eexists. eexists. split; [reflexivity|].
  cbn [createFragment e_x e_y e_vx e_vy]. rewrite Pc, Ps, Hc, Hs.
  assert (Hd : dist <> 0) by lra.
  assert (Hu : (dx / dist) * (dx / dist) + (dy / dist) * (dy / dist) = 1).
  { transitivity ((dx * dx + dy * dy) / (dist * dist)); [field; exact Hd|].
    rewrite <- Hq. field. exact Hd. }
  repeat split; try reflexivity; try (simpl; field; exact Hd).
  simpl. set (u := dx / dist) in *. set (v := dy / dist) in *. nra.
Qed.

Lemma X1_witness_horizontal_swipe :
  (100 <> 0 \/ 0 <> 0)
  /\ exists fA fB,
       fragmentsOf pointA 100 0 (Math.hypot 100 0) sampleApple = [fA; fB]
       /\ (e_vx fA - e_vx fB) * 100 + (e_vy fA - e_vy fB) * 0 = 0.
Proof.
  assert (H : 100 <> 0 \/ 0 <> 0) by (left; lra).
  split; [exact H|].
  destruct (X1_fragment_velocities pointA 100 0 sampleApple H)
    as (fA & fB & E & _ & _ & _ & _ & _ & _ & _ & _ & P & _).
  exists fA, fB. split; [exact E|exact P].
Defined.

(** X2. Each half carries the swipe angle relative to the fruit's
    rotation, so at creation the cut line [draw] shows is along the swipe;
    the arcs [draw] clips the two halves to share the radius (radius + 5),
    each spans PI, and the arc of side -1 starts where the arc of side +1
    ends: together they cover the disc once.  A whole entity is not
    clipped. *)
Theorem X2_fragment_clip_arcs :
  forall p1 dx dy dist e,
    let sliceAngle := Math.atan2 dy dx in
    (forall x, e_isFragment x = None -> clipArc x = None)
    /\ exists fA fB,
         fragmentsOf p1 dx dy dist e = [fA; fB]
         /\ e_rotation fA = e_rotation e /\ e_rotation fB = e_rotation e
         /\ clipArc fA
            = Some (e_radius e + 5,
                    sliceAngle - e_rotation e,
                    sliceAngle - e_rotation e + PI)
         /\ clipArc fB
            = Some (e_radius e + 5,
                    sliceAngle - e_rotation e + PI,
                    sliceAngle - e_rotation e + PI + PI)
         /\ (forall s, e_sliceAngleRelative fA = Some s ->
                       e_rotation fA + s = sliceAngle)
         /\ (forall s, e_sliceAngleRelative fB = Some s ->
                       e_rotation fB + s = sliceAngle).
Proof.
  intros p1 dx dy dist e sliceAngle. split.
  - intros x Hx. unfold clipArc. now rewrite Hx.
  - unfold fragmentsOf. eexists. eexists. split; [reflexivity|].
    unfold clipArc. cbn. fold sliceAngle.
    repeat split; try reflexivity.
    + now rewrite Rplus_0_r.
    + intros s Hs. injection Hs as <-. ring.
    + intros s Hs. injection Hs as <-. ring.
Qed.

Lemma clamp_pm1_range (t : R) : -1 <= Math.max (-1) (Math.min 1 t) <= 1.
Proof.
  unfold Math.max, Math.min, Rmax, Rmin.
  destruct (Rle_dec 1 t); destruct (Rle_dec (-1) _); lra.
Qed.

(** X3. The spins of the two halves differ by exactly 0.1 (side +1 turns
    faster), and their mean differs from the fruit's spin by the clamped
    offset factor times 0.002 * dist: by at most 0.002 * dist. *)
Theorem X3_fragment_spin :
  forall p1 dx dy dist e,
    0 <= dist ->
    exists fA fB,
      fragmentsOf p1 dx dy dist e = [fA; fB]
      /\ e_rotationSpeed fA - e_rotationSpeed fB = 0.1
      /\ Rabs ((e_rotationSpeed fA + e_rotationSpeed fB) / 2
               - e_rotationSpeed e) <= 0.002 * dist.
Proof.
  intros p1 dx dy dist e Hd. unfold fragmentsOf.
  eexists. eexists. split; [reflexivity|].
  cbn [createFragment e_rotationSpeed].
  set (o := Math.max (-1) (Math.min 1 _)).
  assert (Ho : -1 <= o <= 1).
  { unfold o. apply clamp_pm1_range. }
  split; [simpl; lra|].
  replace ((e_rotationSpeed e + (o * dist * 0.002 + 1 * 0.05)
            + (e_rotationSpeed e + (o * dist * 0.002 + -1 * 0.05))) / 2
           - e_rotationSpeed e)
    with (o * (0.002 * dist)) by (simpl; lra).
  apply Rabs_le. nra.
Qed.

Lemma X3_witness_swipe_of_100 :
  0 <= 100
  /\ exists fA fB,
       fragmentsOf pointA 100 0 100 sampleApple = [fA; fB]
       /\ e_rotationSpeed fA - e_rotationSpeed fB = 0.1.
Proof.
  assert (H : 0 <= 100) by lra. split; [exact H|].
  destruct (X3_fragment_spin pointA 100 0 100 sampleApple H)
    as (fA & fB & E & D & _).
  exists fA, fB. split; [exact E|exact D].
Defined.

(** ** The physics step of [update] *)

(** The tier [update] plays at. *)
Lemma tier_cases (s : Z) :
  let d := if (250 <? s)%Z then HARD_DIFFICULTY else INITIAL_DIFFICULTY in
  ((s <= 250)%Z -> d = INITIAL_DIFFICULTY)
  /\ ((250 < s)%Z -> d = HARD_DIFFICULTY).
Proof.
  cbv zeta. destruct (Z.ltb_spec 250 s); split; intros; try reflexivity; lia.
Qed.

(** What one [update] does to the entity array and to the spawn timer, in
    any phase. *)
Lemma update_entities_general env dt w h g :
  let d :=
    if (250 <? scoreRef g)%Z then HARD_DIFFICULTY else INITIAL_DIFFICULTY in
  let due := Rltb (spawnRate d) (spawnTimerRef g + dt * 1000) in
  exists n1,
    entitiesRef (update env dt w h g)
    = filter (onStage h)
        (map (stepEntity d (dt * 60))
           (entitiesRef g
            ++ (if due then [fst (newEntity env w h d n1)] else [])))
    /\ spawnTimerRef (update env dt w h g)
       = (if due then 0 else spawnTimerRef g + dt * 1000).
Proof.
  intros d due. unfold update.
  set (g1 := if (livesRef g <=? 0)%Z && GamePhase_eqb (gameState g) PLAYING
             then _ else g).
  assert (E1 : entitiesRef g1 = entitiesRef g /\ scoreRef g1 = scoreRef g
               /\ spawnTimerRef g1 = spawnTimerRef g).
  { unfold g1. destruct ((livesRef g <=? 0)%Z && _); [|easy].
    destruct (Rltb (shakeIntensityRef g) 1); easy. }
  destruct E1 as (Ea & Eb & Ec). clearbody g1.
  set (g2 := if Rltb 0 (shakeIntensityRef g1) then _ else g1).
  assert (E2 : entitiesRef g2 = entitiesRef g /\ scoreRef g2 = scoreRef g
               /\ spawnTimerRef g2 = spawnTimerRef g).
  { unfold g2. destruct (Rltb 0 (shakeIntensityRef g1)); now rewrite ?Ea, ?Eb,
      ?Ec. }
  clear Ea Eb Ec. destruct E2 as (Ea & Eb & Ec). clearbody g2.
  exists (randomCalls g2).
  rewrite Eb. fold d.
  cbn [spawnTimerRef set_spawnTimerRef]. rewrite Ec. fold due.
  destruct due.
  - rewrite spawnEntity_shape.
    cbn [entitiesRef randomCalls particlesRef dateCalls set_spawnTimerRef
      set_randomCalls set_entitiesRef].
    rewrite Ea.
    match goal with
    | |- context [stepParticles ?e ?t ?ps ?n] =>
        destruct (stepParticles e t ps n)
    end.
    split; reflexivity.
  - cbn [entitiesRef randomCalls particlesRef dateCalls set_spawnTimerRef].
    rewrite Ea, app_nil_r.
    match goal with
    | |- context [stepParticles ?e ?t ?ps ?n] =>
        destruct (stepParticles e t ps n)
    end.
    split; reflexivity.
Qed.

(** X4. Between spawn and removal an entity flies a parabola: after [n]
    steps of time scale [ts] its horizontal velocity is unchanged, its
    vertical velocity has grown by [n * gravity * ts], its rotation by
    [n * rotationSpeed * ts], and its position is
    [x + n vx ts], [y + n vy ts + gravity ts^2 n (n - 1) / 2]
    (the position is advanced with the velocity of the step before). *)
Theorem X4_entity_trajectory :
  forall d ts n e,
    let e' := stepsEntity d ts n e in
    e_id e' = e_id e /\ e_type e' = e_type e /\ e_radius e' = e_radius e
    /\ e_isSliced e' = e_isSliced e /\ e_isFragment e' = e_isFragment e
    /\ e_sliceAngleRelative e' = e_sliceAngleRelative e
    /\ e_vx e' = e_vx e
    /\ e_rotationSpeed e' = e_rotationSpeed e
    /\ e_vy e' = e_vy e + INR n * gravity d * ts
    /\ e_x e' = e_x e + INR n * e_vx e * ts
    /\ e_y e'
       = e_y e + INR n * e_vy e * ts
         + gravity d * ts * ts * (INR n * (INR n - 1) / 2)
    /\ e_rotation e' = e_rotation e + INR n * e_rotationSpeed e * ts.
Proof.
  intros d ts n e. induction n as [|n IH].
  - cbn. repeat split; lra.
  - cbv zeta in *. unfold stepsEntity in *. rewrite Nat.iter_succ.
    set (p := Nat.iter n (stepEntity d ts) e) in *. clearbody p.
    destruct IH as (I1 & I2 & I3 & I4 & I5 & I6 & I7 & I8 & I9 & I10 & I11
                    & I12).
    rewrite S_INR.
    cbn [stepEntity e_id e_type e_radius e_isSliced e_isFragment
      e_sliceAngleRelative e_vx e_rotationSpeed e_vy e_x e_y e_rotation].
    rewrite I1, I2, I3, I4, I5, I6, I7, I8, I9, I10, I11, I12.
    repeat split; try reflexivity; lra.
Qed.

Lemma steps_keep_flags d ts n e :
  e_isSliced (stepsEntity d ts n e) = e_isSliced e
  /\ e_isFragment (stepsEntity d ts n e) = e_isFragment e.
Proof.
  induction n as [|n IH]; [split; reflexivity|].
  unfold stepsEntity in *. rewrite Nat.iter_succ.
  cbn [stepEntity e_isSliced e_isFragment]. exact IH.
Qed.

(** X5. A sliced entity fades at a constant rate: after [n] steps its
    opacity has dropped by [n * 0.03 * ts] if it is a fragment and by
    [n * 0.02 * ts] otherwise (a hit bomb, which also grows by
    [n * 0.01 * ts] in scale); an unsliced entity keeps opacity and scale.
    Hence, for [ts >= 0], opacity never increases, and a sliced entity is
    off stage as soon as the drop reaches its opacity. *)
Theorem X5_sliced_entity_fades :
  forall d ts n e,
    let e' := stepsEntity d ts n e in
    let rate := if isTrue (e_isFragment e) then 0.03 else 0.02 in
    (e_isSliced e = true ->
       e_opacity e' = e_opacity e - INR n * rate * ts
       /\ e_scale e'
          = e_scale e
            + (if isTrue (e_isFragment e) then 0 else INR n * 0.01 * ts))
    /\ (e_isSliced e = false ->
          e_opacity e' = e_opacity e /\ e_scale e' = e_scale e)
    /\ (0 <= ts -> e_opacity e' <= e_opacity e)
    /\ (forall h,
          e_isSliced e = true -> e_opacity e <= INR n * rate * ts ->
          onStage h e' = false).
Proof.
  intros d ts n e e' rate.
  assert (HS : e_isSliced e = true ->
               e_opacity e' = e_opacity e - INR n * rate * ts
               /\ e_scale e'
                  = e_scale e
                    + (if isTrue (e_isFragment e) then 0
                       else INR n * 0.01 * ts)).
  { intros Hs. unfold e'. clear e'. induction n as [|n IH].
    - cbn. destruct (isTrue _); split; lra.
    - destruct (steps_keep_flags d ts n e) as (C1 & C2).
      unfold stepsEntity in *. rewrite Nat.iter_succ.
      set (p := Nat.iter n (stepEntity d ts) e) in *. clearbody p.
      destruct IH as (I1 & I2). rewrite S_INR.
      cbn [stepEntity e_opacity e_scale]. rewrite C1, C2, Hs, I1, I2.
      unfold rate. destruct (isTrue (e_isFragment e)); cbn [negb andb];
        split; lra. }
  assert (HU : e_isSliced e = false ->
               e_opacity e' = e_opacity e /\ e_scale e' = e_scale e).
  { intros Hs. unfold e'. clear e' HS. induction n as [|n IH].
    - cbn. split; reflexivity.
    - destruct (steps_keep_flags d ts n e) as (C1 & C2).
      unfold stepsEntity in *. rewrite Nat.iter_succ.
      set (p := Nat.iter n (stepEntity d ts) e) in *. clearbody p.
      destruct IH as (I1 & I2).
      cbn [stepEntity e_opacity e_scale]. rewrite C1, Hs, I1, I2.
      cbn [andb]. split; reflexivity. }
  split; [exact HS|]. split; [exact HU|]. split.
  - intros Hts. destruct (e_isSliced e) eqn:Hs.
    + destruct (HS eq_refl) as [-> _].
      assert (0 <= INR n * rate * ts).
      { apply Rmult_le_pos; [apply Rmult_le_pos|]; try lra.
        - apply pos_INR.
        - unfold rate. destruct (isTrue _); lra. }
      lra.
    + destruct (HU eq_refl) as [-> _]. lra.
  - intros h Hs Hle. destruct (HS Hs) as [Ho _].
    unfold onStage. rewrite Ho.
    assert (E : Rltb 0 (e_opacity e - INR n * rate * ts) = false)
      by (apply Rltb_false; lra).
    now rewrite E.
Qed.

Lemma X5_witness_fragment_gone_after_34_steps :
  e_isSliced sampleFragment = true
  /\ e_opacity sampleFragment <= INR 34 * 0.03 * 1
  /\ onStage 1080 (stepsEntity INITIAL_DIFFICULTY 1 34 sampleFragment)
     = false.
Proof.
  assert (H : e_opacity sampleFragment <= INR 34 * 0.03 * 1)
    by (simpl; lra).
  split; [reflexivity|]. split; [exact H|].
  exact (proj2 (proj2 (proj2
           (X5_sliced_entity_fades INITIAL_DIFFICULTY 1 34 sampleFragment)))
         1080 eq_refl H).
Defined.

Lemma filter_length_le {A : Type} (f : A -> bool) (l : list A) :
  (List.length (filter f l) <= List.length l)%nat.
Proof.
  induction l as [|a l IH]; simpl; [lia|]. destruct (f a); simpl; lia.
Qed.

Lemma newEntity_radius env w h d n :
  e_radius (fst (newEntity env w h d n)) = 35 * (h / 1080).
Proof.
  unfold newEntity.
  destruct (Rltb (rand env n) (bombChance d)); reflexivity.
Qed.

(** X6. After any [update] every entity of the array is on stage (opacity
    above 0 and not more than 300 below the canvas), each one is either an
    entity of the old array stepped once or the stepped newborn, and the
    array has grown by one entity at most. *)
Theorem X6_update_keeps_entities_on_stage :
  forall env dt w h g,
    let g' := update env dt w h g in
    let d :=
      if (250 <? scoreRef g)%Z then HARD_DIFFICULTY else INITIAL_DIFFICULTY in
    Forall (fun e => 0 < e_opacity e /\ e_y e < h + 300) (entitiesRef g')
    /\ (List.length (entitiesRef g') <= List.length (entitiesRef g) + 1)%nat
    /\ (forall e', In e' (entitiesRef g') ->
          (exists e, In e (entitiesRef g) /\ e' = stepEntity d (dt * 60) e)
          \/ (e_isSliced e' = false /\ e_isFragment e' = None
              /\ spawnRate d < spawnTimerRef g + dt * 1000)).
Proof.
  intros env dt w h g g' d.
  destruct (update_entities_general env dt w h g) as (n1 & HE & _).
  cbv zeta in HE. fold d g' in HE. rewrite HE.
  split; [|split].
  - apply Forall_forall. intros e He. apply filter_In in He as [_ He].
    unfold onStage in He. apply andb_prop in He as [H1 H2].
    apply Rltb_true in H1. apply Rltb_true in H2. split; assumption.
  - eapply Nat.le_trans; [apply filter_length_le|].
    rewrite length_map, length_app.
    destruct (Rltb _ _); simpl; lia.
  - intros e' He. apply filter_In in He as [He _].
    apply in_map_iff in He as (e & <- & He).
    apply in_app_or in He as [He|He].
    + left. exists e. split; [exact He|reflexivity].
    + right. destruct (Rltb (spawnRate d) _) eqn:E; [|destruct He].
      destruct He as [<-|[]].
      pose proof (newEntity_fresh env w h d n1) as HF. cbv zeta in HF.
      destruct HF as (F1 & F2 & _).
      cbn [stepEntity e_isSliced e_isFragment].
      apply Rltb_true in E. auto.
Qed.

(** X7. The spawn timer runs in milliseconds against the tier of the
    score: 1400 ms up to 250 points, 900 ms above.  An [update] that brings
    the timer past the tier's rate resets it to 0 and, with dice in [0, 1)
    on a canvas of non-negative height, adds exactly one entity to the
    stepped survivors of the old array; any other [update] adds none and
    leaves the timer advanced by [dt * 1000]. *)
Theorem X7_spawn_timer :
  forall env dt w h g,
    (forall k, 0 <= mathRandom env k) -> 0 <= h -> 0 <= dt ->
    let g' := update env dt w h g in
    let d :=
      if (250 <? scoreRef g)%Z then HARD_DIFFICULTY else INITIAL_DIFFICULTY in
    let rate := if (250 <? scoreRef g)%Z then 900 else 1400 in
    let survivors :=
      filter (onStage h) (map (stepEntity d (dt * 60)) (entitiesRef g)) in
    spawnRate d = rate
    /\ (rate < spawnTimerRef g + dt * 1000 ->
        spawnTimerRef g' = 0
        /\ exists born,
             entitiesRef g' = survivors ++ [born]
             /\ e_isSliced born = false /\ e_radius born = 35 * (h / 1080))
    /\ (spawnTimerRef g + dt * 1000 <= rate ->
        spawnTimerRef g' = spawnTimerRef g + dt * 1000
        /\ entitiesRef g' = survivors).
Proof.
  intros env dt w h g Hr Hh Hdt g' d rate survivors.
  assert (Hrate : spawnRate d = rate).
  { unfold d, rate. destruct (250 <? scoreRef g)%Z; reflexivity. }
  destruct (update_entities_general env dt w h g) as (n1 & HE & HT).
  cbv zeta in HE, HT. fold d g' in HE, HT. rewrite Hrate in HE, HT.
  split; [exact Hrate|]. split.
  - intros Hdue. apply Rltb_true in Hdue. rewrite Hdue in HE, HT.
    split; [exact HT|].
    exists (stepEntity d (dt * 60) (fst (newEntity env w h d n1))).
    rewrite HE, map_app, filter_app. cbn [map filter].
    rewrite (newEntity_stays env w h d n1 (dt * 60) Hr);
      [|unfold d; destruct (250 <? scoreRef g)%Z; simpl; lra
       |exact Hh|lra].
    split; [reflexivity|].
    pose proof (newEntity_fresh env w h d n1) as HF. cbv zeta in HF.
    destruct HF as (F1 & _).
    cbn [stepEntity e_isSliced e_radius]. split; [exact F1|].
    apply newEntity_radius.
  - intros Hnot. apply Rltb_false in Hnot. rewrite Hnot in HE, HT.
    split; [exact HT|]. rewrite HE, app_nil_r. reflexivity.
Qed.

Lemma X7_witness_timer_due :
  (forall k, 0 <= mathRandom env0 k) /\ 0 <= 1080 /\ 0 <= 0.016
  /\ spawnTimerRef (update env0 0.016 1920 1080 gameOverWithDroplet) = 0.
Proof.
  assert (Hr : forall k, 0 <= mathRandom env0 k) by (intros k; simpl; lra).
  assert (Hh : 0 <= 1080) by lra.
  assert (Hd : 0 <= 0.016) by lra.
  split; [exact Hr|]. split; [exact Hh|]. split; [exact Hd|].
  apply (proj1 (proj2 (X7_spawn_timer env0 0.016 1920 1080
                         gameOverWithDroplet Hr Hh Hd))).
  simpl. lra.
Defined.

(** ** Floating texts and the trail *)

Lemma stepParticles_clock env ts ps :
  forall nd,
    snd (stepParticles env ts ps nd)
    = (nd + List.length (filter p_stuck ps))%nat.
Proof.
  induction ps as [|p ps IH]; intros nd; cbn [stepParticles filter].
  - simpl. lia.
  - unfold stepParticle at 1. destruct (p_stuck p).
    + specialize (IH (S nd)).
      destruct (stepParticles env ts ps (S nd)) as [rest nd'].
      cbn [snd List.length] in *. lia.
    + specialize (IH nd).
      destruct (stepParticles env ts ps nd) as [rest nd'].
      cbn [snd] in *. exact IH.
Qed.

(** The floating texts, the trail and the clock after one [update]. *)
Lemma update_texts_trail env dt w h g :
  let now :=
    dateNow env
      (dateCalls g + List.length (filter p_stuck (particlesRef g))) in
  floatingTextsRef (update env dt w h g)
  = filter (fun ft => Rltb 0 (ft_life ft))
      (map (stepFloatingText (dt * 60)) (floatingTextsRef g))
  /\ trailRef (update env dt w h g)
     = filter (fun p => (now - tp_timestamp p <? SLICE_LIFETIME)%Z)
         (trailRef g).
Proof.
  intros now. unfold update.
  set (g1 := if (livesRef g <=? 0)%Z && GamePhase_eqb (gameState g) PLAYING
             then _ else g).
  assert (E1 : floatingTextsRef g1 = floatingTextsRef g
               /\ trailRef g1 = trailRef g
               /\ particlesRef g1 = particlesRef g
               /\ dateCalls g1 = dateCalls g).
  { unfold g1. destruct ((livesRef g <=? 0)%Z && _); [|easy].
    destruct (Rltb (shakeIntensityRef g) 1); easy. }
  destruct E1 as (Ea & Eb & Ec & Ed). clearbody g1.
  set (g2 := if Rltb 0 (shakeIntensityRef g1) then _ else g1).
  assert (E2 : floatingTextsRef g2 = floatingTextsRef g
               /\ trailRef g2 = trailRef g
               /\ particlesRef g2 = particlesRef g
               /\ dateCalls g2 = dateCalls g).
  { unfold g2. destruct (Rltb 0 (shakeIntensityRef g1));
      now rewrite ?Ea, ?Eb, ?Ec, ?Ed. }
  clear Ea Eb Ec Ed. destruct E2 as (Ea & Eb & Ec & Ed). clearbody g2.
  set (d := if (250 <? scoreRef g2)%Z then _ else _).
  set (g3 := set_spawnTimerRef _ g2).
  set (g4 := if Rltb (spawnRate d) (spawnTimerRef g3) then _ else g3).
  assert (E4 : floatingTextsRef g4 = floatingTextsRef g
               /\ trailRef g4 = trailRef g
               /\ particlesRef g4 = particlesRef g
               /\ dateCalls g4 = dateCalls g).
  { unfold g4. destruct (Rltb (spawnRate d) (spawnTimerRef g3)).
    - rewrite spawnEntity_shape. unfold g3. cbn. auto.
    - unfold g3. cbn. auto. }
  clear Ea Eb Ec Ed. destruct E4 as (Ea & Eb & Ec & Ed). clearbody g4.
  cbn [particlesRef dateCalls set_entitiesRef]. rewrite Ec, Ed.
  pose proof (stepParticles_clock env (dt * 60) (particlesRef g)
                (dateCalls g)) as HC.
  destruct (stepParticles env (dt * 60) (particlesRef g) (dateCalls g))
    as [ps nd].
  cbn [snd] in HC. subst nd. cbn. rewrite Ea, Eb. fold now.
  split; reflexivity.
Qed.

(** X8. After an [update] every floating text left has life above 0, and
    each is a text of the old array moved by its velocity, with the same
    words and colour, 0.02 * dt * 60 less life and 0.01 * dt * 60 more
    scale: a text lives exactly until its life reaches 0, whatever the
    phase. *)
Theorem X8_floating_texts :
  forall env dt w h g,
    let g' := update env dt w h g in
    let ts := dt * 60 in
    (forall ft', In ft' (floatingTextsRef g') ->
       0 < ft_life ft'
       /\ exists ft,
            In ft (floatingTextsRef g)
            /\ ft_text ft' = ft_text ft /\ ft_color ft' = ft_color ft
            /\ ft_life ft' = ft_life ft - 0.02 * ts
            /\ ft_scale ft' = ft_scale ft + 0.01 * ts
            /\ ft_x ft' = ft_x ft + ft_vx ft * ts
            /\ ft_y ft' = ft_y ft + ft_vy ft * ts)
    /\ (forall ft, In ft (floatingTextsRef g) ->
          0.02 * ts < ft_life ft ->
          In (stepFloatingText ts ft) (floatingTextsRef g'))
    /\ (forall ft, In ft (floatingTextsRef g) ->
          ft_life ft <= 0.02 * ts ->
          ~ In (stepFloatingText ts ft) (floatingTextsRef g')).
Proof.
  intros env dt w h g g' ts.
  destruct (update_texts_trail env dt w h g) as [HT _].
  fold g' ts in HT. rewrite HT.
  split; [|split].
  - intros ft' H. apply filter_In in H as [H L]. apply Rltb_true in L.
    split; [exact L|].
    apply in_map_iff in H as (ft & <- & Hin).
    exists ft. repeat split; assumption || reflexivity.
  - intros ft Hin Hl. apply filter_In. split.
    + apply in_map. exact Hin.
    + apply Rltb_true. simpl. lra.
  - intros ft Hin Hl H. apply filter_In in H as [_ L].
    apply Rltb_true in L. simpl in L. lra.
Qed.

(** X9. After an [update] the trail holds exactly the points of the old
    trail that are less than 250 ms older than the clock value [update]
    reads for the trail (its last clock read, after one read per stuck
    particle), in their old order. *)
Theorem X9_trail_pruning :
  forall env dt w h g,
    let g' := update env dt w h g in
    let now :=
      dateNow env
        (dateCalls g + List.length (filter p_stuck (particlesRef g))) in
    Forall (fun p => (now - tp_timestamp p < 250)%Z) (trailRef g')
    /\ (forall p, In p (trailRef g') <->
                  In p (trailRef g) /\ (now - tp_timestamp p < 250)%Z)
    /\ trailRef g'
       = filter (fun p => (now - tp_timestamp p <? 250)%Z) (trailRef g)
    /\ (List.length (trailRef g') <= List.length (trailRef g))%nat.
Proof.
  intros env dt w h g g' now.
  destruct (update_texts_trail env dt w h g) as [_ HT].
  fold g' now in HT. unfold SLICE_LIFETIME in HT. rewrite HT.
  split; [|split; [|split]].
  - apply Forall_forall. intros p H. apply filter_In in H as [_ H].
    now apply Z.ltb_lt.
  - intros p. rewrite filter_In, Z.ltb_lt. reflexivity.
  - reflexivity.
  - apply filter_length_le.
Qed.

(** ** Screen shake *)

Lemma pow09_range (t : R) : 0 <= t -> 0 < Math.pow 0.9 t <= 1.
Proof.
  intros Ht. unfold Math.pow, Rpower. split; [apply exp_pos|].
  assert (Hl : ln 0.9 < 0).
  { rewrite <- ln_1. apply ln_increasing; lra. }
  destruct (Req_dec_T t 0) as [->|Hne].
  - rewrite Rmult_0_l, exp_0. lra.
  - left. rewrite <- exp_0. apply exp_increasing. nra.
Qed.

Lemma update_shake env dt w h g :
  shakeIntensityRef (update env dt w h g)
  = if Rltb 0 (shakeIntensityRef g) then
      (if Rltb (shakeIntensityRef g * Math.pow 0.9 (dt * 60)) 0.5 then 0
       else shakeIntensityRef g * Math.pow 0.9 (dt * 60))
    else shakeIntensityRef g.
Proof.
  unfold update.
  set (g1 := if (livesRef g <=? 0)%Z && GamePhase_eqb (gameState g) PLAYING
             then _ else g).
  assert (E1 : shakeIntensityRef g1 = shakeIntensityRef g).
  { unfold g1. destruct ((livesRef g <=? 0)%Z && _); [|reflexivity].
    destruct (Rltb (shakeIntensityRef g) 1); reflexivity. }
  clearbody g1. rewrite <- E1.
  set (g2 := if Rltb 0 (shakeIntensityRef g1) then _ else g1).
  assert (E2 : shakeIntensityRef g2
               = if Rltb 0 (shakeIntensityRef g1) then
                   (if Rltb (shakeIntensityRef g1 * Math.pow 0.9 (dt * 60))
                         0.5
                    then 0
                    else shakeIntensityRef g1 * Math.pow 0.9 (dt * 60))
                 else shakeIntensityRef g1).
  { unfold g2. destruct (Rltb 0 (shakeIntensityRef g1)); reflexivity. }
  rewrite <- E2. clearbody g2.
  set (d := if (250 <? scoreRef g2)%Z then _ else _).
  set (g3 := set_spawnTimerRef _ g2).
  set (g4 := if Rltb (spawnRate d) (spawnTimerRef g3) then _ else g3).
  assert (E4 : shakeIntensityRef g4 = shakeIntensityRef g2).
  { unfold g4. destruct (Rltb (spawnRate d) (spawnTimerRef g3)); [|easy].
    rewrite spawnEntity_shape. reflexivity. }
  rewrite <- E4. clearbody g4. cbn [particlesRef dateCalls set_entitiesRef].
  match goal with
  | |- context [stepParticles ?e ?t ?ps ?n] =>
      destruct (stepParticles e t ps n)
  end.
  reflexivity.
Qed.

(** X10. Over an [update] with [dt >= 0] a non-negative screen shake never
    grows and never turns negative, and afterwards it is either exactly 0
    or at least 0.5 (below 0.5 it is snapped to 0); a shake of 0 stays 0. *)
Theorem X10_shake_decays :
  forall env dt w h g,
    0 <= dt -> 0 <= shakeIntensityRef g ->
    let s' := shakeIntensityRef (update env dt w h g) in
    0 <= s' <= shakeIntensityRef g
    /\ (s' = 0 \/ 0.5 <= s')
    /\ (shakeIntensityRef g = 0 -> s' = 0)
    /\ (0.5 <= shakeIntensityRef g * Math.pow 0.9 (dt * 60) ->
        s' = shakeIntensityRef g * Math.pow 0.9 (dt * 60)).
Proof.
  intros env dt w h g Hdt Hs s'. unfold s'. rewrite update_shake.
  destruct (pow09_range (dt * 60)) as [P1 P2]; [lra|].
  set (s := shakeIntensityRef g) in *. set (p := Math.pow 0.9 (dt * 60)) in *.
  destruct (Rltb 0 s) eqn:E0;
    [apply Rltb_true in E0 | apply Rltb_false in E0].
  - destruct (Rltb (s * p) 0.5) eqn:E1;
      [apply Rltb_true in E1 | apply Rltb_false in E1].
    + repeat split; intros; try lra; first [left; lra | right; lra].
    + repeat split; intros; try nra; first [left; lra | right; lra].
  - assert (s = 0) by lra.
    repeat split; intros; try lra; try nra.
Qed.

Lemma X10_witness_after_bomb :
  0 <= 1 / 60 /\ 0 <= shakeIntensityRef afterBomb
  /\ shakeIntensityRef (update env0 (1 / 60) 1920 1080 afterBomb)
     <= shakeIntensityRef afterBomb.
Proof.
  assert (Hd : 0 <= 1 / 60) by lra.
  assert (Hs : 0 <= shakeIntensityRef afterBomb) by (simpl; lra).
  split; [exact Hd|]. split; [exact Hs|].
  exact (proj2 (proj1 (X10_shake_decays env0 (1 / 60) 1920 1080 afterBomb
                         Hd Hs))).
Defined.

(** ** Random picks *)

(** [list[Math.floor(Math.random() * list.length)]] is an element of the
    list: the index is never out of range. *)
Lemma random_pick_in_range {A : Type} (l : list A) (dflt : A) (r : R) :
  0 <= r < 1 -> l <> [] ->
  In (nth (Z.to_nat (Math.floor (r * INR (List.length l)))) l dflt) l.
Proof.
  intros Hr Hl. apply nth_In.
  assert (Hlen : 0 < INR (List.length l)).
  { apply lt_0_INR. destruct l; [contradiction|simpl; lia]. }
  unfold Math.floor.
  destruct (base_Int_part (r * INR (List.length l))) as [H1 H2].
  assert (H3 : IZR (Int_part (r * INR (List.length l)))
               < IZR (Z.of_nat (List.length l))).
  { rewrite <- INR_IZR_INZ. nra. }
  apply lt_IZR in H3.
  assert (0 < List.length l)%nat by (destruct l; [contradiction|simpl; lia]).
  lia.
Qed.

Lemma fruit_types_exclude_bomb (t : FruitType) :
  In t FRUIT_TYPES -> t <> BOMB.
Proof.
  unfold FRUIT_TYPES. simpl. intuition; subst; discriminate.
Qed.

(** X11. With dice in [0, 1), on a canvas wider than 200 and of positive
    height, [spawnEntity] pushes a well-formed entity: a bomb exactly when
    the first draw is below the tier's bomb chance, otherwise one of the 16
    fruit kinds (never undefined, never the bomb); it starts 50 below the
    canvas, between 100 and [width - 100] across, moving upward with a
    speed between the tier's bounds scaled by [height / 1080]; its radius
    is [35 * height / 1080 > 0]; it is unsliced, opaque, unscaled, unrotated
    and spins at no more than 0.075 per tick either way. *)
Theorem X11_spawned_entity_well_formed :
  forall env w h d n,
    fairDice env -> 200 < w -> 0 < h -> 0 <= minSpeed d <= maxSpeed d ->
    let e := fst (newEntity env w h d n) in
    (mathRandom env n < bombChance d -> e_type e = BOMB)
    /\ (bombChance d <= mathRandom env n ->
        In (e_type e) FRUIT_TYPES /\ e_type e <> BOMB)
    /\ 100 <= e_x e < w - 100
    /\ e_y e = h + 50
    /\ - maxSpeed d * (h / 1080) <= e_vy e <= - minSpeed d * (h / 1080)
    /\ e_vy e <= 0
    /\ e_radius e = 35 * (h / 1080) /\ 0 < e_radius e
    /\ -0.075 <= e_rotationSpeed e < 0.075
    /\ e_rotation e = 0 /\ e_isSliced e = false /\ e_isFragment e = None
    /\ e_opacity e = 1 /\ e_scale e = 1 /\ e_flash e = 0.
Proof.
  intros env w h d n Hr Hw Hh Hd e.
  assert (Hs : 0 < h / 1080) by (apply Rdiv_lt_0_compat; lra).
  unfold e, newEntity, rand.
  destruct (Rltb (mathRandom env n) (bombChance d)) eqn:E;
    [apply Rltb_true in E | apply Rltb_false in E];
    cbn [fst e_type e_x e_y e_vy e_radius e_rotationSpeed e_rotation
         e_isSliced e_isFragment e_opacity e_scale e_flash];
    unfold FRUIT_RADIUS;
    repeat match goal with
    | |- context [mathRandom env ?k] =>
        let H := fresh "R" in
        pose proof (Hr k) as H;
        let r := fresh "r" in set (r := mathRandom env k) in *; clearbody r
    end;
    (split; [intros; try reflexivity; try lra|]);
    (split; [intros; try lra|]);
    try (assert (Hv : forall r0, 0 <= r0 < 1 ->
                  minSpeed d <= r0 * (maxSpeed d - minSpeed d) + minSpeed d
                  <= maxSpeed d) by (intros; nra));
    repeat split; try reflexivity; try nra;
    try (match goal with
         | H : 0 <= ?q < 1 |- context [?q * (maxSpeed d - minSpeed d)] =>
             pose proof (Hv q H)
         end;
         set (s := h / 1080) in *; nra);
    try (apply random_pick_in_range; [assumption|discriminate]);
    try (apply fruit_types_exclude_bomb, random_pick_in_range;
         [assumption|discriminate]).
Qed.

Lemma env0_fair : fairDice env0.
Proof. intros n. simpl. lra. Qed.

Lemma X11_witness_full_hd :
  fairDice env0 /\ 200 < 1920 /\ 0 < 1080
  /\ 0 <= minSpeed INITIAL_DIFFICULTY <= maxSpeed INITIAL_DIFFICULTY
  /\ 0 < e_radius (fst (newEntity env0 1920 1080 INITIAL_DIFFICULTY 0)).
Proof.
  assert (Hw : 200 < 1920) by lra.
  assert (Hh : 0 < 1080) by lra.
  assert (Hd : 0 <= minSpeed INITIAL_DIFFICULTY
               <= maxSpeed INITIAL_DIFFICULTY) by (simpl; lra).
  split; [exact env0_fair|]. split; [exact Hw|]. split; [exact Hh|].
  split; [exact Hd|].
  exact (proj1 (proj2 (proj2 (proj2 (proj2 (proj2 (proj2 (proj2
           (X11_spawned_entity_well_formed env0 1920 1080
              INITIAL_DIFFICULTY 0 env0_fair Hw Hh Hd))))))))).
Defined.

(** X12. [endGame] freezes the session: the phase becomes GAMEOVER, the
    final statistics are a copy of the live ones (which it leaves as they
    are, like the score, the lives and every collection), and with dice in
    [0, 1) the flavour line is one of the seven winning quotes when the
    score is above 50 and one of the seven losing quotes otherwise (never
    undefined). *)
Theorem X12_endGame_snapshot :
  forall env g,
    fairDice env ->
    let g' := endGame env g in
    gameState g' = GAMEOVER
    /\ finalStats g' = Some (statsRef g)
    /\ statsRef g' = statsRef g /\ scoreRef g' = scoreRef g
    /\ livesRef g' = livesRef g /\ entitiesRef g' = entitiesRef g
    /\ particlesRef g' = particlesRef g
    /\ ((50 < score (statsRef g))%Z -> In (gameOverQuote g') WINNING_QUOTES)
    /\ ((score (statsRef g) <= 50)%Z -> In (gameOverQuote g') LOSING_QUOTES).
Proof.
  intros env g Hr g'. unfold g', endGame.
  cbn [gameState finalStats statsRef scoreRef livesRef entitiesRef
       particlesRef gameOverQuote randomCalls set_gameState set_finalStats
       set_gameOverQuote set_randomCalls].
  repeat split; try reflexivity.
  - intros H. apply Z.ltb_lt in H. rewrite H.
    apply random_pick_in_range; [apply Hr|discriminate].
  - intros H. apply Z.ltb_ge in H. rewrite H.
    apply random_pick_in_range; [apply Hr|discriminate].
Qed.

Lemma X12_witness_losing_quote :
  fairDice env0
  /\ (score (statsRef afterBomb) <= 50)%Z
  /\ In (gameOverQuote (endGame env0 afterBomb)) LOSING_QUOTES.
Proof.
  assert (H : (score (statsRef afterBomb) <= 50)%Z) by (simpl; lia).
  split; [exact env0_fair|]. split; [exact H|].
  exact (proj2 (proj2 (proj2 (proj2 (proj2 (proj2 (proj2 (proj2
           (X12_endGame_snapshot env0 afterBomb env0_fair)))))))) H).
Defined.


(** ** Fruit bursts *)

Lemma juice_particle env color x y a f n :
  fairDice env -> 0 < f ->
  isJuiceDrop color x y a f
    (fst (explosionParticle env x y color false (Some a) (Some f) n)).
Proof.
  intros Hr Hf. unfold isJuiceDrop, explosionParticle, rand.
  assert (E0 : Reqb f 0 = false) by (apply Reqb_false; lra).
  rewrite E0.
  assert (Hm : 0 < Math.min f 40).
  { unfold Math.min, Rmin. destruct (Rle_dec f 40); lra. }
  destruct (Rltb (mathRandom env (S (S n))) 0.2);
    cbn [fst p_type p_color p_x p_y p_scale p_size p_stuck p_vx p_vy p_life
         p_decay p_gravity];
    repeat match goal with
    | |- context [mathRandom env ?k] =>
        let H := fresh "R" in
        pose proof (Hr k) as H;
        let r := fresh "r" in set (r := mathRandom env k) in *; clearbody r
    end;
    (repeat (split; [first [reflexivity | lra]|])).
  - left. repeat split; reflexivity || lra.
  - right. repeat (split; [first [reflexivity | lra]|]).
    eexists. eexists. split; [|split; [|split; reflexivity]].
    + lra.
    + split; nra.
Qed.

Lemma explosionParticle_calls env x y c b dir f n :
  (n <= snd (explosionParticle env x y c b dir f n))%nat.
Proof.
  unfold explosionParticle.
  destruct b; [|destruct (Rltb (rand env (S (S n))) 0.2)];
    cbn [snd]; lia.
Qed.

Lemma explosionLoop_calls env x y c b dir f count :
  forall ps n, (n <= snd (explosionLoop env x y c b dir f count ps n))%nat.
Proof.
  induction count as [|k IH]; intros ps n; [simpl; lia|].
  rewrite explosionLoop_S.
  eapply Nat.le_trans; [apply (explosionParticle_calls env x y c b dir f n)|].
  apply IH.
Qed.

(** X13. With dice in [0, 1), the explosion of a fruit sliced along the
    angle [a] with force [f > 0] appends, to the particles already there,
    exactly 25 JUICE particles of the fruit's colour and then one white CORE
    flash, all at the fruit's centre.  Each JUICE particle is either a lens
    droplet (stuck, at rest, life 2, decay 0.005) or a free drop of life 1
    thrown within 0.4 rad of [a] at a speed below
    [15 + 0.4 * min(f, 40)], with decay in [0.02, 0.05). *)
Theorem X13_fruit_burst :
  forall env x y color a f g,
    fairDice env -> 0 < f ->
    let g' := createExplosion env x y color false (Some a) (Some f) g in
    exists drops core,
      particlesRef g' = particlesRef g ++ drops ++ [core]
      /\ List.length drops = 25%nat
      /\ Forall (isJuiceDrop color x y a f) drops
      /\ p_type core = CORE /\ p_color core = "#ffffff"
      /\ p_x core = x /\ p_y core = y /\ p_vx core = 0 /\ p_vy core = 0
      /\ p_life core = 1 /\ p_decay core = 0.15 /\ p_size core = 80
      /\ p_stuck core = false
      /\ (randomCalls g < randomCalls g')%nat.
Proof.
  intros env x y color a f g Hr Hf g'. unfold g'.
  rewrite createExplosion_shape. unfold burst.
  eexists. eexists. split; [reflexivity|].
  split; [apply explosionLoop_length|].
  split; [apply explosionLoop_Forall; intros n;
          now apply juice_particle|].
  cbn [coreParticle p_type p_color p_x p_y p_vx p_vy p_life p_decay p_size
       p_stuck randomCalls set_randomCalls].
  repeat split; try reflexivity.
  apply Nat.lt_succ_r. apply explosionLoop_calls.
Qed.

Lemma X13_witness_swipe_force_100 :
  fairDice env0 /\ 0 < 100
  /\ exists drops core,
       particlesRef
         (createExplosion env0 50 0 "#ff4d4d" false (Some 0) (Some 100)
            fastSwipe)
       = particlesRef fastSwipe ++ drops ++ [core]
       /\ List.length drops = 25%nat.
Proof.
  assert (Hf : 0 < 100) by lra.
  split; [exact env0_fair|]. split; [exact Hf|].
  destruct (X13_fruit_burst env0 50 0 "#ff4d4d" 0 100 fastSwipe env0_fair Hf)
    as (drops & core & E & L & _).
  exists drops, core. split; [exact E|exact L].
Defined.

(** ** The detector, once more *)

(** The cells a hit never writes. *)
Lemma comboSystem_frame env e g :
  gameState (comboSystem env e g) = gameState g
  /\ trailRef (comboSystem env e g) = trailRef g
  /\ hudStats (comboSystem env e g) = hudStats g.
Proof.
  unfold comboSystem, comboContinues.
  destruct (_ <? 400)%Z; [destruct (1 <? _)%Z|]; repeat split; reflexivity.
Qed.

Lemma fruitHit_frame env p1 dx dy dist e a :
  gameState (game (fruitHit env p1 dx dy dist e a)) = gameState (game a)
  /\ trailRef (game (fruitHit env p1 dx dy dist e a)) = trailRef (game a)
  /\ hudStats (game (fruitHit env p1 dx dy dist e a)) = hudStats (game a).
Proof.
  unfold fruitHit. cbv zeta. cbn [game].
  match goal with
  | |- gameState (comboSystem _ _ ?x) = _ /\ _ =>
      destruct (comboSystem_frame env e x) as (-> & -> & ->)
  end.
  rewrite createExplosion_shape. repeat split; reflexivity.
Qed.

Lemma bombHit_frame env e g :
  gameState (snd (bombHit env e g)) = gameState g
  /\ trailRef (snd (bombHit env e g)) = trailRef g
  /\ hudStats (snd (bombHit env e g)) = hudStats g.
Proof.
  unfold bombHit. rewrite createExplosion_shape. repeat split; reflexivity.
Qed.

Lemma detectorStep_refl g : detectorStep g g.
Proof.
  unfold detectorStep. repeat split; try reflexivity; try lia; now left.
Qed.

Lemma detectorStep_trans g1 g2 g3 :
  detectorStep g1 g2 -> detectorStep g2 g3 -> detectorStep g1 g3.
Proof.
  unfold detectorStep. intros (A1 & A2 & A3 & A4) (B1 & B2 & B3 & B4).
  repeat split; try congruence; lia.
Qed.

Lemma entityBody_detectorStep env p1 dx dy dist e a :
  detectorStep (game a) (game (snd (entityBody env p1 dx dy dist e a))).
Proof.
  destruct (isHit p1 dx dy dist e) eqn:H.
  - destruct (isBomb e) eqn:Hb.
    + rewrite (entityBody_bomb env _ _ _ _ _ _ H Hb). cbn [snd game].
      pose proof (bombHit_cells env e (game a)) as HB. cbv zeta in HB.
      destruct HB as (_ & L & B & _).
      destruct (bombHit_frame env e (game a)) as (F1 & F2 & _).
      unfold detectorStep. rewrite F1, F2, L, B.
      repeat split; lia.
    + rewrite (entityBody_fruit env _ _ _ _ _ _ H Hb). cbn [snd].
      set (a' := mkPass _ _ _ _ _).
      pose proof (fruitHit_cells env p1 dx dy dist e a') as HF.
      cbv zeta in HF. cbn [game a'] in HF.
      destruct HF as (_ & _ & _ & _ & _ & _ & B & L & _).
      destruct (fruitHit_frame env p1 dx dy dist e a') as (F1 & F2 & _).
      cbn [game a'] in F1, F2.
      unfold detectorStep. rewrite F1, F2, L, B.
      repeat split; lia.
  - destruct (entityBody_miss env _ _ _ _ _ a H) as (_ & -> & _).
    apply detectorStep_refl.
Qed.

Lemma applyBatch_frame es a :
  gameState (applyBatch es a) = gameState (game a)
  /\ trailRef (applyBatch es a) = trailRef (game a)
  /\ livesRef (applyBatch es a) = livesRef (game a).
Proof.
  unfold applyBatch.
  destruct (entitiesToRemove a); destruct (scoreChanged a);
    repeat split; reflexivity.
Qed.

Lemma checkCollisions_detectorStep env w h dt g :
  detectorStep g (checkCollisions env w h dt g).
Proof.
  unfold checkCollisions, collisionScan.
  destruct (lastTwo (trailRef g)) as [[p1 p2]|]; [|apply detectorStep_refl].
  set (dx := tp_x p2 - tp_x p1). set (dy := tp_y p2 - tp_y p1).
  set (dist := Math.hypot dx dy).
  destruct (Rltb dist 5); [apply detectorStep_refl|].
  set (body := entityBody env p1 dx dy dist).
  assert (HF : forall es a,
             detectorStep (game a) (game (snd (forEachEntity body es a)))).
  { induction es as [|e es IH]; intros a; [apply detectorStep_refl|].
    cbn [forEachEntity].
    pose proof (entityBody_detectorStep env p1 dx dy dist e a) as H1.
    fold body in H1. destruct (body e a) as [e' a'].
    specialize (IH a'). destruct (forEachEntity body es a').
    cbn [snd] in *. eapply detectorStep_trans; eassumption. }
  specialize (HF (entitiesRef g) (mkPass g [] [] false [])).
  destruct (forEachEntity body _ _) as [es a]. cbn [snd game] in HF.
  destruct (applyBatch_frame es a) as (A1 & A2 & A3).
  unfold detectorStep in *. rewrite A1, A2, A3, applyBatch_stats. exact HF.
Qed.

(** X14. The detector never changes the phase (a session ends in [update]
    only) and never touches the trail; it never lowers the bomb count; and
    it changes the lives only by setting them to 0 in a pass that hit a
    bomb. *)
Theorem X14_detector_only_bombs_take_lives :
  forall env w h dt g,
    let g' := checkCollisions env w h dt g in
    gameState g' = gameState g
    /\ trailRef g' = trailRef g
    /\ (bombsHit (statsRef g) <= bombsHit (statsRef g'))%Z
    /\ (livesRef g' = livesRef g
        \/ (livesRef g' = 0%Z
            /\ (bombsHit (statsRef g) < bombsHit (statsRef g'))%Z)).
Proof.
  intros env w h dt g. exact (checkCollisions_detectorStep env w h dt g).
Qed.

Lemma isHit_sliced p1 dx dy dist e :
  e_isSliced e = true -> isHit p1 dx dy dist e = false.
Proof. unfold isHit. intros ->. reflexivity. Qed.

Lemma forEachEntity_no_hits env p1 dx dy dist es :
  Forall (fun e => isHit p1 dx dy dist e = false) es ->
  forall a,
    let r := forEachEntity (entityBody env p1 dx dy dist) es a in
    fst r = es /\ game (snd r) = game a
    /\ entitiesToRemove (snd r) = entitiesToRemove a
    /\ entitiesToAdd (snd r) = entitiesToAdd a
    /\ scoreChanged (snd r) = scoreChanged a.
Proof.
  induction 1 as [|e es He Hes IH]; intros a; cbv zeta.
  - repeat split; reflexivity.
  - cbn [forEachEntity].
    destruct (entityBody_miss env p1 dx dy dist e a He)
      as (M1 & M2 & M3 & M4 & M5).
    destruct (entityBody env p1 dx dy dist e a) as [e' a'].
    cbn [fst snd] in *. subst e'.
    specialize (IH a'). cbv zeta in IH.
    destruct (forEachEntity _ es a') as [rest a''].
    cbn [fst snd] in *. destruct IH as (I1 & I2 & I3 & I4 & I5).
    repeat split; congruence.
Qed.

Lemma set_entitiesRef_same g : set_entitiesRef (entitiesRef g) g = g.
Proof. destruct g. reflexivity. Qed.

(** After a scan that ran, nothing in the array can be hit by the same
    segment. *)
Lemma checkCollisions_leaves_no_target env w h dt g p1 p2 :
  lastTwo (trailRef g) = Some (p1, p2) ->
  5 <= Math.hypot (tp_x p2 - tp_x p1) (tp_y p2 - tp_y p1) ->
  let dx := tp_x p2 - tp_x p1 in
  let dy := tp_y p2 - tp_y p1 in
  Forall (fun e => isHit p1 dx dy (Math.hypot dx dy) e = false)
    (entitiesRef (checkCollisions env w h dt g)).
Proof.
  intros HT H5 dx dy. set (dist := Math.hypot dx dy).
  rewrite (checkCollisions_entities env w h dt g p1 p2 HT H5).
  cbv zeta. fold dx dy dist.
  set (hits := filter (isFruitHit p1 dx dy dist) (entitiesRef g)).
  assert (HM : forall x,
             In x (map (fun e => if isHit p1 dx dy dist e && isBomb e
                                 then markSliced e else e) (entitiesRef g)) ->
             isHit p1 dx dy dist x = false
             \/ In (e_id x) (map e_id hits)).
  { intros x Hx. apply in_map_iff in Hx as (e & <- & He).
    destruct (isHit p1 dx dy dist e) eqn:Hh; [|now left].
    destruct (isBomb e) eqn:Hb; cbn [andb].
    - left. now apply isHit_sliced.
    - right. apply in_map. apply filter_In. split; [exact He|].
      unfold isFruitHit. now rewrite Hh, Hb. }
  assert (HFr : forall x, In x (flat_map (fragmentsOf p1 dx dy dist) hits) ->
                          isHit p1 dx dy dist x = false).
  { intros x Hx. apply in_flat_map in Hx as (y & _ & Hy).
    apply fragmentsOf_sliced in Hy as [Hy _]. now apply isHit_sliced. }
  apply Forall_forall. intros x Hx.
  destruct hits as [|y ys] eqn:Ehits.
  - destruct (HM x Hx) as [H|H]; [exact H|destruct H].
  - apply in_app_or in Hx as [Hx|Hx]; [|now apply HFr].
    apply filter_In in Hx as [Hx Hn].
    destruct (HM x Hx) as [H|H]; [exact H|].
    apply includes_In in H. rewrite H in Hn. discriminate Hn.
Qed.

(** X15. The detector is idempotent: running it again on its own result
    (the trail being the same) changes nothing.  Every entity the segment
    can hit is dealt with in the first pass, a hit bomb is marked sliced, a
    hit fruit is replaced by sliced halves, so nothing is ever sliced
    twice by one segment. *)
Theorem X15_detector_idempotent :
  forall env w h dt dt' g,
    checkCollisions env w h dt' (checkCollisions env w h dt g)
    = checkCollisions env w h dt g.
Proof.
  intros env w h dt dt' g.
  destruct (collisionScan env g) as [[es0 a0]|] eqn:ES.
  - unfold collisionScan in ES.
    destruct (lastTwo (trailRef g)) as [[p1 p2]|] eqn:HT; [|discriminate].
    destruct (Rltb _ 5) eqn:E5; [discriminate|]. apply Rltb_false in E5.
    clear ES es0 a0.
    pose proof (checkCollisions_leaves_no_target env w h dt g p1 p2 HT E5)
      as HN. cbv zeta in HN.
    destruct (checkCollisions_detectorStep env w h dt g) as (_ & HTr & _).
    set (g1 := checkCollisions env w h dt g) in *. clearbody g1.
    unfold checkCollisions, collisionScan. rewrite HTr, HT.
    apply Rltb_false in E5. rewrite E5.
    pose proof (forEachEntity_no_hits env p1 _ _ _ (entitiesRef g1) HN
                  (mkPass g1 [] [] false [])) as HF.
    cbv zeta in HF.
    destruct (forEachEntity _ _ _) as [es a]. cbn [fst snd] in HF.
    destruct HF as (F1 & F2 & F3 & F4 & F5).
    cbn [game entitiesToRemove entitiesToAdd scoreChanged] in *.
    unfold applyBatch. rewrite F2, F3, F5, F1.
    apply set_entitiesRef_same.
  - assert (E : checkCollisions env w h dt g = g)
      by (unfold checkCollisions; now rewrite ES).
    rewrite E. unfold checkCollisions.
    assert (ES' : collisionScan env g = None) by exact ES.
    unfold collisionScan in *.
    destruct (lastTwo (trailRef g)) as [[p1 p2]|]; [|reflexivity].
    destruct (Rltb _ 5); [reflexivity|discriminate].
Qed.

(** ** Score keeping over whole frames *)

Lemma scoreStep_refl g : scoreStep g g.
Proof. unfold scoreStep. lia. Qed.

Lemma scoreStep_trans g1 g2 g3 :
  scoreStep g1 g2 -> scoreStep g2 g3 -> scoreStep g1 g3.
Proof. unfold scoreStep. lia. Qed.

Lemma scoreStep_eq g g' :
  scoreRef g' = scoreRef g -> statsRef g' = statsRef g -> scoreStep g g'.
Proof. unfold scoreStep. intros -> ->. lia. Qed.

Lemma entityBody_scoreStep env p1 dx dy dist e a :
  scoreStep (game a) (game (snd (entityBody env p1 dx dy dist e a))).
Proof.
  destruct (isHit p1 dx dy dist e) eqn:H.
  - destruct (isBomb e) eqn:Hb.
    + rewrite (entityBody_bomb env _ _ _ _ _ _ H Hb). cbn [snd game].
      pose proof (bombHit_cells env e (game a)) as HB. cbv zeta in HB.
      destruct HB as (_ & _ & _ & _ & S1 & _ & S2 & _).
      unfold scoreStep. rewrite S1, S2. lia.
    + rewrite (entityBody_fruit env _ _ _ _ _ _ H Hb). cbn [snd].
      set (a' := mkPass _ _ _ _ _).
      pose proof (fruitHit_cells env p1 dx dy dist e a') as HF.
      cbv zeta in HF. cbn [game a'] in HF.
      destruct HF as (_ & _ & _ & S1 & S2 & _).
      pose proof (comboBonus_nonneg env (game a)).
      unfold scoreStep. rewrite S1, S2. lia.
  - destruct (entityBody_miss env _ _ _ _ _ a H) as (_ & -> & _).
    apply scoreStep_refl.
Qed.

Lemma checkCollisions_scoreStep env w h dt g :
  scoreStep g (checkCollisions env w h dt g).
Proof.
  unfold checkCollisions, collisionScan.
  destruct (lastTwo (trailRef g)) as [[p1 p2]|]; [|apply scoreStep_refl].
  set (dx := tp_x p2 - tp_x p1). set (dy := tp_y p2 - tp_y p1).
  set (dist := Math.hypot dx dy).
  destruct (Rltb dist 5); [apply scoreStep_refl|].
  set (body := entityBody env p1 dx dy dist).
  assert (HF : forall es a,
             scoreStep (game a) (game (snd (forEachEntity body es a)))).
  { induction es as [|e es IH]; intros a; [apply scoreStep_refl|].
    cbn [forEachEntity].
    pose proof (entityBody_scoreStep env p1 dx dy dist e a) as H1.
    fold body in H1. destruct (body e a) as [e' a'].
    specialize (IH a'). destruct (forEachEntity body es a').
    cbn [snd] in *. eapply scoreStep_trans; eassumption. }
  specialize (HF (entitiesRef g) (mkPass g [] [] false [])).
  destruct (forEachEntity body _ _) as [es a]. cbn [snd game] in HF.
  unfold scoreStep in *. rewrite applyBatch_scoreRef, applyBatch_stats.
  exact HF.
Qed.

Lemma draw_score w h g : scoreRef (draw w h g) = scoreRef g.
Proof. unfold draw. destruct (Rltb 0 (shakeIntensityRef g)); easy. Qed.

Lemma renderFrame_scoreStep env canvas vision g :
  scoreStep g (renderFrame env canvas vision g).
Proof.
  unfold renderFrame.
  set (dt := Math.min _ 0.1).
  set (g0 := set_lastTimeRef _ (set_perfCalls _ g)).
  assert (H0 : scoreStep g g0) by (apply scoreStep_eq; reflexivity).
  clearbody g0.
  destruct canvas as [[w h]|]; [|exact H0].
  assert (HD : scoreStep g (detectHand env vision w h g0)).
  { eapply scoreStep_trans; [exact H0|].
    destruct (detectHand_cells env vision w h g0)
      as (_ & _ & _ & _ & D1 & _ & _ & D2).
    now apply scoreStep_eq. }
  assert (HU : forall x, scoreStep g x ->
                         scoreStep g (update env dt w h x)).
  { intros x Hx. eapply scoreStep_trans; [exact Hx|].
    destruct (update_stats env dt w h x) as (U1 & U2 & _).
    now apply scoreStep_eq. }
  assert (HW : forall x, scoreStep g x -> scoreStep g (draw w h x)).
  { intros x Hx. eapply scoreStep_trans; [exact Hx|].
    destruct (draw_cells w h x) as (_ & _ & W1 & _).
    apply scoreStep_eq; [apply draw_score|exact W1]. }
  apply HW. destruct (gameState g0).
  - exact H0.
  - destruct (particlesRef _); [destruct (floatingTextsRef _)|];
      try exact HD; apply HU; exact HD.
  - apply HU. eapply scoreStep_trans; [exact HD|].
    apply checkCollisions_scoreStep.
  - destruct (particlesRef _); [destruct (floatingTextsRef _)|];
      try exact HD; apply HU; exact HD.
Qed.

(** X16. Score keeping is consistent over a session: [startGame] sets the
    score cell and the statistics' score to 0; no frame ever lowers the
    score; and every frame moves the two by the same amount, so the score
    shown at the end (the statistics' score) is the score the difficulty
    tier was chosen by. *)
Theorem X16_score_in_sync_and_monotone :
  forall env canvas vision g,
    let g' := renderFrame env canvas vision g in
    (scoreRef g <= scoreRef g')%Z
    /\ (scoreInSync g -> scoreInSync g')
    /\ scoreInSync (startGame env g)
    /\ scoreRef (startGame env g) = 0%Z
    /\ scoreInSync initialGame.
Proof.
  intros env canvas vision g g'.
  destruct (renderFrame_scoreStep env canvas vision g) as [S1 S2].
  fold g' in S1, S2. unfold scoreInSync.
  repeat split; try reflexivity; try lia.
Qed.

(** X17. After a pass that ran, the HUD shows the score cell, the fruit
    count and the best combo as they are after the pass whenever the pass
    hit a fruit; a pass that hit no fruit (even one that hit a bomb) leaves
    the HUD as it was. *)
Theorem X17_hud_follows_fruit_hits :
  forall env w h dt g p1 p2,
    lastTwo (trailRef g) = Some (p1, p2) ->
    5 <= Math.hypot (tp_x p2 - tp_x p1) (tp_y p2 - tp_y p1) ->
    let dx := tp_x p2 - tp_x p1 in
    let dy := tp_y p2 - tp_y p1 in
    let g' := checkCollisions env w h dt g in
    let fruitHitInPass :=
      existsb (isFruitHit p1 dx dy (Math.hypot dx dy)) (entitiesRef g) in
    hudStats g'
    = (if fruitHitInPass
       then mkHudStats (scoreRef g') (fruitsSliced (statsRef g'))
              (maxCombo (statsRef g'))
       else hudStats g).
Proof.
  intros env w h dt g p1 p2 HT H5 dx dy g' fruitHitInPass.
  unfold g', checkCollisions, collisionScan. rewrite HT. fold dx dy.
  set (dist := Math.hypot dx dy) in *.
  assert (E : Rltb dist 5 = false) by (apply Rltb_false; exact H5).
  rewrite E.
  set (body := entityBody env p1 dx dy dist).
  assert (HH : forall es a,
             hudStats (game (snd (forEachEntity body es a)))
             = hudStats (game a)).
  { induction es as [|e es IH]; intros a; [reflexivity|].
    cbn [forEachEntity].
    assert (H1 : hudStats (game (snd (body e a))) = hudStats (game a)).
    { unfold body. destruct (isHit p1 dx dy dist e) eqn:H.
      - destruct (isBomb e) eqn:Hb.
        + rewrite (entityBody_bomb env _ _ _ _ _ _ H Hb). cbn [snd game].
          now destruct (bombHit_frame env e (game a)) as (_ & _ & ->).
        + rewrite (entityBody_fruit env _ _ _ _ _ _ H Hb). cbn [snd].
          now destruct (fruitHit_frame env p1 dx dy dist e
                          (mkPass (game a) (entitiesToRemove a)
                             (entitiesToAdd a) (scoreChanged a)
                             (divisors a ++ [dist * dist])))
            as (_ & _ & ->).
      - now destruct (entityBody_miss env _ _ _ _ _ a H) as (_ & -> & _). }
    destruct (body e a) as [e' a']. specialize (IH a').
    destruct (forEachEntity body es a'). cbn [snd] in *. congruence. }
  specialize (HH (entitiesRef g) (mkPass g [] [] false [])).
  pose proof (forEachEntity_buffers env p1 dx dy dist (entitiesRef g)
                (mkPass g [] [] false [])) as HB.
  cbv zeta in HB. fold body in HB.
  destruct (forEachEntity body _ _) as [es a]. cbn [fst snd game] in *.
  destruct HB as (_ & _ & _ & B4). cbn [scoreChanged orb] in B4.
  fold fruitHitInPass in B4.
  unfold applyBatch. rewrite B4.
  destruct fruitHitInPass; destruct (entitiesToRemove a);
    cbn [hudStats scoreRef statsRef set_entitiesRef set_hudStats];
    try reflexivity; exact HH.
Qed.

Lemma X17_witness_fast_swipe :
  lastTwo (trailRef fastSwipe) = Some (pointA, pointB)
  /\ 5 <= Math.hypot (tp_x pointB - tp_x pointA) (tp_y pointB - tp_y pointA)
  /\ hudStats (checkCollisions env0 1920 1080 (1 / 60) fastSwipe)
     = (if existsb
             (isFruitHit pointA (tp_x pointB - tp_x pointA)
                (tp_y pointB - tp_y pointA)
                (Math.hypot (tp_x pointB - tp_x pointA)
                   (tp_y pointB - tp_y pointA)))
             (entitiesRef fastSwipe)
        then mkHudStats
               (scoreRef (checkCollisions env0 1920 1080 (1 / 60) fastSwipe))
               (fruitsSliced
                  (statsRef
                     (checkCollisions env0 1920 1080 (1 / 60) fastSwipe)))
               (maxCombo
                  (statsRef
                     (checkCollisions env0 1920 1080 (1 / 60) fastSwipe)))
        else hudStats fastSwipe).
Proof.
  split; [reflexivity|]. split; [exact sample_swipe_length|].
  exact (X17_hud_follows_fruit_hits env0 1920 1080 (1 / 60) fastSwipe
           pointA pointB eq_refl sample_swipe_length).
Defined.

(** ** Phases over whole frames *)

Lemma draw_lives w h g :
  livesRef (draw w h g) = livesRef g.
Proof. unfold draw. destruct (Rltb 0 (shakeIntensityRef g)); easy. Qed.

(** X18. A frame never leaves LOADING, MENU or GAMEOVER (only [startGame]
    and the readiness signal do), and it leaves PLAYING only for GAMEOVER
    and only with the lives at 0 or below; without a canvas it changes no
    phase at all. *)
Theorem X18_frames_change_phase_only_to_end :
  forall env canvas vision g,
    let g' := renderFrame env canvas vision g in
    (gameState g <> PLAYING -> gameState g' = gameState g)
    /\ (gameState g = PLAYING ->
        gameState g' = PLAYING
        \/ (gameState g' = GAMEOVER /\ (livesRef g' <= 0)%Z))
    /\ (canvas = None -> gameState g' = gameState g).
Proof.
  intros env canvas vision g g'. unfold g', renderFrame.
  set (dt := Math.min _ 0.1).
  set (g0 := set_lastTimeRef _ (set_perfCalls _ g)).
  assert (E0 : gameState g0 = gameState g) by reflexivity.
  clearbody g0.
  destruct canvas as [[w h]|]; [|rewrite E0; repeat split; auto].
  assert (ED : gameState (detectHand env vision w h g0) = gameState g).
  { destruct (detectHand_cells env vision w h g0) as (-> & _). exact E0. }
  set (gd := detectHand env vision w h g0) in *. clearbody gd.
  split; [|split; [|discriminate]].
  - intros HP. destruct (draw_cells w h
      (match gameState g0 with
       | LOADING => g0
       | PLAYING => update env dt w h (checkCollisions env w h dt gd)
       | _ => match particlesRef gd, floatingTextsRef gd with
              | [], [] => gd
              | _, _ => update env dt w h gd
              end
       end)) as (_ & -> & _).
    rewrite E0. destruct (gameState g) eqn:EG; try contradiction;
      try exact E0.
    + destruct (particlesRef gd); [destruct (floatingTextsRef gd)|];
        try exact ED; rewrite update_gameState, ED;
        now rewrite andb_false_r.
    + destruct (particlesRef gd); [destruct (floatingTextsRef gd)|];
        try exact ED; rewrite update_gameState, ED;
        now rewrite andb_false_r.
  - intros HP. rewrite E0, HP.
    set (gc := checkCollisions env w h dt gd).
    assert (EC : gameState gc = PLAYING).
    { unfold gc.
      destruct (checkCollisions_detectorStep env w h dt gd) as (-> & _).
      now rewrite ED. }
    clearbody gc.
    destruct (draw_cells w h (update env dt w h gc)) as (_ & -> & _).
    rewrite draw_lives.
    destruct (update_stats env dt w h gc) as (_ & _ & ->).
    rewrite update_gameState, EC.
    destruct (Z.leb_spec (livesRef gc) 0); cbn [andb GamePhase_eqb];
      [|now left].
    destruct (Rltb (shakeIntensityRef gc) 1); [right; now split|now left].
Qed.

(** ** The pointer *)

(** X19. When a hand is seen in a video of positive size, [detectHand]
    appends exactly one point to the trail, stamped with the clock, and
    remembers it as the last hand position.  The video is scaled to cover
    the canvas (the scaled size is at least the canvas size both ways) and
    mirrored: the raw pointer is the canvas centre moved by the tip's
    offset from the video centre, times the scaled size, with the
    horizontal sign flipped.  The first point of a stroke is the raw
    pointer; every later one is the midpoint of the last position and the
    raw pointer. *)
Theorem X19_pointer_mapping :
  forall env tx ty vW vH w h g,
    0 < vW -> 0 < vH ->
    let g' := detectHand env (IndexTip tx ty vW vH) w h g in
    let scale := Rmax (w / vW) (h / vH) in
    let rawX := w / 2 - (tx - 1 / 2) * (vW * scale) in
    let rawY := h / 2 + (ty - 1 / 2) * (vH * scale) in
    w <= vW * scale /\ h <= vH * scale
    /\ exists p,
         trailRef g' = trailRef g ++ [p]
         /\ tp_timestamp p = dateNow env (dateCalls g)
         /\ lastHandPosRef g' = Some (mkPoint (tp_x p) (tp_y p))
         /\ (lastHandPosRef g = None -> tp_x p = rawX /\ tp_y p = rawY)
         /\ (forall last, lastHandPosRef g = Some last ->
               tp_x p = (pt_x last + rawX) / 2
               /\ tp_y p = (pt_y last + rawY) / 2).
Proof.
  intros env tx ty vW vH w h g HW HH g' scale rawX rawY.
  assert (S1 : w / vW <= scale) by apply Rmax_l.
  assert (S2 : h / vH <= scale) by apply Rmax_r.
  split.
  { replace w with (vW * (w / vW)) at 1 by (field; lra).
    apply Rmult_le_compat_l; lra. }
  split.
  { replace h with (vH * (h / vH)) at 1 by (field; lra).
    apply Rmult_le_compat_l; lra. }
  unfold g', detectHand. cbn [lastHandPosRef set_perfCalls].
  unfold Math.max. fold scale.
  destruct (lastHandPosRef g) as [last|] eqn:EL.
  - match goal with |- context [if ?c then _ else _] => destruct c end;
      eexists; (split; [reflexivity|]);
      cbn [tp_timestamp tp_x tp_y];
      (split; [reflexivity|]); (split; [reflexivity|]);
      (split; [discriminate|]);
      intros l El; injection El as <-; unfold rawX, rawY;
      clearbody scale; split; nra.
  - eexists. split; [reflexivity|]. cbn [tp_timestamp tp_x tp_y].
    split; [reflexivity|]. split; [reflexivity|].
    split; [|discriminate]. intros _. unfold rawX, rawY.
    clearbody scale. split; nra.
Qed.

Lemma X19_witness_centre_of_video :
  0 < 1280 /\ 0 < 720
  /\ 1920 <= 1280 * Rmax (1920 / 1280) (1080 / 720).
Proof.
  assert (HW : 0 < 1280) by lra. assert (HH : 0 < 720) by lra.
  split; [exact HW|]. split; [exact HH|].
  exact (proj1 (X19_pointer_mapping env0 (1 / 2) (1 / 2) 1280 720 1920 1080
                  fastSwipe HW HH)).
Defined.

(** X20. The slice whoosh is rate-limited: one call of [detectHand] plays
    at most one, only for a hand that moved more than 10 from its last
    position and more than 100 ms after the previous whoosh, and then
    records the time; otherwise the audio log and the time of the last
    whoosh are as before.  With no hand in view the trail is untouched and
    the last position is forgotten exactly when the trail is empty; with
    the tracker not ready nothing changes at all. *)
Theorem X20_slice_sound_rate_limited :
  forall env vision w h g,
    let g' := detectHand env vision w h g in
    let now := performanceNow env (perfCalls g) in
    ((audioLog g' = audioLog g
      /\ lastSliceSoundTime g' = lastSliceSoundTime g)
     \/ (audioLog g' = audioLog g ++ [PlaySlice]
         /\ lastSliceSoundTime g' = now
         /\ 100 < now - lastSliceSoundTime g
         /\ exists last p,
              lastHandPosRef g = Some last
              /\ lastHandPosRef g' = Some p
              /\ 10 < Math.hypot (pt_x p - pt_x last) (pt_y p - pt_y last)))
    /\ (vision = NotReady -> g' = g)
    /\ (vision = NoHand ->
        trailRef g' = trailRef g
        /\ (trailRef g = [] -> lastHandPosRef g' = None)
        /\ (trailRef g <> [] -> lastHandPosRef g' = lastHandPosRef g)).
Proof.
  intros env vision w h g g' now. unfold g', detectHand.
  destruct vision as [| |tx ty vW vH].
  - split; [left; split; reflexivity|]. split; [reflexivity|discriminate].
  - cbn [trailRef set_perfCalls].
    split; [left; destruct (trailRef g); split; reflexivity|].
    split; [discriminate|]. intros _.
    destruct (trailRef g) eqn:ET; cbn; rewrite ?ET;
      repeat split; try reflexivity; intros; congruence.
  - cbn [lastHandPosRef set_perfCalls]. fold now.
    split; [|split; discriminate].
    destruct (lastHandPosRef g) as [last|]; [|left; split; reflexivity].
    match goal with |- context [if ?c then _ else _] =>
      destruct c eqn:EC end.
    + right. apply andb_prop in EC as [E1 E2].
      apply Rltb_true in E1. apply Rltb_true in E2.
      cbn [lastSliceSoundTime set_perfCalls] in E2.
      split; [reflexivity|]. split; [reflexivity|]. split; [exact E2|].
      eexists. eexists. split; [reflexivity|]. split; [reflexivity|].
      cbn [pt_x pt_y]. exact E1.
    + left. split; reflexivity.
Qed.

(** ** The feedback request, the good path *)

(** With a non-empty key and a collaborator that returns a non-empty
    text, the feedback is that text, unchanged; the collaborator is asked
    with the model name and the prompt built from the statistics; and
    without a key the answer does not depend on the collaborator at all
    (it is not consulted). *)
Lemma feedback_passes_text_through :
  forall (key : string) (gen gen' : GeminiService.Collaborator)
         (stats : GameStats),
    (forall c txt r,
       gen (GeminiService.mkGoogleGenAI (String c key))
         (GeminiService.mkRequest "gemini-3-flash-preview"
            (GeminiService.prompt stats))
       = GeminiService.Returns r ->
       GeminiService.text r = Some txt -> txt <> "" ->
       GeminiService.generateSenseiFeedback (Some (String c key)) gen stats
       = GeminiService.Resolved txt)
    /\ GeminiService.generateSenseiFeedback None gen stats
       = GeminiService.generateSenseiFeedback None gen' stats
    /\ GeminiService.generateSenseiFeedback (Some "") gen stats
       = GeminiService.generateSenseiFeedback (Some "") gen' stats.
Proof.
  intros key gen gen' stats. split; [|split; reflexivity].
  intros c txt r Hg Ht Hne.
  unfold GeminiService.generateSenseiFeedback. cbn [GeminiService.initGenAI].
  rewrite Hg, Ht. unfold GeminiService.or_else.
  destruct txt; [contradiction|reflexivity].
Qed.

(** ** What the player sees and hears on a fruit hit *)

(** X21. A fruit hit always plays the splat and shows "+10" fifty above
    the fruit.  When it continues a combo chain with a bonus (gap below
    400 ms and new combo above 1) it also plays the combo tone for the new
    combo, shows "<combo>x COMBO!" in yellow a hundred above the fruit, and
    sets the screen shake to min(3 * combo, 15), which lies between 6 and 15
    and replaces whatever shake was there (a bomb's 45 included);
    otherwise the shake is left as it was. *)
Theorem X21_fruit_hit_feedback :
  forall env p1 dx dy dist e a,
    let g := game a in
    let g' := game (fruitHit env p1 dx dy dist e a) in
    let combo := (currentCombo g + 1)%Z in
    let chain :=
      (dateNow env (dateCalls g) - comboTimerRef g <? 400)%Z
      && (1 <? combo)%Z in
    shakeIntensityRef g'
    = (if chain then Rmin (IZR (combo * 3)) 15 else shakeIntensityRef g)
    /\ (chain = true -> 6 <= shakeIntensityRef g' <= 15)
    /\ audioLog g'
       = audioLog g ++ [PlaySplat]
         ++ (if chain then [PlayCombo combo] else [])
    /\ exists plus10,
         ((chain = false
           /\ floatingTextsRef g' = floatingTextsRef g ++ [plus10])
          \/ (chain = true
              /\ exists comboText,
                   floatingTextsRef g'
                   = floatingTextsRef g ++ [plus10; comboText]
                   /\ ft_text comboText
                      = (string_of_Z combo ++ "x COMBO!")%string
                   /\ ft_color comboText = "#ffff00"
                   /\ ft_x comboText = e_x e
                   /\ ft_y comboText = e_y e - 100
                   /\ ft_life comboText = 1))
         /\ ft_text plus10 = "+10" /\ ft_color plus10 = "#fff"
         /\ ft_x plus10 = e_x e /\ ft_y plus10 = e_y e - 50
         /\ ft_life plus10 = 1 /\ ft_scale plus10 = 1.
Proof.
  intros env p1 dx dy dist e a g g' combo chain.
  assert (Hmin : chain = true -> 6 <= Rmin (IZR (combo * 3)) 15 <= 15).
  { intros Hc. apply andb_prop in Hc as [_ Hc]. apply Z.ltb_lt in Hc.
    assert (6 <= IZR (combo * 3)) by (apply IZR_le; lia).
    unfold Rmin. destruct (Rle_dec _ 15); lra. }
  unfold g', fruitHit. cbv zeta. cbn [game]. fold g.
  unfold comboSystem, comboContinues. rewrite createExplosion_shape.
  cbn [dateCalls comboTimerRef currentCombo set_dateCalls
       spawnFloatingText set_randomCalls set_floatingTextsRef set_statsRef
       set_scoreRef set_particlesRef audio set_audioLog].
  fold combo. unfold chain in *.
  destruct (_ <? 400)%Z; [destruct (1 <? combo)%Z|]; cbn [andb] in *;
    (split; [reflexivity|]);
    (split; [intros Hc; first [discriminate Hc | exact (Hmin Hc)]|]);
    (split; [cbn; rewrite <- ?app_assoc; reflexivity|]);
    eexists; split.
  - right. split; [reflexivity|]. eexists.
    split; [cbn; rewrite <- ?app_assoc; reflexivity|].
    cbn. repeat split; reflexivity.
  - cbn. repeat split; reflexivity.
  - left. split; reflexivity.
  - cbn. repeat split; reflexivity.
  - left. split; reflexivity.
  - cbn. repeat split; reflexivity.
Qed.

(** ** Particles over many ticks *)

Lemma stepParticle_keeps env ts q nd :
  p_gravity (fst (stepParticle env ts q nd)) = p_gravity q
  /\ p_rotationSpeed (fst (stepParticle env ts q nd)) = p_rotationSpeed q
  /\ p_type (fst (stepParticle env ts q nd)) = p_type q.
Proof.
  unfold stepParticle. destruct (p_stuck q); repeat split; reflexivity.
Qed.

Lemma stepsParticle_keeps env ts nds p :
  p_gravity (stepsParticle env ts nds p) = p_gravity p
  /\ p_rotationSpeed (stepsParticle env ts nds p) = p_rotationSpeed p
  /\ p_type (stepsParticle env ts nds p) = p_type p.
Proof.
  unfold stepsParticle.
  induction nds as [|nd nds IH] using rev_ind; [repeat split; reflexivity|].
  rewrite fold_left_app. cbn [fold_left].
  destruct (stepParticle_keeps env ts
              (fold_left (fun q m => fst (stepParticle env ts q m)) nds p) nd)
    as (-> & -> & ->).
  exact IH.
Qed.

Lemma stepParticle_motion env ts q nd :
  let q' := fst (stepParticle env ts q nd) in
  (p_stuck q = true ->
     p_x q' = p_x q /\ p_vx q' = p_vx q /\ p_vy q' = p_vy q
     /\ p_y q' = p_y q + p_gravity q * ts)
  /\ (p_stuck q = false ->
      p_vx q' = p_vx q * 0.95
      /\ p_rotation q' = p_rotation q + p_rotationSpeed q * ts
      /\ p_scale q' = p_scale q).
Proof.
  unfold stepParticle. destruct (p_stuck q); split; intros H;
    try discriminate H; repeat split; reflexivity.
Qed.

(** X22. Over [n] ticks of time scale [ts] a particle loses
    [n * decay * ts] of life, whatever the clock shows, so it passes the
    life filter of [update] exactly while [n * decay * ts < life].  A stuck
    droplet keeps its velocity cells and its abscissa and sinks by
    [n * gravity * ts]; a free particle's horizontal velocity is multiplied
    by 0.95 on every tick, independently of [ts]. *)
Theorem X22_particle_over_ticks :
  forall env ts nds p,
    let n := INR (List.length nds) in
    let p' := stepsParticle env ts nds p in
    p_life p' = p_life p - n * p_decay p * ts
    /\ p_decay p' = p_decay p /\ p_stuck p' = p_stuck p
    /\ p_id p' = p_id p /\ p_type p' = p_type p
    /\ (Rltb 0 (p_life p') = true <-> n * p_decay p * ts < p_life p)
    /\ (p_stuck p = true ->
        p_x p' = p_x p /\ p_vx p' = p_vx p /\ p_vy p' = p_vy p
        /\ p_y p' = p_y p + n * p_gravity p * ts)
    /\ (p_stuck p = false ->
        p_vx p' = p_vx p * 0.95 ^ List.length nds
        /\ p_rotation p' = p_rotation p + n * p_rotationSpeed p * ts
        /\ p_scale p' = p_scale p).
Proof.
  intros env ts nds. unfold stepsParticle.
  induction nds as [|nd nds IH] using rev_ind; intros p.
  - cbn. repeat split; try lra; try (intros; lra).
    + intros H. apply Rltb_true in H. lra.
    + intros H. apply Rltb_true. lra.
  - cbv zeta in *. rewrite fold_left_app. cbn [fold_left].
    rewrite length_app, Nat.add_comm. cbn [List.length Nat.add].
    rewrite S_INR.
    destruct (stepsParticle_keeps env ts nds p) as (K1 & K2 & K3).
    unfold stepsParticle in K1, K2, K3.
    specialize (IH p).
    set (q := fold_left _ nds p) in *. clearbody q.
    destruct IH as (I1 & I2 & I3 & I4 & I5 & _ & I7 & I8).
    destruct (stepParticle_life env ts q nd) as (L1 & L2 & L3 & L4).
    destruct (stepParticle_keeps env ts q nd) as (_ & _ & T1).
    destruct (stepParticle_motion env ts q nd) as (M1 & M2).
    set (q' := fst (stepParticle env ts q nd)) in *. clearbody q'.
    assert (HL : p_life q'
                 = p_life p - (INR (List.length nds) + 1) * p_decay p * ts)
      by (rewrite L1, I1, I2; lra).
    split; [exact HL|]. split; [congruence|]. split; [congruence|].
    split; [congruence|]. split; [congruence|].
    split; [rewrite HL; rewrite Rltb_true; split; lra|].
    split.
    + intros Hs. destruct (I7 Hs) as (A1 & A2 & A3 & A4).
      destruct M1 as (B1 & B2 & B3 & B4); [congruence|].
      rewrite B1, B2, B3, B4, A1, A2, A3, A4, K1. repeat split; lra.
    + intros Hs. destruct (I8 Hs) as (A1 & A2 & A3).
      destruct M2 as (B1 & B2 & B3); [congruence|].
      rewrite B1, B2, B3, A1, A2, A3, K2. simpl pow.
      repeat split; lra.
Qed.

(** ** The clamp on elapsed time *)

Lemma entityBody_spawnTimer env p1 dx dy dist e a :
  spawnTimerRef (game (snd (entityBody env p1 dx dy dist e a)))
  = spawnTimerRef (game a).
Proof.
  destruct (isHit p1 dx dy dist e) eqn:H.
  - destruct (isBomb e) eqn:Hb.
    + rewrite (entityBody_bomb env _ _ _ _ _ _ H Hb). cbn [snd game].
      unfold bombHit. rewrite createExplosion_shape. reflexivity.
    + rewrite (entityBody_fruit env _ _ _ _ _ _ H Hb). cbn [snd].
      unfold fruitHit. cbv zeta. cbn [game].
      unfold comboSystem, comboContinues. rewrite createExplosion_shape.
      destruct (_ <? 400)%Z; [destruct (1 <? _)%Z|]; reflexivity.
  - now destruct (entityBody_miss env _ _ _ _ _ a H) as (_ & -> & _).
Qed.

Lemma checkCollisions_spawnTimer env w h dt g :
  spawnTimerRef (checkCollisions env w h dt g) = spawnTimerRef g.
Proof.
  unfold checkCollisions, collisionScan.
  destruct (lastTwo (trailRef g)) as [[p1 p2]|]; [|reflexivity].
  set (dx := tp_x p2 - tp_x p1). set (dy := tp_y p2 - tp_y p1).
  set (dist := Math.hypot dx dy).
  destruct (Rltb dist 5); [reflexivity|].
  set (body := entityBody env p1 dx dy dist).
  assert (HF : forall es a,
             spawnTimerRef (game (snd (forEachEntity body es a)))
             = spawnTimerRef (game a)).
  { induction es as [|e es IH]; intros a; [reflexivity|].
    cbn [forEachEntity].
    pose proof (entityBody_spawnTimer env p1 dx dy dist e a) as H1.
    fold body in H1. destruct (body e a) as [e' a'].
    specialize (IH a'). destruct (forEachEntity body es a').
    cbn [snd] in *. congruence. }
  specialize (HF (entitiesRef g) (mkPass g [] [] false [])).
  destruct (forEachEntity body _ _) as [es a]. cbn [snd game] in HF.
  unfold applyBatch.
  destruct (entitiesToRemove a); destruct (scoreChanged a); exact HF.
Qed.

(** X23. However long the browser stalled, one frame advances the spawn
    timer by at most 100 ms (the elapsed time is clamped to 0.1 s before it
    reaches [update]): a non-negative spawn timer is, after any frame, at
    most 100 above its old value. *)
Theorem X23_frame_advances_spawn_timer_by_100_at_most :
  forall env canvas vision g,
    0 <= spawnTimerRef g ->
    spawnTimerRef (renderFrame env canvas vision g)
    <= spawnTimerRef g + 100.
Proof.
  intros env canvas vision g Hpos. unfold renderFrame.
  set (dt := Math.min _ 0.1).
  assert (Hdt : dt <= 0.1) by apply Rmin_r.
  set (g0 := set_lastTimeRef _ (set_perfCalls _ g)).
  assert (E0 : spawnTimerRef g0 = spawnTimerRef g) by reflexivity.
  clearbody g0 dt.
  destruct canvas as [[w h]|]; [|lra].
  assert (ED : spawnTimerRef (detectHand env vision w h g0)
               = spawnTimerRef g).
  { destruct (detectHand_cells env vision w h g0)
      as (_ & _ & _ & _ & _ & -> & _). exact E0. }
  set (gd := detectHand env vision w h g0) in *. clearbody gd.
  assert (HU : forall x, spawnTimerRef x = spawnTimerRef g ->
                 spawnTimerRef (update env dt w h x)
                 <= spawnTimerRef g + 100).
  { intros x Hx.
    destruct (update_entities_general env dt w h x) as (n1 & _ & ->).
    rewrite Hx. destruct (Rltb _ _); lra. }
  assert (HW : forall x, spawnTimerRef (draw w h x) = spawnTimerRef x).
  { intros x. unfold draw. destruct (Rltb 0 (shakeIntensityRef x)); easy. }
  rewrite HW. destruct (gameState g0).
  - lra.
  - destruct (particlesRef gd); [destruct (floatingTextsRef gd)|];
      try (rewrite ED; lra); apply HU; exact ED.
  - apply HU. now rewrite checkCollisions_spawnTimer.
  - destruct (particlesRef gd); [destruct (floatingTextsRef gd)|];
      try (rewrite ED; lra); apply HU; exact ED.
Qed.

Lemma X23_witness_long_stall :
  0 <= spawnTimerRef gameOverWithDroplet
  /\ spawnTimerRef
       (renderFrame env0 (Some (1920, 1080)) NoHand gameOverWithDroplet)
     <= spawnTimerRef gameOverWithDroplet + 100.
Proof.
  assert (H : 0 <= spawnTimerRef gameOverWithDroplet) by (simpl; lra).
  split; [exact H|].
  exact (X23_frame_advances_spawn_timer_by_100_at_most env0
           (Some (1920, 1080)) NoHand gameOverWithDroplet H).
Defined.
